(** * The connection-pooled MCP request router (mcp/mcp_client_manager.py)

    A shallow embedding of [MCPConnectionPool] and [MCPClientManager]:
    the pool's bookkeeping, the descriptor cache, the access check, the
    single and the batched tool call and the health probe, followed by the
    properties of the design document that can be stated on them. *)

From Stdlib Require Import ZArith String List Lia.
From stdpp Require Import base option list gmap sets strings.

Set Warnings "-register-all,-clear-no-such-hyp".
Local Open Scope string_scope.
Local Open Scope list_scope.
Local Open Scope Z_scope.

(** ** Python values *)

(** What [response.json()] can produce, plus the float that
    [timedelta.total_seconds()] gives (kept as its number of microseconds).
    A dict keeps its items in insertion order. *)
Inductive pyval : Type :=
| PNone
| PBool (b : bool)
| PInt (n : Z)
| PFloat (micros : Z)
| PStr (s : string)
| PList (l : list pyval)
| PDict (d : list (string * pyval)).

(** An exception: its class and what [str(e)] gives. *)
Inductive exn : Type := Exn (cls : string) (msg : string).

Definition str_exn (e : exn) : string := let 'Exn _ m := e in m.

Inductive result (A : Type) : Type :=
| Ok (a : A)
| Raise (e : exn).
Arguments Ok {A} a.
Arguments Raise {A} e.

Module Py.

(** [bool(v)] *)
Definition truthy (v : pyval) : bool :=
  match v with
  | PNone => false
  | PBool b => b
  | PInt n => negb (n =? 0)
  | PFloat u => negb (u =? 0)
  | PStr s => negb (String.eqb s EmptyString)
  | PList l => match l with [] => false | _ => true end
  | PDict d => match d with [] => false | _ => true end
  end.

Definition type_name (v : pyval) : string :=
  match v with
  | PNone => "NoneType"
  | PBool _ => "bool"
  | PInt _ => "int"
  | PFloat _ => "float"
  | PStr _ => "str"
  | PList _ => "list"
  | PDict _ => "dict"
  end.

(** Lookup of a key in the items of a dict. *)
Fixpoint assoc (k : string) (d : list (string * pyval)) : option pyval :=
  match d with
  | [] => None
  | (k', v) :: d' => if String.eqb k' k then Some v else assoc k d'
  end.

Definition is_str (k : string) (v : pyval) : bool :=
  match v with PStr s => String.eqb s k | _ => false end.

(** [k in s] for two strings: [k] occurs in [s]. *)
Fixpoint occurs (k s : string) : bool :=
  String.prefix k s ||
  match s with
  | EmptyString => false
  | String _ s' => occurs k s'
  end.

(** [v[k]] with a string key. *)
Definition getitem (v : pyval) (k : string) : result pyval :=
  match v with
  | PDict d =>
      match assoc k d with
      | Some x => Ok x
      | None => Raise (Exn "KeyError" ("'" +:+ k +:+ "'"))
      end
  | PList _ =>
      Raise (Exn "TypeError" "list indices must be integers or slices, not str")
  | PStr _ =>
      Raise (Exn "TypeError" "string indices must be integers, not 'str'")
  | _ =>
      Raise (Exn "TypeError" ("'" +:+ type_name v +:+ "' object is not subscriptable"))
  end.

(** [v.get(k, default)]: only a dict has the method. *)
Definition get (v : pyval) (k : string) (default : pyval) : result pyval :=
  match v with
  | PDict d => Ok (from_option id default (assoc k d))
  | _ =>
      Raise (Exn "AttributeError"
               ("'" +:+ type_name v +:+ "' object has no attribute 'get'"))
  end.

(** [k in v] with a string [k]. *)
Definition contains (k : string) (v : pyval) : result bool :=
  match v with
  | PDict d => Ok (bool_decide (is_Some (assoc k d)))
  | PList l => Ok (existsb (is_str k) l)
  | PStr s => Ok (occurs k s)
  | _ =>
      Raise (Exn "TypeError"
               ("argument of type '" +:+ type_name v +:+ "' is not iterable"))
  end.

(** The elements a [for] loop over [v] visits. *)
Fixpoint chars (s : string) : list pyval :=
  match s with
  | EmptyString => []
  | String a s' => PStr (String a EmptyString) :: chars s'
  end.

Definition iter (v : pyval) : result (list pyval) :=
  match v with
  | PList l => Ok l
  | PDict d => Ok (map (fun kv => PStr (fst kv)) d)
  | PStr s => Ok (chars s)
  | _ =>
      Raise (Exn "TypeError"
               ("'" +:+ type_name v +:+ "' object is not iterable"))
  end.

End Py.

(** ** The outside world *)

(** A [Client] object is known by its identity; its constructor arguments
    are kept in the heap. *)
Abbreviation Client := nat.

Record ClientObj : Type := mkClientObj {
  client_url : pyval;
  client_auth : option pyval }.

(** The requests the module sends with [httpx]. *)
Inductive request : Type :=
| GetServer (registry_url server_id : string)
    (* f"{registry_url}/servers/{server_id}" *)
| GetUserServers (registry_url user_id : string) (enabled_only : bool)
    (* f"{registry_url}/users/servers" with its params *)
| GetHealth (url : pyval) (timeout_seconds : Z).
    (* f"{url}/health" *)

Record response : Type := mkResponse {
  status_code : Z;
  json : result pyval;          (* response.json() *)
  elapsed : Z }.                (* response.elapsed, in microseconds *)

(** What [client.call_tool] hands back: an object that may have a
    [content] or a [text] attribute. *)
Record tool_result : Type := mkToolResult {
  tr_content : option pyval;
  tr_text : option pyval;
  tr_self : pyval }.

(** Everything the code cannot decide by itself, as a function of the number
    of interactions with the outside that happened before. *)
Record Env : Type := mkEnv {
  env_utcnow : nat -> Z;        (* microseconds since datetime.min *)
  env_isoformat : Z -> string;
  env_http_get : nat -> request -> result response;
  env_is_connected : nat -> Client -> bool;
  env_aenter : nat -> Client -> result unit;
  env_call_tool : nat -> Client -> string -> pyval -> result tool_result;
  env_Client : nat -> pyval -> option pyval -> result unit;
      (* Client(url) or Client(url, auth=auth): returns, or raises *)
  env_schedule : nat -> list nat }.
      (* the order in which the event loop resumes the tasks of a gather *)

(** ** Program state *)

Record MCPConnectionPool : Type := mkPool {
  max_connections_per_server : Z;
  connection_timeout : Z;
  _pools : gmap string (list Client);
  _active_connections : gmap string (gset Client);
  _server_configs : gmap string (pyval * pyval);   (* "url", "config" *)
  _last_health_check : gmap string Z }.

Record MCPRequest : Type := mkRequest {
  tool_name : string;
  parameters : pyval;
  timeout : option Z }.

Record MCPResponse : Type := mkMCPResponse {
  success : bool;
  result_ : option pyval;
  error : option string;
  metadata : list (string * pyval) }.

Record MCPClientManager : Type := mkManager {
  registry_url : string;
  connection_pool : MCPConnectionPool;
  _server_cache : gmap string pyval;
  _cache_ttl : Z;
  _last_cache_update : Z;
  _user_servers : gmap string pyval }.

(** A call made on the pool, as an observer of the pool would note it. *)
Inductive pool_event : Type :=
| EvGet (server_id : string) (outcome : option Client)
| EvRelease (server_id : string) (client : Client)
| EvCloseAll (server_id : option string).

Record World : Type := mkWorld {
  ticks : nat;                      (* interactions with the outside so far *)
  heap : list ClientObj;            (* the Client objects made so far *)
  manager : MCPClientManager;
  history : list pool_event }.      (* ghost: never read by the program *)

Definition pool (w : World) : MCPConnectionPool := connection_pool (manager w).

Definition with_pool (p : MCPConnectionPool) (w : World) : World :=
  let m := manager w in
  mkWorld (ticks w) (heap w)
    (mkManager (registry_url m) p (_server_cache m) (_cache_ttl m)
       (_last_cache_update m) (_user_servers m))
    (history w).

Definition with_manager (m : MCPClientManager) (w : World) : World :=
  mkWorld (ticks w) (heap w) m (history w).

(** ** Computations: state, exceptions, and the calls to the outside *)

Definition M (A : Type) : Type := World -> result A * World.

#[export] Instance M_ret : MRet M := fun A a w => (Ok a, w).

#[export] Instance M_bind : MBind M := fun A B k m w =>
  match m w with
  | (Ok a, w') => k a w'
  | (Raise e, w') => (Raise e, w')
  end.

#[export] Instance result_ret : MRet result := fun A a => Ok a.

#[export] Instance result_bind : MBind result := fun A B k r =>
  match r with
  | Ok a => k a
  | Raise e => Raise e
  end.

Definition raise {A} (e : exn) : M A := fun w => (Raise e, w).

Definition lift {A} (r : result A) : M A := fun w => (r, w).

(** [try: m  except Exception as e: h e] *)
Definition try_except {A} (m : M A) (h : exn -> M A) : M A := fun w =>
  match m w with
  | (Ok a, w') => (Ok a, w')
  | (Raise e, w') => h e w'
  end.

(** [try: m  finally: f]: [f] runs on every way out of [m]; an exception
    of [f] replaces the outcome of [m]. *)
Definition try_finally {A} (m : M A) (f : M unit) : M A := fun w =>
  let '(r, w1) := m w in
  match f w1 with
  | (Ok _, w2) => (r, w2)
  | (Raise e, w2) => (Raise e, w2)
  end.

(** [async with self._lock]: the body runs without another holder of the
    lock in between; every computation here runs to its end undisturbed. *)
Definition with_lock {A} (m : M A) : M A := m.

(** Notes the call on the history once it is over. *)
Definition traced {A} (ev : result A -> pool_event) (m : M A) : M A := fun w =>
  let '(r, w') := m w in
  (r, mkWorld (ticks w') (heap w') (manager w') (history w' ++ [ev r])).

Definition get_pool : M MCPConnectionPool := fun w => (Ok (pool w), w).
Definition set_pool (p : MCPConnectionPool) : M unit := fun w => (Ok tt, with_pool p w).
Definition get_manager : M MCPClientManager := fun w => (Ok (manager w), w).
Definition set_manager (m : MCPClientManager) : M unit :=
  fun w => (Ok tt, with_manager m w).

(** [for x in l: body x] *)
Fixpoint for_each {A} (l : list A) (body : A -> M unit) : M unit :=
  match l with
  | [] => mret tt
  | x :: l' => body x;; for_each l' body
  end.

(** One interaction with the outside. *)
Definition outside {A} (f : nat -> result A) : M A := fun w =>
  (f (ticks w), mkWorld (S (ticks w)) (heap w) (manager w) (history w)).

(** ** Coroutines *)

(** A coroutine that waits for the event loop: resumed in the world [w],
    [Await k eff] runs up to its next await that suspends it, leaves the
    world [eff w] and is then [k w]; [Done r] has returned or raised.
    Nothing else runs between two suspensions. *)
Inductive Task (A : Type) : Type :=
| Done (r : result A)
| Await (k : World -> Task A) (eff : World -> World).
Arguments Done {A} r.
Arguments Await {A} k eff.

(** The code from one suspension to the next: it returns what is left of
    the task; an exception that it lets out ends the task. *)
Definition segment {A} (m : M (Task A)) : Task A :=
  Await (fun w => match fst (m w) with Ok t => t | Raise e => Done (Raise e) end)
        (fun w => snd (m w)).

Definition resume {A} (t : Task A) (w : World) : Task A * World :=
  match t with
  | Done r => (Done r, w)
  | Await k eff => (k w, eff w)
  end.

(** [await task] with nothing else running: the task resumed until it ends. *)
Fixpoint complete {A} (t : Task A) (w : World) : result A * World :=
  match t with
  | Done r => (r, w)
  | Await k eff => complete (k w) (eff w)
  end.

(** The task at position [i] resumed, the others left as they are. *)
Fixpoint resume_nth {A} (i : nat) (tasks : list (Task A)) (w : World) {struct tasks}
  : list (Task A) * World :=
  match tasks with
  | [] => ([], w)
  | t :: ts =>
      match i with
      | O => let '(t', w') := resume t w in (t' :: ts, w')
      | S i' => let '(ts', w') := resume_nth i' ts w in (t :: ts', w')
      end
  end.

Fixpoint run_schedule {A} (schedule : list nat) (tasks : list (Task A)) (w : World)
  : list (Task A) * World :=
  match schedule with
  | [] => (tasks, w)
  | i :: rest =>
      let '(tasks', w') := resume_nth i tasks w in run_schedule rest tasks' w'
  end.

Fixpoint complete_all {A} (tasks : list (Task A)) (w : World)
  : list (result A) * World :=
  match tasks with
  | [] => ([], w)
  | t :: ts =>
      let '(r, w1) := complete t w in
      let '(rs, w2) := complete_all ts w1 in
      (r :: rs, w2)
  end.

Section Program.

Variable env : Env.

Definition utcnow : M Z := outside (fun t => Ok (env_utcnow env t)).
Definition http_get (r : request) : M response := outside (fun t => env_http_get env t r).
Definition is_connected (c : Client) : M bool :=
  outside (fun t => Ok (env_is_connected env t c)).
Definition aenter (c : Client) : M unit := outside (fun t => env_aenter env t c).
Definition client_call_tool (c : Client) (name : string) (arguments : pyval)
  : M tool_result :=
  outside (fun t => env_call_tool env t c name arguments).

(** [Client(url)] or [Client(url, auth=auth)]: a new object, unless the
    constructor raises (fastmcp raises ValueError for a url it can infer no
    transport from). Making a client is no interaction with a server. *)
Definition new_Client (url : pyval) (auth : option pyval) : M Client := fun w =>
  match env_Client env (ticks w) url auth with
  | Ok _ =>
      (Ok (length (heap w)),
       mkWorld (ticks w) (heap w ++ [mkClientObj url auth]) (manager w) (history w))
  | Raise e => (Raise e, w)
  end.

(** *** MCPConnectionPool *)

(** [self._pools[server_id]] of a [defaultdict(list)]: a missing key is
    entered with an empty list. *)
Definition pools_getitem (server_id : string) : M (list Client) :=
  p ← get_pool;
  match _pools p !! server_id with
  | Some l => mret l
  | None =>
      set_pool (mkPool (max_connections_per_server p) (connection_timeout p)
                  (<[server_id := []]> (_pools p)) (_active_connections p)
                  (_server_configs p) (_last_health_check p));;
      mret []
  end.

Definition pools_setitem (server_id : string) (l : list Client) : M unit :=
  p ← get_pool;
  set_pool (mkPool (max_connections_per_server p) (connection_timeout p)
              (<[server_id := l]> (_pools p)) (_active_connections p)
              (_server_configs p) (_last_health_check p)).

(** [self._active_connections[server_id]] of a [defaultdict(set)]. *)
Definition active_getitem (server_id : string) : M (gset Client) :=
  p ← get_pool;
  match _active_connections p !! server_id with
  | Some s => mret s
  | None =>
      set_pool (mkPool (max_connections_per_server p) (connection_timeout p)
                  (_pools p) (<[server_id := ∅]> (_active_connections p))
                  (_server_configs p) (_last_health_check p));;
      mret ∅
  end.

Definition active_setitem (server_id : string) (s : gset Client) : M unit :=
  p ← get_pool;
  set_pool (mkPool (max_connections_per_server p) (connection_timeout p)
              (_pools p) (<[server_id := s]> (_active_connections p))
              (_server_configs p) (_last_health_check p)).

Definition server_configs_setitem (server_id : string) (c : pyval * pyval) : M unit :=
  p ← get_pool;
  set_pool (mkPool (max_connections_per_server p) (connection_timeout p)
              (_pools p) (_active_connections p)
              (<[server_id := c]> (_server_configs p)) (_last_health_check p)).

Definition last_health_check_setitem (server_id : string) (t : Z) : M unit :=
  p ← get_pool;
  set_pool (mkPool (max_connections_per_server p) (connection_timeout p)
              (_pools p) (_active_connections p)
              (_server_configs p) (<[server_id := t]> (_last_health_check p))).

(** [l.pop()]: the last element and the list without it. *)
Definition pop (l : list Client) : option (Client * list Client) :=
  match last l with
  | Some c => Some (c, removelast l)
  | None => None
  end.

Definition _create_connection (server_id : string) (server_url config : pyval)
  : M Client :=
  has_auth ← lift (Py.contains "auth" config);
  auth ← (if has_auth : bool then lift (Py.getitem config "auth") else mret PNone);
  if Py.truthy auth
  then new_Client server_url (Some auth)
  else new_Client server_url None.

Definition get_connection (server_id : string) (server_url config : pyval)
  : M Client :=
  traced (fun r => EvGet server_id (match r with Ok c => Some c | Raise _ => None end))
    (with_lock (
      (* Store server config for later use *)
      server_configs_setitem server_id (server_url, config);;
      (* Check if we have available connections in the pool *)
      idle ← pools_getitem server_id;
      match pop idle with
      | Some (client, rest) =>
          pools_setitem server_id rest;;
          active ← active_getitem server_id;
          active_setitem server_id (active ∪ {[client]});;
          mret client
      | None =>
          (* Create new connection if under limit *)
          active ← active_getitem server_id;
          p ← get_pool;
          if Z.of_nat (size active) <? max_connections_per_server p
          then
            client ← _create_connection server_id server_url config;
            active ← active_getitem server_id;
            active_setitem server_id (active ∪ {[client]});;
            mret client
          else
            raise (Exn "Exception"
                     ("Connection pool exhausted for server " +:+ server_id))
      end)).

Definition release_connection (server_id : string) (client : Client) : M unit :=
  traced (fun _ => EvRelease server_id client)
    (with_lock (
      active ← active_getitem server_id;
      if bool_decide (client ∈ active)
      then
        active_setitem server_id (active ∖ {[client]});;
        idle ← pools_getitem server_id;
        pools_setitem server_id (idle ++ [client])
      else mret tt)).

(** The body of the loop of [close_all_connections]. *)
Definition close_server (sid : string) : M unit :=
  (* Close pooled connections *)
  _ ← pools_getitem sid;
  pools_setitem sid [];;
  (* Close active connections *)
  _ ← active_getitem sid;
  active_setitem sid ∅.

Definition close_all_connections (server_id : option string) : M unit :=
  traced (fun _ => EvCloseAll server_id)
    (with_lock (
      p ← get_pool;
      let servers :=
        match server_id with
        | Some sid => if Py.truthy (PStr sid) then [sid] else (map_to_list (_pools p)).*1
        | None => (map_to_list (_pools p)).*1
        end in
      for_each servers close_server)).

Definition health_check (server_id : string) : M (list (string * pyval)) :=
  try_except (
    p ← get_pool;
    match _server_configs p !! server_id with
    | None => mret [("status", PStr "error"); ("message", PStr "Server not configured")]
    | Some (url, _) =>
        (* Simple HTTP health check *)
        response ← http_get (GetHealth url 5);
        now ← utcnow;
        last_health_check_setitem server_id now;;
        if status_code response =? 200
        then mret [("status", PStr "healthy");
                   ("response_time", PFloat (elapsed response))]
        else mret [("status", PStr "unhealthy");
                   ("status_code", PInt (status_code response))]
    end)
    (fun e => mret [("status", PStr "error"); ("message", PStr (str_exn e))]).

(** *** MCPClientManager *)

Definition initialize_user_servers (user_id : string) : M bool :=
  m ← get_manager;
  response ← http_get (GetUserServers (registry_url m) user_id true);
  if status_code response =? 200
  then
    data ← lift (json response);
    m ← get_manager;
    set_manager (mkManager (registry_url m) (connection_pool m) (_server_cache m)
                   (_cache_ttl m) (_last_cache_update m)
                   (<[user_id := data]> (_user_servers m)));;
    mret true
  else mret false.

(** Fetch from registry *)
Definition fetch_server_config (server_id : string) : M pyval :=
  m ← get_manager;
  response ← http_get (GetServer (registry_url m) server_id);
  if status_code response =? 200
  then
    server_data ← lift (json response);
    m ← get_manager;
    set_manager (mkManager (registry_url m) (connection_pool m)
                   (<[server_id := server_data]> (_server_cache m))
                   (_cache_ttl m) (_last_cache_update m) (_user_servers m));;
    now ← utcnow;
    m ← get_manager;
    set_manager (mkManager (registry_url m) (connection_pool m) (_server_cache m)
                   (_cache_ttl m) now (_user_servers m));;
    mret server_data
  else mret PNone.

Definition _get_server_config (server_id : string) : M pyval :=
  m ← get_manager;
  (* Check cache *)
  match _server_cache m !! server_id with
  | Some cached =>
      now ← utcnow;
      if now - _last_cache_update m <? _cache_ttl m
      then mret cached
      else fetch_server_config server_id
  | None => fetch_server_config server_id
  end.

(** [any(s["server_id"] == server_id and s.get("enabled", False) for s in l)] *)
Fixpoint any_enabled (server_id : string) (l : list pyval) : result bool :=
  match l with
  | [] => Ok false
  | s :: l' =>
      sid ← Py.getitem s "server_id";
      if Py.is_str server_id sid
      then
        enabled ← Py.get s "enabled" (PBool false);
        if Py.truthy enabled then Ok true else any_enabled server_id l'
      else any_enabled server_id l'
  end.

Definition _user_has_access (user_id server_id : string) : M bool :=
  m ← get_manager;
  let user_servers := default (PList []) (_user_servers m !! user_id) in
  items ← lift (Py.iter user_servers);
  lift (any_enabled server_id items).

Definition _execute_tool (client : Client) (request : MCPRequest) : M pyval :=
  try_except (
    result ← client_call_tool client (tool_name request) (parameters request);
    (* Extract the actual content from the result *)
    match tr_content result, tr_text result with
    | Some content, _ => mret content
    | None, Some text => mret text
    | None, None => mret (tr_self result)
    end)
    (fun e => raise (Exn "Exception" ("Tool execution failed: " +:+ str_exn e))).

(** What [call_tool] does with a connected client, up to the response. *)
Definition execute_and_wrap (server_id : string) (server_config : pyval)
    (client : Client) (request : MCPRequest) : M MCPResponse :=
  (* Execute tool call using FastMCP client *)
  result ← _execute_tool client request;
  server_name ← lift (Py.get server_config "name" PNone);
  now ← utcnow;
  mret (mkMCPResponse true (Some result) None
          [("server_id", PStr server_id);
           ("server_name", server_name);
           ("execution_time", PStr (env_isoformat env now))]).

(** The block that [call_tool] runs while it holds the connection. *)
Definition invoke_and_wrap (server_id : string) (server_config : pyval)
    (client : Client) (request : MCPRequest) : M MCPResponse :=
  (* Ensure client is connected *)
  connected ← is_connected client;
  (if connected : bool then mret tt else aenter client);;
  execute_and_wrap server_id server_config client request.

Definition call_tool (user_id server_id : string) (request : MCPRequest)
  : M MCPResponse :=
  try_except (
    (* Get server configuration *)
    server_config ← _get_server_config server_id;
    if negb (Py.truthy server_config)
    then mret (mkMCPResponse false None
                 (Some ("Server " +:+ server_id +:+ " not found")) [])
    else
    (* Check if user has access to this server *)
    access ← _user_has_access user_id server_id;
    if negb access
    then mret (mkMCPResponse false None
                 (Some ("User " +:+ user_id +:+ " does not have access to server "
                        +:+ server_id)) [])
    else
    (* Get connection from pool *)
    url ← lift (Py.getitem server_config "url");
    config ← lift (Py.get server_config "config" (PDict []));
    client ← get_connection server_id url config;
    try_finally
      (invoke_and_wrap server_id server_config client request)
      (* Always release connection back to pool *)
      (release_connection server_id client))
    (fun e => mret (mkMCPResponse false None (Some (str_exn e))
                      [("server_id", PStr server_id)])).

(** A computation run to its end: its value or its exception is kept as
    its result. *)
Definition settle {A} (task : M A) : M (result A) := fun w =>
  let '(r, w') := task w in (Ok r, w').

(** *** [call_tool] as the event loop runs it

    [call_tool] above is the call with nothing else running. Among other
    tasks it runs from one suspension to the next. The awaits that can
    suspend it are the request to the registry in [_get_server_config]
    (until the answer is there, and again when the [httpx] client is closed
    on the way out of the [async with]), [client.__aenter__()] and
    [client.call_tool(...)]. The lock of the pool is never held across one
    of these, so taking it suspends nobody. *)

(** From the answer of [client.call_tool(...)] to the end. *)
Definition call_tool_invoking (server_id : string) (server_config : pyval)
    (client : Client) (request : MCPRequest) : Task MCPResponse :=
  segment (
    response ←
      try_except
        (try_finally
           (execute_and_wrap server_id server_config client request)
           (* Always release connection back to pool *)
           (release_connection server_id client))
        (fun e => mret (mkMCPResponse false None (Some (str_exn e))
                          [("server_id", PStr server_id)]));
    mret (Done (Ok response))).

(** From the end of [client.__aenter__()] to the call of the tool; when
    connecting raised, through the [finally] and the [except] to the end. *)
Definition call_tool_connecting (server_id : string) (server_config : pyval)
    (client : Client) (request : MCPRequest) : Task MCPResponse :=
  segment (
    entered ← settle (aenter client);
    match entered with
    | Ok _ => mret (call_tool_invoking server_id server_config client request)
    | Raise e =>
        release_connection server_id client;;
        mret (Done (Ok (mkMCPResponse false None (Some (str_exn e))
                          [("server_id", PStr server_id)])))
    end).

(** From the descriptor to the first await with the connection in hand. *)
Definition call_tool_with_config (user_id server_id : string) (request : MCPRequest)
    (server_config : pyval) : M (Task MCPResponse) :=
  try_except (
    if negb (Py.truthy server_config)
    then mret (Done (Ok (mkMCPResponse false None
                           (Some ("Server " +:+ server_id +:+ " not found")) [])))
    else
    (* Check if user has access to this server *)
    access ← _user_has_access user_id server_id;
    if negb access
    then mret (Done (Ok (mkMCPResponse false None
                 (Some ("User " +:+ user_id +:+ " does not have access to server "
                        +:+ server_id)) [])))
    else
    (* Get connection from pool *)
    url ← lift (Py.getitem server_config "url");
    config ← lift (Py.get server_config "config" (PDict []));
    client ← get_connection server_id url config;
    (* Ensure client is connected *)
    connected ← is_connected client;
    if connected : bool
    then mret (call_tool_invoking server_id server_config client request)
    else mret (call_tool_connecting server_id server_config client request))
    (fun e => mret (Done (Ok (mkMCPResponse false None (Some (str_exn e))
                                [("server_id", PStr server_id)])))).

(** After the [httpx] client of [_get_server_config] is closed. *)
Definition call_tool_fetched (user_id server_id : string) (request : MCPRequest)
    (fetched : result pyval) : Task MCPResponse :=
  segment (
    match fetched with
    | Ok server_config => call_tool_with_config user_id server_id request server_config
    | Raise e =>
        mret (Done (Ok (mkMCPResponse false None (Some (str_exn e))
                          [("server_id", PStr server_id)])))
    end).

(** When the registry answers. *)
Definition call_tool_fetching (user_id server_id : string) (request : MCPRequest)
  : Task MCPResponse :=
  segment (
    fetched ← settle (fetch_server_config server_id);
    mret (call_tool_fetched user_id server_id request fetched)).

(** The coroutine [self.call_tool(user_id, server_id, request)]. *)
Definition call_tool_task (user_id server_id : string) (request : MCPRequest)
  : Task MCPResponse :=
  segment (
    m ← get_manager;
    (* Check cache *)
    match _server_cache m !! server_id with
    | Some cached =>
        now ← utcnow;
        if now - _last_cache_update m <? _cache_ttl m
        then call_tool_with_config user_id server_id request cached
        else mret (call_tool_fetching user_id server_id request)
    | None => mret (call_tool_fetching user_id server_id request)
    end).

(** [asyncio.gather] with [return_exceptions=True]: the event loop
    resumes the tasks one at a time, in an order that the outside decides
    ([env_schedule], by position in the list) and until all have ended;
    tasks that this order leaves unfinished are run to their end in the
    order of the list. The value or the exception of a task is its result,
    and the results are in the order of the tasks. *)
Definition gather_return_exceptions {A} (tasks : list (Task A)) : M (list (result A)) :=
  fun w =>
    let '(tasks', w1) := run_schedule (env_schedule env (ticks w)) tasks w in
    let '(results, w2) := complete_all tasks' w1 in
    (Ok results, w2).

(** Convert exceptions to error responses; an [exn] is an instance of
    [Exception]. *)
Definition to_response (r : result MCPResponse) : MCPResponse :=
  match r with
  | Raise e => mkMCPResponse false None (Some (str_exn e)) []
  | Ok resp => resp
  end.

(** The part of [batch_call_tools] after the tasks are made. *)
Definition batch_of_tasks (tasks : list (Task MCPResponse)) : M (list MCPResponse) :=
  results ← gather_return_exceptions tasks;
  mret (map to_response results).

(** The loop that makes the tasks reads [req["server_id"]] and builds an
    [MCPRequest] from [req["request"]] for every element before any call
    starts, so a KeyError or a ValidationError there ends the batch with no
    call made. The requests here are the pairs that this loop has built. *)
Definition batch_call_tools (user_id : string) (requests : list (string * MCPRequest))
  : M (list MCPResponse) :=
  let tasks := map (fun req => call_tool_task user_id (fst req) (snd req)) requests in
  batch_of_tasks tasks.

Definition close : M unit := close_all_connections None.

End Program.

(** [MCPConnectionPool(max_connections_per_server, connection_timeout)] *)
Definition new_pool (max_connections_per_server connection_timeout : Z)
  : MCPConnectionPool :=
  mkPool max_connections_per_server connection_timeout ∅ ∅ ∅ ∅.

(** [MCPClientManager(registry_url)]: a pool with the default sizes, an
    empty cache, five minutes of TTL, last update at [datetime.min]. *)
Definition new_manager (registry_url : string) : MCPClientManager :=
  mkManager registry_url (new_pool 5 30) ∅ (5 * 60 * 1000000) 0 ∅.

Definition new_world (m : MCPClientManager) : World := mkWorld 0 [] m [].

(** ** What the properties are stated with *)

(** The idle list and the active set of a provider, as the pool sees them:
    a key that was never touched reads as empty. *)
Definition idle_of (w : World) (server_id : string) : list Client :=
  default [] (_pools (pool w) !! server_id).

Definition active_of (w : World) (server_id : string) : gset Client :=
  default ∅ (_active_connections (pool w) !! server_id).

(** The object [_create_connection] makes out of its arguments. *)
Definition create_outcome (env : Env) (t : nat) (server_url config : pyval)
  : result ClientObj :=
  has_auth ← Py.contains "auth" config;
  auth ← (if has_auth : bool then Py.getitem config "auth" else Ok PNone);
  let auth := if Py.truthy auth then Some auth else None in
  _ ← env_Client env t server_url auth;
  Ok (mkClientObj server_url auth).

(** The world with the maps of the pool, the heap and the history replaced. *)
Definition set_pool_maps (ps : gmap string (list Client))
    (acts : gmap string (gset Client)) (cfgs : gmap string (pyval * pyval))
    (h : list ClientObj) (hist : list pool_event) (w : World) : World :=
  mkWorld (ticks w) h
    (mkManager (registry_url (manager w))
       (mkPool (max_connections_per_server (pool w)) (connection_timeout (pool w))
          ps acts cfgs (_last_health_check (pool w)))
       (_server_cache (manager w)) (_cache_ttl (manager w))
       (_last_cache_update (manager w)) (_user_servers (manager w)))
    hist.

(** Idle list and active set of every provider are disjoint, and no idle
    list holds a connection twice. *)
Definition pool_inv (w : World) : Prop :=
  ∀ sid, NoDup (idle_of w sid) ∧ ∀ c, c ∈ idle_of w sid → c ∉ active_of w sid.

(** Every connection the pool knows is an object of the heap. *)
Definition heap_inv (w : World) : Prop :=
  ∀ sid c, c ∈ idle_of w sid ∨ c ∈ active_of w sid → (c < length (heap w))%nat.

(** Idle and active connections of a provider together stay within the
    configured maximum. *)
Definition bound_inv (w : World) : Prop :=
  ∀ sid, Z.of_nat (length (idle_of w sid) + size (active_of w sid))
         ≤ Z.max 0 (max_connections_per_server (pool w)).

(** A pool that allows [N] connections per provider and is in order. *)
Definition pool_wf (N : Z) (w : World) : Prop :=
  max_connections_per_server (pool w) = N ∧ pool_inv w ∧ heap_inv w ∧ bound_inv w.

(** [w'] differs from [w] in nothing the pool keeps, makes or is asked. *)
Definition quiet (w w' : World) : Prop :=
  pool w' = pool w ∧ heap w' = heap w ∧ history w' = history w.

(** The response [call_tool] makes of an exception. *)
Definition error_response (server_id : string) (e : exn) : MCPResponse :=
  mkMCPResponse false None (Some (str_exn e)) [("server_id", PStr server_id)].

(** What [_execute_tool] takes out of the result of [client.call_tool]. *)
Definition raw_result (r : tool_result) : pyval :=
  match tr_content r, tr_text r with
  | Some content, _ => content
  | None, Some text => text
  | None, None => tr_self r
  end.

(** The exception of a pool that has no connection to give. *)
Definition exhausted (server_id : string) : exn :=
  Exn "Exception" ("Connection pool exhausted for server " +:+ server_id).

(** What an entry of a user's list says about a provider; the registry sends
    dicts with a "server_id" and an "enabled". *)
Definition enables (server_id : string) (entry : pyval) : bool :=
  match Py.getitem entry "server_id", Py.get entry "enabled" (PBool false) with
  | Ok sid, Ok enabled => Py.is_str server_id sid && Py.truthy enabled
  | _, _ => false
  end.

Definition is_entry (entry : pyval) : Prop :=
  ∃ d, entry = PDict d ∧ is_Some (Py.assoc "server_id" d).

(** No list was loaded for the user, or the loaded list has no entry that
    enables the provider. *)
Definition not_enabled (m : MCPClientManager) (user_id server_id : string) : Prop :=
  match _user_servers m !! user_id with
  | None => True
  | Some (PList l) => Forall (λ s, is_entry s ∧ enables server_id s = false) l
  | Some _ => False
  end.

Definition access_denied (user_id server_id : string) : MCPResponse :=
  mkMCPResponse false None
    (Some ("User " +:+ user_id +:+ " does not have access to server " +:+ server_id)) [].

(** The world after a computation, whatever it returned or raised. *)
Definition after {A} (m : M A) (w : World) : World := snd (m w).

(** The calls a user of the two classes can make. *)
Inductive op : Type :=
| OpGetConnection (server_id : string) (server_url config : pyval)
| OpReleaseConnection (server_id : string) (client : Client)
| OpCloseAll (server_id : option string)
| OpHealthCheck (server_id : string)
| OpInitializeUserServers (user_id : string)
| OpGetServerConfig (server_id : string)
| OpCallTool (user_id server_id : string) (request : MCPRequest)
| OpBatchCallTools (user_id : string) (requests : list (string * MCPRequest)).

Definition run_op (env : Env) (o : op) (w : World) : World :=
  match o with
  | OpGetConnection sid url config => after (get_connection env sid url config) w
  | OpReleaseConnection sid c => after (release_connection sid c) w
  | OpCloseAll sid => after (close_all_connections sid) w
  | OpHealthCheck sid => after (health_check env sid) w
  | OpInitializeUserServers uid => after (initialize_user_servers env uid) w
  | OpGetServerConfig sid => after (_get_server_config env sid) w
  | OpCallTool uid sid req => after (call_tool env uid sid req) w
  | OpBatchCallTools uid reqs => after (batch_call_tools env uid reqs) w
  end.

(** The worlds that calls can lead to from a manager whose pool is new and
    allows [N] connections per provider; the outside may answer differently
    at every call. *)
Inductive reachable (N : Z) : World → Prop :=
| reach_new m t :
    connection_pool m = new_pool N t → reachable N (new_world m)
| reach_op env o w :
    reachable N w → reachable N (run_op env o w).

(** Every stretch of the task, from one suspension to the next, keeps [P]. *)
Fixpoint keeps {A} (P : World → Prop) (t : Task A) : Prop :=
  match t with
  | Done _ => True
  | Await k eff => ∀ w, P w → P (eff w) ∧ keeps P (k w)
  end.

(** [P] survives what changes nothing of the pool, and every taking and
    giving back of a connection. *)
Definition pool_closed (P : World → Prop) : Prop :=
  (∀ w w', quiet w w' → P w → P w')
  ∧ (∀ env sid url config w, P w → P (after (get_connection env sid url config) w))
  ∧ (∀ sid c w, P w → P (after (release_connection sid c) w)).




(** What a stretch of a task does to the active sets, from the connection
    [h] that the task held before it to the connection [h'] that it holds
    after it. *)
Definition moves (h h' : option (string * Client)) (w w' : World) : Prop :=
  match h, h' with
  | None, None => ∀ s, active_of w' s = active_of w s
  | None, Some (sid, c) =>
      (c ∉ active_of w sid)
      ∧ ∀ s, active_of w' s
             = if decide (s = sid) then active_of w s ∪ {[c]} else active_of w s
  | Some (sid, c), None =>
      ∀ s, active_of w' s
           = if decide (s = sid) then active_of w s ∖ {[c]} else active_of w s
  | Some x, Some y => x = y ∧ ∀ s, active_of w' s = active_of w s
  end.

(** The task holds the connection [h], or none: resumed in a pool that is
    in order and has that connection active, it leaves the pool in order,
    keeps its connection or gives it back, takes one only when it held
    none, and holds none when it has ended. *)
Fixpoint protocol (N : Z) (h : option (string * Client)) {A} (t : Task A) : Prop :=
  match t with
  | Done _ => h = None
  | Await k eff =>
      ∀ w, pool_wf N w → (∀ sid c, h = Some (sid, c) → c ∈ active_of w sid) →
           pool_wf N (eff w) ∧ ∃ h', moves h h' w (eff w) ∧ protocol N h' (k w)
  end.

(** The connections that the tasks of a list hold for the provider [s]. *)
Definition held (hs : list (option (string * Client))) (s : string) : list Client :=
  omap (λ h, match h with
             | Some (s', c) => if decide (s' = s) then Some c else None
             | None => None
             end) hs.

(** The pool is in order and its active sets are those of [base] and the
    connections that the tasks hold, each held by one task. *)
Definition accounted (N : Z) (base : string → gset Client)
    (hs : list (option (string * Client))) (w : World) : Prop :=
  pool_wf N w
  ∧ ∀ s, NoDup (held hs s) ∧ (∀ c, c ∈ held hs s → c ∉ base s)
         ∧ active_of w s = base s ∪ list_to_set (held hs s).

(** ** Sample worlds *)

Definition minute : Z := 60 * 1000000.

(** An instant of the year 2025, in microseconds since [datetime.min]. *)
Definition epoch : Z := 63900000000 * 1000000.

Definition weather : pyval :=
  PDict [("name", PStr "Weather MCP Server");
         ("url", PStr "http://localhost:8001/sse");
         ("config", PDict [])].

Definition weather_moved : pyval :=
  PDict [("name", PStr "Weather MCP Server");
         ("url", PStr "http://localhost:9001/sse");
         ("config", PDict [])].

Definition news : pyval :=
  PDict [("name", PStr "News MCP Server");
         ("url", PStr "http://localhost:8002/sse");
         ("config", PDict [])].

Definition user_list : pyval :=
  PList [PDict [("server_id", PStr "weather-1"); ("enabled", PBool true)]].

Definition sample_request : MCPRequest :=
  mkRequest "get_current_weather" (PDict [("city", PStr "New York")]) (Some 30).

Definition ok_response (body : pyval) : response := mkResponse 200 (Ok body) 1500.

Definition sunny : tool_result := mkToolResult (Some (PStr "sunny")) None PNone.

(** A registry that knows the weather server only, and the user's list;
    the provider answers its health probe with 204. *)
Definition registry_up (t : nat) (r : request) : result response :=
  match r with
  | GetServer _ sid =>
      if String.eqb sid "weather-1"
      then Ok (ok_response weather)
      else Ok (mkResponse 404 (Ok (PDict [("detail", PStr "Server not found")])) 1500)
  | GetUserServers _ _ _ => Ok (ok_response user_list)
  | GetHealth _ _ => Ok (mkResponse 204 (Raise (Exn "JSONDecodeError" "Expecting value")) 1500)
  end.

(** A registry that answers the first request and is out of service after. *)
Definition registry_outage (t : nat) (r : request) : result response :=
  match t with
  | O => Ok (ok_response weather)
  | S _ => Ok (mkResponse 503 (Raise (Exn "JSONDecodeError" "Expecting value")) 1500)
  end.

(** A registry in which the weather server moves after the first request. *)
Definition registry_moving (t : nat) (r : request) : result response :=
  match r with
  | GetServer _ sid =>
      if String.eqb sid "weather-1"
      then match t with O => Ok (ok_response weather) | S _ => Ok (ok_response weather_moved) end
      else Ok (ok_response news)
  | _ => Ok (ok_response user_list)
  end.

(** A client can be made for an http or https address, for nothing else. *)
Definition sample_Client (t : nat) (url : pyval) (auth : option pyval) : result unit :=
  match url with
  | PStr s =>
      if orb (String.prefix "http://" s) (String.prefix "https://" s)
      then Ok tt
      else Raise (Exn "ValueError" ("Could not infer a valid transport from: " +:+ s))
  | _ => Raise (Exn "ValueError" "Could not infer a valid transport")
  end.

(** The event loop resumes the tasks of a gather in turn: every await is
    over when its task is next (up to three tasks). *)
Definition round_robin : list nat :=
  [0; 1; 2; 0; 1; 2; 0; 1; 2; 0; 1; 2; 0; 1; 2]%nat.

(** An outside whose clock advances by [step] at every interaction, whose
    clients are not connected yet, and whose event loop resumes the tasks
    of a gather in turn. *)
Definition sample_env (step : Z) (http : nat → request → result response)
    (connect : result unit) (tool : result tool_result) : Env :=
  mkEnv (λ t, epoch + Z.of_nat t * step) (λ _, "2025-01-01T00:00:00") http
    (λ _ _, false) (λ _ _, connect) (λ _ _ _ _, tool) sample_Client (λ _, round_robin).

Definition env_fine : Env := sample_env minute registry_up (Ok tt) (Ok sunny).

Definition env_refused : Env :=
  sample_env minute registry_up
    (Raise (Exn "ConnectError" "All connection attempts failed")) (Ok sunny).

Definition env_tool_fails : Env :=
  sample_env minute registry_up (Ok tt) (Raise (Exn "ToolError" "Unknown tool")).

Definition env_outage : Env :=
  sample_env (10 * minute) registry_outage (Ok tt) (Ok sunny).

Definition env_moving : Env :=
  sample_env (2 * minute) registry_moving (Ok tt) (Ok sunny).

Definition world_new : World := new_world (new_manager "http://localhost:8000").

(** The user's list is loaded. *)
Definition world_ready : World :=
  run_op env_fine (OpInitializeUserServers "test-user-123") world_new.

(** A pool of two connections per provider, both handed out. *)
Definition world_full : World :=
  let get := OpGetConnection "weather-1" (PStr "http://localhost:8001/sse") (PDict []) in
  run_op env_fine get
    (run_op env_fine get
       (new_world (mkManager "http://localhost:8000" (new_pool 2 30) ∅ (5 * minute) 0 ∅))).

(** The weather server was fetched once, ten minutes before the next
    reading of the clock. *)
Definition world_cached : World :=
  run_op env_outage (OpGetServerConfig "weather-1") world_new.

(** The weather server was fetched, then the news server. *)
Definition world_two_fetches : World :=
  run_op env_moving (OpGetServerConfig "news-2")
    (run_op env_moving (OpGetServerConfig "weather-1") world_new).


(** The user's list is loaded; the pool allows two connections per provider. *)
Definition world_pool2 : World :=
  run_op env_fine (OpInitializeUserServers "test-user-123")
    (new_world (mkManager "http://localhost:8000" (new_pool 2 30) ∅ (5 * minute) 0 ∅)).

Definition three_calls : list (string * MCPRequest) :=
  [("weather-1", sample_request); ("weather-1", sample_request);
   ("weather-1", sample_request)].

(** One more reading of the clock. *)
Definition tick (w : World) : World :=
  mkWorld (S (ticks w)) (heap w) (manager w) (history w).

(** ** What the further properties are stated with *)

(** A provider with an active connection has an entry in [_pools]. *)
Definition keys_inv (w : World) : Prop :=
  ∀ sid, active_of w sid ≠ ∅ → is_Some (_pools (pool w) !! sid).

(** The values [k in v] raises a TypeError for. *)
Definition not_iterable (v : pyval) : bool :=
  match v with
  | PNone | PBool _ | PInt _ | PFloat _ => true
  | _ => false
  end.

(** The [auth] that [_create_connection] passes to [Client] for a dict. *)
Definition auth_of (d : list (string * pyval)) : option pyval :=
  match Py.assoc "auth" d with
  | Some a => if Py.truthy a then Some a else None
  | None => None
  end.

Definition not_found (server_id : string) : MCPResponse :=
  mkMCPResponse false None (Some ("Server " +:+ server_id +:+ " not found")) [].

(** ** The routes (mcp/mcp_integration_routes.py) *)

(** What a route gives FastAPI to answer with: a value, or an
    [HTTPException]. Every other exception stays an exception. *)
Inductive http (A : Type) : Type :=
| Returned (a : A)
| HTTPException (status_code : Z) (detail : option string).
Arguments Returned {A} a.
Arguments HTTPException {A} status_code detail.

(** A validated [ToolCallRequest]; [tc_server_id] is [str(request.server_id)]. *)
Record ToolCallRequest : Type := mkToolCall {
  tc_server_id : string;
  tc_tool_name : string;
  tc_parameters : pyval;
  tc_timeout : option Z }.

Module Routes.
Section Routes.

Variable env : Env.

(** Ensure user servers are initialized *)
Definition ensure_user_servers (user_id : string) : M unit :=
  m ← get_manager;
  match _user_servers m !! user_id with
  | Some _ => mret tt
  | None => _ ← initialize_user_servers env user_id; mret tt
  end.

Definition call_mcp_tool (user_id : string) (request : ToolCallRequest)
  : M (http MCPResponse) :=
  ensure_user_servers user_id;;
  (* Create MCP request *)
  let mcp_request :=
    mkRequest (tc_tool_name request) (tc_parameters request) (tc_timeout request) in
  (* Execute tool call *)
  response ← call_tool env user_id (tc_server_id request) mcp_request;
  if negb (success response)
  then mret (HTTPException 400 (error response))
  else mret (Returned response).

Definition batch_call_tools (user_id : string) (calls : list ToolCallRequest)
  : M (http (list MCPResponse)) :=
  ensure_user_servers user_id;;
  (* Prepare batch requests *)
  let batch_requests :=
    map (fun call => (tc_server_id call,
                      mkRequest (tc_tool_name call) (tc_parameters call) (tc_timeout call)))
      calls in
  (* Execute batch calls *)
  responses ← batch_call_tools env user_id batch_requests;
  mret (Returned responses).

(** [server_id] is [str(server_id)]; the body holds the UUID itself, which
    is sent as that string. *)
Definition check_server_health (user_id server_id : string)
  : M (http (list (string * pyval))) :=
  (* Check if user has access to this server *)
  access ← _user_has_access user_id server_id;
  if negb access
  then mret (HTTPException 403 (Some "User does not have access to this server"))
  else
    health_status ← health_check env server_id;
    mret (Returned
            [("server_id", PStr server_id);
             ("health_status", PDict health_status);
             ("timestamp", from_option id PNone (Py.assoc "last_check" health_status))]).

End Routes.
End Routes.

Definition to_mcp_request (call : ToolCallRequest) : MCPRequest :=
  mkRequest (tc_tool_name call) (tc_parameters call) (tc_timeout call).

(** ** Tool discovery *)

(** What [discover_tools] reads of a tool object of [client.list_tools()];
    an attribute the object does not have is [None] here. *)
Record Tool : Type := mkTool {
  tl_name : option pyval;
  tl_description : option pyval;
  tl_parameters : option pyval }.

(** A number as a dict key: [True], [1] and [1.0] are one key. *)
Definition key_number (k : pyval) : option Z :=
  match k with
  | PBool b => Some (if b then 1000000 else 0)
  | PInt n => Some (n * 1000000)
  | PFloat micros => Some micros
  | _ => None
  end.

Definition key_eqb (k1 k2 : pyval) : bool :=
  match k1, k2 with
  | PNone, PNone => true
  | PStr s1, PStr s2 => String.eqb s1 s2
  | _, _ =>
      match key_number k1, key_number k2 with
      | Some n1, Some n2 => n1 =? n2
      | _, _ => false
      end
  end.

Definition unhashable (k : pyval) : exn :=
  Exn "TypeError" ("unhashable type: '" +:+ Py.type_name k +:+ "'").

(** [hash(k)], for what it raises. *)
Definition hash_key (k : pyval) : result unit :=
  match k with
  | PList _ | PDict _ => Raise (unhashable k)
  | _ => Ok tt
  end.

(** The items of a dict after [d[k] = v]: a key that is there keeps its
    place, a new one goes to the end. *)
Fixpoint dict_store {V} (k : pyval) (v : V) (d : list (pyval * V)) : list (pyval * V) :=
  match d with
  | [] => [(k, v)]
  | (k', v') :: d' =>
      if key_eqb k' k then (k', v) :: d' else (k', v') :: dict_store k v d'
  end.

Definition dict_setitem {V} (d : list (pyval * V)) (k : pyval) (v : V)
  : result (list (pyval * V)) :=
  _ ← hash_key k; Ok (dict_store k v d).

(** Convert tool objects to dictionaries *)
Definition tool_dict (tool : Tool) : result pyval :=
  match tl_name tool with
  | Some name =>
      let d := [("name", name);
                ("description", default (PStr EmptyString) (tl_description tool))] in
      Ok (PDict match tl_parameters tool with
                | Some p => d ++ [("parameters", p)]
                | None => d
                end)
  | None => Raise (Exn "AttributeError" "'Tool' object has no attribute 'name'")
  end.

Fixpoint tool_dicts (tools : list Tool) : result (list pyval) :=
  match tools with
  | [] => Ok []
  | tool :: tools' =>
      d ← tool_dict tool;
      ds ← tool_dicts tools';
      Ok (d :: ds)
  end.

Section Discovery.

Variable env : Env.

(** [client.list_tools()], as a function of the interactions before it. *)
Variable env_list_tools : nat → Client → result (list Tool).

(** The cache and the pool have [str] keys, as the annotations of the
    source say; what an iteration does with a "server_id" that is [None] or
    a number is left open. *)
Variable other_server_id :
  pyval → list (pyval * list pyval) → M (list (pyval * list pyval)).

Definition list_tools (c : Client) : M (list Tool) :=
  outside (fun t => env_list_tools t c).

(** The block that [discover_tools] runs while it holds the connection. *)
Definition list_and_record (server_details : pyval) (client : Client)
    (tools_by_server : list (pyval * list pyval)) : M (list (pyval * list pyval)) :=
  (* Ensure client is connected *)
  connected ← is_connected env client;
  (if connected : bool then mret tt else aenter env client);;
  (* List tools from the actual MCP server *)
  tools ← list_tools client;
  tool_dicts ← lift (tool_dicts tools);
  name ← lift (Py.getitem server_details "name");
  lift (dict_setitem tools_by_server name tool_dicts).

(** The outer [try] block. *)
Definition discover_from (server_id : string) (server_details : pyval)
    (tools_by_server : list (pyval * list pyval)) : M (list (pyval * list pyval)) :=
  (* Get a client connection to the server *)
  url ← lift (Py.getitem server_details "url");
  config ← lift (Py.get server_details "config" (PDict []));
  client ← get_connection env server_id url config;
  try_finally
    (list_and_record server_details client tools_by_server)
    (* Release connection back to pool *)
    (release_connection server_id client).

(** The body of the loop; what it prints is not kept. The dict is only
    stored into by the last statement of the [try] block, so the handler
    finds it as it was before the block. *)
Definition discover_server (tools_by_server : list (pyval * list pyval))
    (server_config : pyval) : M (list (pyval * list pyval)) :=
  enabled ← lift (Py.get server_config "enabled" (PBool false));
  if negb (Py.truthy enabled) then mret tools_by_server else
  server_id ← lift (Py.getitem server_config "server_id");
  match server_id with
  | PStr sid =>
      server_details ← _get_server_config env sid;
      if Py.truthy server_details
      then
        try_except
          (discover_from sid server_details tools_by_server)
          (fun e =>
             (* Log error but continue with other servers *)
             name ← lift (Py.getitem server_details "name");
             lift (dict_setitem tools_by_server name []))
      else mret tools_by_server
  | PList _ | PDict _ =>
      (* server_id in self._server_cache *)
      raise (unhashable server_id)
  | _ => other_server_id server_id tools_by_server
  end.

Fixpoint discover_loop (user_servers : list pyval)
    (tools_by_server : list (pyval * list pyval)) : M (list (pyval * list pyval)) :=
  match user_servers with
  | [] => mret tools_by_server
  | server_config :: rest =>
      tools_by_server ← discover_server tools_by_server server_config;
      discover_loop rest tools_by_server
  end.

Definition discover_tools (user_id : string) : M (list (pyval * list pyval)) :=
  m ← get_manager;
  let user_servers := default (PList []) (_user_servers m !! user_id) in
  items ← lift (Py.iter user_servers);
  discover_loop items [].

End Discovery.

(** An entry whose "server_id" is [None] or a number. *)
Definition untyped_id (entry : pyval) : bool :=
  match Py.getitem entry "server_id" with
  | Ok (PNone | PBool _ | PInt _ | PFloat _) => true
  | _ => false
  end.

(** An entry that [discover_tools] skips: a dict whose "enabled" is missing
    or falsy. *)
Definition disabled (entry : pyval) : bool :=
  match Py.get entry "enabled" (PBool false) with
  | Ok enabled => negb (Py.truthy enabled)
  | Raise _ => false
  end.

(** An enabled entry of the provider [sid]. *)
Definition enabled_entry (sid : string) (entry : pyval) : Prop :=
  ∃ d enabled, entry = PDict d ∧ Py.assoc "enabled" d = Some enabled
               ∧ Py.truthy enabled = true ∧ Py.assoc "server_id" d = Some (PStr sid).

(** The dict [d] describes the tool: its name, its description (the empty
    string for a tool without one) and its parameters, if it has any. *)
Definition describes (tool : Tool) (d : pyval) : Prop :=
  ∃ items, d = PDict items
           ∧ Py.assoc "name" items = tl_name tool
           ∧ Py.assoc "description" items
             = Some (default (PStr EmptyString) (tl_description tool))
           ∧ Py.assoc "parameters" items = tl_parameters tool.

(** The pool is in order and every active set is what it is in [w]. *)
Definition restored (N : Z) (w w' : World) : Prop :=
  pool_wf N w' ∧ ∀ s, active_of w' s = active_of w s.

(** ** More sample worlds *)

(** The registry names its servers by UUIDs. *)
Definition weather_id : string := "0b6f3c3e-8a51-4d0e-9f52-6a1d2c7e4b90".

Definition uuid_list : pyval :=
  PList [PDict [("server_id", PStr weather_id); ("enabled", PBool true)]].

Definition registry_uuid (t : nat) (r : request) : result response :=
  match r with
  | GetServer _ sid =>
      if String.eqb sid weather_id
      then Ok (ok_response weather)
      else Ok (mkResponse 404 (Ok (PDict [("detail", PStr "Server not found")])) 1500)
  | GetUserServers _ _ _ => Ok (ok_response uuid_list)
  | GetHealth _ _ => Ok (mkResponse 204 (Raise (Exn "JSONDecodeError" "Expecting value")) 1500)
  end.

(** The provider refuses the tool. *)
Definition env_uuid : Env :=
  sample_env minute registry_uuid (Ok tt) (Raise (Exn "ToolError" "Unknown tool")).

(** The user's list is loaded from that registry. *)
Definition world_uuid : World :=
  run_op env_uuid (OpInitializeUserServers "test-user-123") world_new.

Definition sample_call : ToolCallRequest :=
  mkToolCall weather_id "get_current_weather" (PDict [("city", PStr "New York")]) (Some 30).

Definition weather_without_name : pyval :=
  PDict [("url", PStr "http://localhost:8001/sse"); ("config", PDict [])].

(** A registry whose descriptors lack the name. *)
Definition registry_no_name (t : nat) (r : request) : result response :=
  match r with
  | GetServer _ _ => Ok (ok_response weather_without_name)
  | _ => Ok (ok_response user_list)
  end.

Definition env_no_name : Env := sample_env minute registry_no_name (Ok tt) (Ok sunny).

(** A list whose entries are switched off, the second by saying nothing. *)
Definition disabled_list : pyval :=
  PList [PDict [("server_id", PStr "weather-1"); ("enabled", PBool false)];
         PDict [("server_id", PStr "news-2")]].

Definition env_disabled : Env :=
  sample_env minute (λ _ _, Ok (ok_response disabled_list)) (Ok tt) (Ok sunny).

Definition world_disabled : World :=
  run_op env_disabled (OpInitializeUserServers "test-user-123") world_new.

(** A provider with two tools, the second without a description. *)
Definition sample_tools (t : nat) (c : Client) : result (list Tool) :=
  Ok [mkTool (Some (PStr "get_current_weather")) (Some (PStr "Weather of a city")) None;
      mkTool (Some (PStr "get_alerts")) None (Some (PDict [("region", PStr "str")]))].

Definition no_other_id (server_id : pyval) (tools_by_server : list (pyval * list pyval))
  : M (list (pyval * list pyval)) :=
  mret tools_by_server.

Definition weather_without_url : pyval := PDict [("name", PStr "Weather MCP Server")].

(** A registry whose descriptors lack the address. *)
Definition registry_no_url (t : nat) (r : request) : result response :=
  match r with
  | GetServer _ _ => Ok (ok_response weather_without_url)
  | _ => Ok (ok_response user_list)
  end.

Definition env_no_url : Env := sample_env minute registry_no_url (Ok tt) (Ok sunny).

(** The user's list is loaded and both connections of a pool of two are
    handed out. *)
Definition world_busy : World :=
  let get := OpGetConnection "weather-1" (PStr "http://localhost:8001/sse") (PDict []) in
  run_op env_fine get
    (run_op env_fine get
       (run_op env_fine (OpInitializeUserServers "test-user-123")
          (new_world (mkManager "http://localhost:8000" (new_pool 2 30) ∅ (5 * minute) 0 ∅)))).

(** * Properties *)

Ltac unfold_M :=
  unfold mbind, mret, M_bind, M_ret, result_bind, result_ret, raise, lift,
    try_except, try_finally, with_lock, traced, get_pool, set_pool, get_manager,
    set_manager, outside, new_Client, with_pool, with_manager in *.

(** ** The pool's methods in closed form *)

Lemma pop_snoc l c : pop (l ++ [c]) = Some (c, l).
Proof. unfold pop. by rewrite last_snoc, removelast_last. Qed.

Lemma pop_Some l c r : pop l = Some (c, r) → l = r ++ [c].
Proof. destruct l as [|x l] using rev_ind; [done|]. rewrite pop_snoc. congruence. Qed.

Lemma pop_None l : pop l = None → l = [].
Proof. destruct l as [|x l] using rev_ind; [done|]. by rewrite pop_snoc. Qed.

Lemma create_connection_eq env sid url config w :
  _create_connection env sid url config w =
  match create_outcome env (ticks w) url config with
  | Ok o => (Ok (length (heap w)),
             mkWorld (ticks w) (heap w ++ [o]) (manager w) (history w))
  | Raise e => (Raise e, w)
  end.
Proof.
  unfold _create_connection, create_outcome. unfold_M.
  destruct (Py.contains "auth" config) as [[]|]; cbn; try done.
  - destruct (Py.getitem config "auth") as [a|]; cbn; try done.
    destruct (Py.truthy a); by destruct (env_Client env (ticks w) url _).
  - by destruct (env_Client env (ticks w) url None).
Qed.

(** The client that is asked for when the config is a dict. *)
Lemma create_outcome_dict env t url d :
  create_outcome env t url (PDict d) =
  match env_Client env t url (auth_of d) with
  | Ok _ => Ok (mkClientObj url (auth_of d))
  | Raise e => Raise e
  end.
Proof.
  unfold create_outcome, auth_of; cbn. case_bool_decide as H; cbn.
  - destruct H as [x ->]; cbn. by destruct (env_Client env t url _) as [[]|].
  - destruct (Py.assoc "auth" d) eqn:Ha; [exfalso; apply H; eauto|].
    by destruct (env_Client env t url None) as [[]|].
Qed.

Lemma get_connection_eq env sid url config w :
  get_connection env sid url config w =
  let p := pool w in
  let cfgs := <[sid := (url, config)]> (_server_configs p) in
  let none := history w ++ [EvGet sid None] in
  match pop (idle_of w sid) with
  | Some (c, rest) =>
      (Ok c, set_pool_maps (<[sid := rest]> (_pools p))
               (<[sid := active_of w sid ∪ {[c]}]> (_active_connections p))
               cfgs (heap w) (history w ++ [EvGet sid (Some c)]) w)
  | None =>
      let ps := <[sid := []]> (_pools p) in
      let acts := <[sid := active_of w sid]> (_active_connections p) in
      if Z.of_nat (size (active_of w sid)) <? max_connections_per_server p
      then
        match create_outcome env (ticks w) url config with
        | Ok o =>
            let c := length (heap w) in
            (Ok c, set_pool_maps ps
                     (<[sid := active_of w sid ∪ {[c]}]> (_active_connections p))
                     cfgs (heap w ++ [o]) (history w ++ [EvGet sid (Some c)]) w)
        | Raise e => (Raise e, set_pool_maps ps acts cfgs (heap w) none w)
        end
      else
        (Raise (Exn "Exception" ("Connection pool exhausted for server " +:+ sid)),
         set_pool_maps ps acts cfgs (heap w) none w)
  end.
Proof.
  unfold get_connection, idle_of, active_of, set_pool_maps, pool.
  unfold pools_getitem, pools_setitem, active_getitem, active_setitem,
    server_configs_setitem.
  unfold_M. cbn -[_create_connection].
  destruct w as [t h [ru [mx to ps acts cfgs lhc] sc ttl lcu us] hist];
    cbn -[_create_connection].
  destruct (ps !! sid) as [idle|] eqn:Hp; cbn -[_create_connection];
    [destruct (pop idle) as [[c rest]|] eqn:Hpop; cbn -[_create_connection];
       [|apply pop_None in Hpop; subst idle]|];
    destruct (acts !! sid) as [a|] eqn:Ha; cbn -[_create_connection];
    try (destruct (Z.of_nat (size _) <? mx); cbn -[_create_connection];
         [rewrite create_connection_eq; cbn [ticks];
          destruct (create_outcome env t url config); cbn|]);
    rewrite ?Ha, ?lookup_insert_eq; cbn;
    rewrite ?insert_insert_eq;
    try rewrite (insert_id _ _ _ Hp); try rewrite (insert_id _ _ _ Ha); done.
Qed.

Lemma release_connection_eq sid c w :
  release_connection sid c w =
  let p := pool w in
  let hist := history w ++ [EvRelease sid c] in
  (Ok tt,
   if bool_decide (c ∈ active_of w sid)
   then set_pool_maps (<[sid := idle_of w sid ++ [c]]> (_pools p))
          (<[sid := active_of w sid ∖ {[c]}]> (_active_connections p))
          (_server_configs p) (heap w) hist w
   else set_pool_maps (_pools p)
          (<[sid := active_of w sid]> (_active_connections p))
          (_server_configs p) (heap w) hist w).
Proof.
  unfold release_connection, idle_of, active_of, set_pool_maps, pool.
  unfold pools_getitem, pools_setitem, active_getitem, active_setitem.
  unfold_M. cbn.
  destruct w as [t h [ru [mx to ps acts cfgs lhc] sc ttl lcu us] hist]; cbn.
  destruct (acts !! sid) as [a|] eqn:Ha; cbn.
  - case_bool_decide; cbn; [|by rewrite (insert_id _ _ _ Ha)].
    destruct (ps !! sid) as [idle|] eqn:Hp; cbn; by rewrite ?insert_insert_eq.
  - rewrite bool_decide_eq_false_2 by set_solver. done.
Qed.

Lemma close_server_eq sid w :
  close_server sid w =
  (Ok tt, set_pool_maps (<[sid := []]> (_pools (pool w)))
            (<[sid := ∅]> (_active_connections (pool w)))
            (_server_configs (pool w)) (heap w) (history w) w).
Proof.
  unfold close_server, set_pool_maps, pool.
  unfold pools_getitem, pools_setitem, active_getitem, active_setitem.
  unfold_M. cbn.
  destruct w as [t h [ru [mx to ps acts cfgs lhc] sc ttl lcu us] hist]; cbn.
  destruct (ps !! sid) as [idle|] eqn:Hp; cbn;
    destruct (acts !! sid) as [a|] eqn:Ha; cbn; by rewrite ?insert_insert_eq.
Qed.

(** ** What the manager's steps leave alone *)

Lemma quiet_trans w1 w2 w3 : quiet w1 w2 → quiet w2 w3 → quiet w1 w3.
Proof. unfold quiet. intros (-> & -> & ->) (-> & -> & ->). done. Qed.

Lemma fetch_server_config_quiet env sid w : quiet w (after (fetch_server_config env sid) w).
Proof.
  unfold after, fetch_server_config, utcnow, http_get. unfold_M. cbn.
  repeat case_match; simplify_eq; cbn; done.
Qed.

Lemma get_server_config_quiet env sid w : quiet w (after (_get_server_config env sid) w).
Proof.
  unfold after, _get_server_config, utcnow. unfold_M. cbn.
  destruct (_server_cache (manager w) !! sid); cbn.
  - case_match; cbn; [done|]. 
    eapply quiet_trans; [|apply fetch_server_config_quiet]. done.
  - apply fetch_server_config_quiet.
Qed.

Lemma user_has_access_pure uid sid w : snd (_user_has_access uid sid w) = w.
Proof.
  unfold _user_has_access. unfold_M. cbn. repeat case_match; simplify_eq; done.
Qed.

Lemma invoke_and_wrap_quiet env sid cfg c req w :
  quiet w (after (invoke_and_wrap env sid cfg c req) w).
Proof.
  unfold after, invoke_and_wrap, execute_and_wrap, _execute_tool, is_connected, aenter, client_call_tool, utcnow.
  unfold_M. cbn. repeat case_match; simplify_eq; cbn; done.
Qed.

Lemma call_tool_cases env uid sid req w r w' :
  call_tool env uid sid req w = (r, w') →
  ∃ resp, r = Ok resp ∧
    ((quiet w w' ∧ success resp = false ∧ result_ resp = None ∧ is_Some (error resp) ∧
      (metadata resp = [] ∨ metadata resp = [("server_id", PStr sid)]))
     ∨ (∃ w1 url config e,
          quiet w w1 ∧ get_connection env sid url config w1 = (Raise e, w') ∧
          resp = error_response sid e)
     ∨ (∃ w1 w2 w3 url config descr c rb,
          quiet w w1 ∧ get_connection env sid url config w1 = (Ok c, w2) ∧
          invoke_and_wrap env sid descr c req w2 = (rb, w3) ∧
          release_connection sid c w3 = (Ok tt, w') ∧
          resp = match rb with Ok x => x | Raise e => error_response sid e end)).
Proof.
  unfold call_tool, try_except, error_response.
  pose proof (get_server_config_quiet env sid w) as Hq. unfold after in Hq.
  unfold mbind at 1. unfold M_bind at 1.
  destruct (_get_server_config env sid w) as [[descr|e] w1]; cbn in Hq.
  2:{ intros [= <- <-]. eexists; split; [done|]. left. cbn. eauto 10. }
  destruct (Py.truthy descr); cbn [negb].
  2:{ intros [= <- <-]. eexists; split; [done|]. left. cbn. eauto 10. }
  unfold mbind at 1. unfold M_bind at 1.
  pose proof (user_has_access_pure uid sid w1) as Ha.
  destruct (_user_has_access uid sid w1) as [[acc|e] w1']; cbn in Ha; subst w1'.
  2:{ intros [= <- <-]. eexists; split; [done|]. left. cbn. eauto 10. }
  destruct acc; cbn [negb].
  2:{ intros [= <- <-]. eexists; split; [done|]. left. cbn. eauto 10. }
  unfold mbind at 1. unfold M_bind at 1. unfold lift at 1.
  destruct (Py.getitem descr "url") as [url|e].
  2:{ intros [= <- <-]. eexists; split; [done|]. left. cbn. eauto 10. }
  unfold mbind at 1. unfold M_bind at 1. unfold lift at 1.
  destruct (Py.get descr "config" (PDict [])) as [config|e].
  2:{ intros [= <- <-]. eexists; split; [done|]. left. cbn. eauto 10. }
  unfold mbind at 1. unfold M_bind at 1.
  destruct (get_connection env sid url config w1) as [[c|e] w2] eqn:Hget.
  2:{ intros [= <- <-]. eexists; split; [done|]. right; left. eauto 10. }
  unfold try_finally.
  destruct (invoke_and_wrap env sid descr c req w2) as [rb w3] eqn:Hb.
  rewrite release_connection_eq. cbn zeta.
  intros Heq. cbn in Heq.
  exists (match rb with Ok x => x | Raise e => error_response sid e end). split.
  { destruct rb; cbn in Heq; by injection Heq as <- _. }
  right; right. exists w1, w2, w3, url, config, descr, c, rb.
  rewrite release_connection_eq. cbn zeta.
  split_and!; try done. destruct rb; cbn in Heq; by injection Heq as _ <-.
Qed.

(** ** The pool stays well formed *)

Lemma idle_of_set ps acts cfgs h hist w s :
  idle_of (set_pool_maps ps acts cfgs h hist w) s = default [] (ps !! s).
Proof. done. Qed.

Lemma active_of_set ps acts cfgs h hist w s :
  active_of (set_pool_maps ps acts cfgs h hist w) s = default ∅ (acts !! s).
Proof. done. Qed.

Lemma default_insert {A} (d : A) (m : gmap string A) k v s :
  default d (<[k := v]> m !! s) = if decide (k = s) then v else default d (m !! s).
Proof. rewrite lookup_insert. by case_decide. Qed.

Lemma size_add (X : gset Client) c : (size (X ∪ {[c]}) ≤ S (size X))%nat.
Proof.
  destruct (decide (c ∈ X)) as [Hin|Hout].
  - assert (X ∪ {[c]} = X) as -> by set_solver. lia.
  - rewrite size_union by set_solver. rewrite size_singleton. lia.
Qed.

Lemma size_add_new (X : gset Client) c : c ∉ X → size (X ∪ {[c]}) = S (size X).
Proof. intros. rewrite size_union by set_solver. rewrite size_singleton. lia. Qed.

Lemma size_remove (X : gset Client) c : c ∈ X → S (size (X ∖ {[c]})) = size X.
Proof.
  intros Hin. assert (X = (X ∖ {[c]}) ∪ {[c]}) as Heq.
  { apply set_eq. intros x. rewrite elem_of_union, elem_of_difference, elem_of_singleton.
    destruct (decide (x = c)); naive_solver. }
  rewrite Heq at 2. rewrite size_add_new by set_solver. done.
Qed.

(** Well-formedness looks at the views, the maximum and the size of the
    heap only. *)
Lemma pool_wf_ext N w w' :
  (∀ s, idle_of w' s = idle_of w s) →
  (∀ s, active_of w' s = active_of w s) →
  max_connections_per_server (pool w') = max_connections_per_server (pool w) →
  (length (heap w) ≤ length (heap w'))%nat →
  pool_wf N w → pool_wf N w'.
Proof.
  intros Hi Ha Hm Hh (Hmx & Hinv & Hheap & Hbd).
  split_and!; [by rewrite Hm|..]; intros s.
  - rewrite Hi. split; [apply Hinv|]. intros c. rewrite Ha. apply Hinv.
  - intros c. rewrite Hi, Ha. intros Hc. specialize (Hheap s c Hc). lia.
  - rewrite Hi, Ha, Hm. apply Hbd.
Qed.

Lemma quiet_wf N w w' : quiet w w' → pool_wf N w → pool_wf N w'.
Proof.
  intros (Hp & Hh & _). apply pool_wf_ext; unfold idle_of, active_of; rewrite ?Hp, ?Hh; done.
Qed.

(** Replacing the views of one provider. *)
Lemma pool_wf_set N w sid idle' act' cfgs h hist :
  (length (heap w) ≤ length h)%nat →
  NoDup idle' →
  (∀ c, c ∈ idle' → c ∉ act') →
  (∀ c, c ∈ idle' ∨ c ∈ act' → (c < length h)%nat) →
  Z.of_nat (length idle' + size act') ≤ Z.max 0 (max_connections_per_server (pool w)) →
  pool_wf N w →
  pool_wf N (set_pool_maps (<[sid := idle']> (_pools (pool w)))
             (<[sid := act']> (_active_connections (pool w))) cfgs h hist w).
Proof.
  intros Hh Hnd Hdisj Hlt Hb (Hmx & Hinv & Hheap & Hbd).
  split_and!; [done|..]; intros s;
    rewrite idle_of_set, active_of_set, !default_insert; case_decide; try done.
  - apply Hinv.
  - intros c Hc. specialize (Hheap s c Hc). cbn. lia.
  - apply Hbd.
Qed.

Lemma get_connection_wf env N sid url config w :
  pool_wf N w → pool_wf N (after (get_connection env sid url config) w).
Proof.
  intros Hwf. pose proof Hwf as (Hmx & Hi & Hh & Hbd).
  specialize (Hi sid) as [Hnd Hdisj]. specialize (Hbd sid).
  pose proof (Hh sid) as Hhs.
  unfold after. rewrite get_connection_eq. cbn zeta.
  destruct (pop (idle_of w sid)) as [[c rest]|] eqn:Hpop.
  - apply pop_Some in Hpop. rewrite Hpop in *.
    apply NoDup_app in Hnd as (Hnd & Hnc & _).
    apply pool_wf_set; try done.
    + intros c' Hc'. rewrite elem_of_union, elem_of_singleton.
      intros [Hin| ->]; [eapply (Hdisj c'); set_solver|]. apply (Hnc c); set_solver.
    + intros c' [Hc'|Hc']; apply Hhs; set_solver.
    + rewrite length_app in Hbd. simpl length in Hbd. pose proof (size_add (active_of w sid) c). lia.
  - apply pop_None in Hpop. rewrite Hpop in *.
    destruct (Z.of_nat (size (active_of w sid)) <? max_connections_per_server (pool w)) eqn:Hlt;
      [destruct (create_outcome env (ticks w) url config) as [o|e]|]; cbn [snd];
      apply pool_wf_set; try done; try apply NoDup_nil_2; try set_solver.
    + rewrite length_app. lia.
    + rewrite length_app; cbn. intros c' [Hc'|Hc']; [set_solver|].
      apply elem_of_union in Hc' as [Hc'|Hc'].
      * assert (c' < length (heap w))%nat by (apply Hhs; auto). lia.
      * apply elem_of_singleton in Hc'. lia.
    + apply Z.ltb_lt in Hlt. pose proof (size_add (active_of w sid) (length (heap w))).
      cbn [length]. lia.
Qed.

Lemma release_connection_wf N sid c w :
  pool_wf N w → pool_wf N (after (release_connection sid c) w).
Proof.
  intros Hwf. pose proof Hwf as (Hmx & Hi & Hh & Hbd).
  specialize (Hi sid) as [Hnd Hdisj]. specialize (Hbd sid).
  pose proof (Hh sid) as Hhs.
  unfold after. rewrite release_connection_eq. cbn zeta. cbn [snd].
  case_bool_decide as Hin.
  - apply pool_wf_set; try done.
    + apply NoDup_app. split_and!; [done| |apply NoDup_singleton].
      intros x Hx Hx'. apply list_elem_of_singleton in Hx' as ->. by apply (Hdisj c).
    + intros c' Hc'. apply elem_of_app in Hc' as [Hc'|Hc'].
      * specialize (Hdisj c' Hc'). set_solver.
      * set_solver.
    + intros c' [Hc'|Hc']; apply Hhs; set_solver.
    + rewrite length_app; simpl length. pose proof (size_remove _ _ Hin). lia.
  - revert Hwf. apply pool_wf_ext; try done.
    intros s. rewrite active_of_set, default_insert. by case_decide; subst.
Qed.

Lemma close_server_wf N sid w : pool_wf N w → pool_wf N (after (close_server sid) w).
Proof.
  intros Hwf. unfold after. rewrite close_server_eq. cbn [snd].
  apply pool_wf_set; try done; try apply NoDup_nil_2; try set_solver.
  simpl length. rewrite size_empty. lia.
Qed.

Lemma for_each_close_wf N l w : pool_wf N w → pool_wf N (after (for_each l close_server) w).
Proof.
  revert w. induction l as [|sid l IH]; intros w Hwf; [done|].
  unfold after in *. cbn. unfold mbind, M_bind.
  pose proof (close_server_wf N sid w Hwf) as H1. unfold after in H1.
  rewrite close_server_eq in *. cbn [snd] in H1. by apply IH.
Qed.

Lemma close_all_connections_wf N sid w :
  pool_wf N w → pool_wf N (after (close_all_connections sid) w).
Proof.
  intros Hwf. unfold after, close_all_connections, traced, with_lock.
  unfold mbind, M_bind, get_pool.
  match goal with |- context [for_each ?l close_server w] =>
    pose proof (for_each_close_wf N l w Hwf) as H1; unfold after in H1;
    destruct (for_each l close_server w) as [r w1] end.
  cbn [snd] in *. revert H1. by apply pool_wf_ext.
Qed.

Lemma health_check_views env sid w :
  let w' := after (health_check env sid) w in
  (∀ s, idle_of w' s = idle_of w s) ∧ (∀ s, active_of w' s = active_of w s) ∧
  max_connections_per_server (pool w') = max_connections_per_server (pool w) ∧
  heap w' = heap w ∧ history w' = history w.
Proof.
  unfold after, health_check, last_health_check_setitem, utcnow, http_get.
  unfold_M. cbn. repeat case_match; simplify_eq; cbn; done.
Qed.

Lemma health_check_wf N env sid w : pool_wf N w → pool_wf N (after (health_check env sid) w).
Proof.
  destruct (health_check_views env sid w) as (Hi & Ha & Hm & Hh & _).
  apply pool_wf_ext; try done. by rewrite Hh.
Qed.

Lemma initialize_user_servers_quiet env uid w :
  quiet w (after (initialize_user_servers env uid) w).
Proof.
  unfold after, initialize_user_servers, http_get. unfold_M. cbn.
  repeat case_match; simplify_eq; cbn; done.
Qed.

Lemma call_tool_wf N env uid sid req w :
  pool_wf N w → pool_wf N (after (call_tool env uid sid req) w).
Proof.
  intros Hwf. unfold after.
  destruct (call_tool env uid sid req w) as [r w'] eqn:Hc.
  destruct (call_tool_cases _ _ _ _ _ _ _ Hc) as (resp & -> & Hcases). cbn [snd].
  destruct Hcases as [(Hq & _)|[(w1 & url & config & e & Hq & Hg & _)
    |(w1 & w2 & w3 & url & config & descr & c & rb & Hq & Hg & Hb & Hr & _)]].
  - by eapply quiet_wf.
  - pose proof (get_connection_wf env N sid url config w1 (quiet_wf N _ _ Hq Hwf)) as H.
    unfold after in H. by rewrite Hg in H.
  - pose proof (get_connection_wf env N sid url config w1 (quiet_wf N _ _ Hq Hwf)) as H.
    unfold after in H. rewrite Hg in H. cbn [snd] in H.
    pose proof (invoke_and_wrap_quiet env sid descr c req w2) as Hq2.
    unfold after in Hq2. rewrite Hb in Hq2. cbn [snd] in Hq2.
    pose proof (release_connection_wf N sid c w3 (quiet_wf N _ _ Hq2 H)) as H3.
    unfold after in H3. by rewrite Hr in H3.
Qed.

(** ** The stretches of [call_tool] in closed form *)

Lemma resume_segment {A} (m : M (Task A)) w :
  resume (segment m) w
  = (match (m w).1 with Ok t => t | Raise e => Done (Raise e) end, (m w).2).
Proof. done. Qed.

Lemma resume_segment_Ok {A} (m : M (Task A)) w t w' :
  m w = (Ok t, w') → resume (segment m) w = (t, w').
Proof. intros H. by rewrite resume_segment, H. Qed.

Lemma complete_resume {A} (t : Task A) w :
  complete (resume t w).1 (resume t w).2 = complete t w.
Proof. by destruct t. Qed.

Lemma release_connection_run sid c w :
  release_connection sid c w = (Ok tt, after (release_connection sid c) w).
Proof. unfold after. by rewrite release_connection_eq. Qed.

Lemma call_tool_invoking_resume env sid descr c req w :
  resume (call_tool_invoking env sid descr c req) w =
  (Done (Ok match (execute_and_wrap env sid descr c req w).1 with
            | Ok resp => resp
            | Raise e => error_response sid e
            end),
   after (release_connection sid c) (after (execute_and_wrap env sid descr c req) w)).
Proof.
  unfold call_tool_invoking. apply resume_segment_Ok.
  unfold mbind, M_bind, try_except, try_finally, after, error_response.
  destruct (execute_and_wrap env sid descr c req w) as [[resp|e] w1];
    rewrite release_connection_run; done.
Qed.

Lemma call_tool_connecting_resume env sid descr c req w :
  resume (call_tool_connecting env sid descr c req) w =
  match env_aenter env (ticks w) c with
  | Ok _ => (call_tool_invoking env sid descr c req, tick w)
  | Raise e =>
      (Done (Ok (error_response sid e)), after (release_connection sid c) (tick w))
  end.
Proof.
  unfold call_tool_connecting.
  destruct (env_aenter env (ticks w) c) as [[]|e] eqn:He; apply resume_segment_Ok;
    unfold mbind at 1, M_bind at 1, settle, aenter, outside, tick, error_response;
    rewrite He; [done|].
  unfold mbind, M_bind. rewrite release_connection_run. done.
Qed.

Lemma call_tool_with_config_eq env uid sid req descr w :
  call_tool_with_config env uid sid req descr w =
  if Py.truthy descr
  then match _user_has_access uid sid w with
       | (Raise e, w2) => (Ok (Done (Ok (error_response sid e))), w2)
       | (Ok false, w2) => (Ok (Done (Ok (access_denied uid sid))), w2)
       | (Ok true, w2) =>
           match Py.getitem descr "url" with
           | Raise e => (Ok (Done (Ok (error_response sid e))), w2)
           | Ok url =>
               match Py.get descr "config" (PDict []) with
               | Raise e => (Ok (Done (Ok (error_response sid e))), w2)
               | Ok config =>
                   match get_connection env sid url config w2 with
                   | (Raise e, w3) => (Ok (Done (Ok (error_response sid e))), w3)
                   | (Ok c, w3) =>
                       (Ok (if env_is_connected env (ticks w3) c
                            then call_tool_invoking env sid descr c req
                            else call_tool_connecting env sid descr c req),
                        tick w3)
                   end
               end
           end
       end
  else (Ok (Done (Ok (not_found sid))), w).
Proof.
  unfold call_tool_with_config, try_except, error_response, access_denied, not_found.
  destruct (Py.truthy descr); cbn [negb]; [|done].
  unfold mbind at 1. unfold M_bind at 1.
  destruct (_user_has_access uid sid w) as [[[]|e] w2]; cbn [negb]; try done.
  unfold mbind at 1. unfold M_bind at 1. unfold lift at 1.
  destruct (Py.getitem descr "url") as [url|e]; [|done].
  unfold mbind at 1. unfold M_bind at 1. unfold lift at 1.
  destruct (Py.get descr "config" (PDict [])) as [config|e]; [|done].
  unfold mbind at 1. unfold M_bind at 1.
  destruct (get_connection env sid url config w2) as [[c|e] w3]; [|done].
  unfold is_connected, outside, mbind, M_bind, mret, M_ret, tick.
  by destruct (env_is_connected env (ticks w3) c).
Qed.

Lemma call_tool_fetched_resume env uid sid req fetched w :
  resume (call_tool_fetched env uid sid req fetched) w =
  match fetched with
  | Ok descr =>
      (match (call_tool_with_config env uid sid req descr w).1 with
       | Ok t => t
       | Raise e => Done (Raise e)
       end, (call_tool_with_config env uid sid req descr w).2)
  | Raise e => (Done (Ok (error_response sid e)), w)
  end.
Proof. unfold call_tool_fetched. rewrite resume_segment. by destruct fetched. Qed.

Lemma call_tool_fetching_resume env uid sid req w :
  resume (call_tool_fetching env uid sid req) w =
  (call_tool_fetched env uid sid req (fetch_server_config env sid w).1,
   after (fetch_server_config env sid) w).
Proof.
  unfold call_tool_fetching. apply resume_segment_Ok.
  unfold mbind, M_bind, settle, after.
  by destruct (fetch_server_config env sid w).
Qed.

Lemma call_tool_task_resume env uid sid req w :
  resume (call_tool_task env uid sid req) w =
  match _server_cache (manager w) !! sid with
  | Some cached =>
      if env_utcnow env (ticks w) - _last_cache_update (manager w) <? _cache_ttl (manager w)
      then (match (call_tool_with_config env uid sid req cached (tick w)).1 with
            | Ok t => t
            | Raise e => Done (Raise e)
            end, (call_tool_with_config env uid sid req cached (tick w)).2)
      else (call_tool_fetching env uid sid req, tick w)
  | None => (call_tool_fetching env uid sid req, w)
  end.
Proof.
  unfold call_tool_task. rewrite resume_segment.
  unfold mbind at 1 3, M_bind at 1 3, get_manager.
  destruct (_server_cache (manager w) !! sid) as [cached|]; [|done].
  unfold mbind, M_bind, utcnow, outside, tick. cbn.
  by destruct (_ <? _).
Qed.

(** ** What every stretch of a task keeps *)

Lemma keeps_resume {A} (P : World → Prop) (t : Task A) :
  (∀ w, P w → P (resume t w).2 ∧ keeps P (resume t w).1) → keeps P t.
Proof. destruct t as [r|k eff]; [done|]. intros H w Hw. apply (H w Hw). Qed.

Lemma resume_keeps {A} (P : World → Prop) (t : Task A) w :
  keeps P t → P w → P (resume t w).2 ∧ keeps P (resume t w).1.
Proof. destruct t as [r|k eff]; [done|]. intros H Hw. apply (H w Hw). Qed.

Lemma complete_keeps {A} (P : World → Prop) (t : Task A) w :
  keeps P t → P w → P (complete t w).2.
Proof.
  revert w. induction t as [r|k IH eff]; intros w Ht Hw; [done|].
  cbn. destruct (Ht w Hw) as [Hw' Hk]. by apply IH.
Qed.

Lemma resume_nth_keeps {A} (P : World → Prop) i (tasks : list (Task A)) w :
  Forall (keeps P) tasks → P w →
  Forall (keeps P) (resume_nth i tasks w).1 ∧ P (resume_nth i tasks w).2.
Proof.
  intros Hall. revert i. induction Hall as [|t ts Ht Hts IH]; intros i Hw; [done|].
  destruct i as [|i]; cbn.
  - destruct (resume_keeps P t w Ht Hw) as [Hw' Ht'].
    destruct (resume t w) as [t' w']. cbn in *. split; [by constructor|done].
  - destruct (IH i Hw) as [Hts' Hw'].
    destruct (resume_nth i ts w) as [ts' w']. cbn in *. split; [by constructor|done].
Qed.

Lemma run_schedule_keeps {A} (P : World → Prop) schedule (tasks : list (Task A)) w :
  Forall (keeps P) tasks → P w →
  Forall (keeps P) (run_schedule schedule tasks w).1 ∧ P (run_schedule schedule tasks w).2.
Proof.
  revert tasks w. induction schedule as [|i rest IH]; intros tasks w Hall Hw; [done|].
  cbn. destruct (resume_nth_keeps P i tasks w Hall Hw) as [Hall' Hw'].
  destruct (resume_nth i tasks w) as [tasks' w']. by apply IH.
Qed.

Lemma complete_all_keeps {A} (P : World → Prop) (tasks : list (Task A)) w :
  Forall (keeps P) tasks → P w → P (complete_all tasks w).2.
Proof.
  intros Hall. revert w. induction Hall as [|t ts Ht _ IH]; intros w Hw; [done|].
  cbn. pose proof (complete_keeps P t w Ht Hw) as Hw1.
  destruct (complete t w) as [r w1]. specialize (IH w1 Hw1).
  by destruct (complete_all ts w1).
Qed.

Lemma gather_keeps {A} (P : World → Prop) env (tasks : list (Task A)) w :
  Forall (keeps P) tasks → P w → P (after (gather_return_exceptions env tasks) w).
Proof.
  intros Hall Hw. unfold after, gather_return_exceptions.
  destruct (run_schedule_keeps P (env_schedule env (ticks w)) tasks w Hall Hw)
    as [Hall' Hw'].
  destruct (run_schedule _ tasks w) as [tasks' w1].
  pose proof (complete_all_keeps P tasks' w1 Hall' Hw') as Hw2.
  by destruct (complete_all tasks' w1).
Qed.

Lemma execute_and_wrap_quiet env sid descr c req w :
  quiet w (after (execute_and_wrap env sid descr c req) w).
Proof.
  unfold after, execute_and_wrap, _execute_tool, client_call_tool, utcnow.
  unfold_M. cbn. repeat case_match; simplify_eq; cbn; done.
Qed.

Lemma tick_quiet w : quiet w (tick w).
Proof. done. Qed.

Lemma call_tool_invoking_keeps P env sid descr c req :
  pool_closed P → keeps P (call_tool_invoking env sid descr c req).
Proof.
  intros (Hq & _ & Hrel). apply keeps_resume. intros w Hw.
  rewrite call_tool_invoking_resume. cbn. split; [|done].
  apply Hrel. eapply Hq; [apply execute_and_wrap_quiet|done].
Qed.

Lemma call_tool_connecting_keeps P env sid descr c req :
  pool_closed P → keeps P (call_tool_connecting env sid descr c req).
Proof.
  intros Hcl. pose proof Hcl as (Hq & _ & Hrel). apply keeps_resume. intros w Hw.
  rewrite call_tool_connecting_resume.
  destruct (env_aenter env (ticks w) c) as [[]|e]; cbn.
  - split; [by eapply Hq; [apply tick_quiet|]|by apply call_tool_invoking_keeps].
  - split; [|done]. apply Hrel. by eapply Hq; [apply tick_quiet|].
Qed.

Lemma call_tool_with_config_keeps P env uid sid req descr w :
  pool_closed P → P w →
  P (call_tool_with_config env uid sid req descr w).2
  ∧ keeps P match (call_tool_with_config env uid sid req descr w).1 with
            | Ok t => t
            | Raise e => Done (Raise e)
            end.
Proof.
  intros Hcl Hw. pose proof Hcl as (Hq & Hget & _).
  rewrite call_tool_with_config_eq.
  destruct (Py.truthy descr); [|done].
  pose proof (user_has_access_pure uid sid w) as Ha.
  destruct (_user_has_access uid sid w) as [[[]|e] w2]; cbn in Ha; subst w2; try done.
  destruct (Py.getitem descr "url") as [url|e]; [|done].
  destruct (Py.get descr "config" (PDict [])) as [config|e]; [|done].
  specialize (Hget env sid url config w Hw). unfold after in Hget.
  destruct (get_connection env sid url config w) as [[c|e] w3]; cbn in *; [|done].
  split; [by eapply Hq; [apply tick_quiet|]|].
  destruct (env_is_connected env (ticks w3) c);
    [by apply call_tool_invoking_keeps|by apply call_tool_connecting_keeps].
Qed.

Lemma call_tool_fetched_keeps P env uid sid req fetched :
  pool_closed P → keeps P (call_tool_fetched env uid sid req fetched).
Proof.
  intros Hcl. apply keeps_resume. intros w Hw. rewrite call_tool_fetched_resume.
  destruct fetched as [descr|e]; [|done]. by apply call_tool_with_config_keeps.
Qed.

Lemma call_tool_fetching_keeps P env uid sid req :
  pool_closed P → keeps P (call_tool_fetching env uid sid req).
Proof.
  intros Hcl. pose proof Hcl as (Hq & _). apply keeps_resume. intros w Hw.
  rewrite call_tool_fetching_resume. cbn.
  split; [by eapply Hq; [apply fetch_server_config_quiet|]|].
  by apply call_tool_fetched_keeps.
Qed.

Lemma call_tool_task_keeps P env uid sid req :
  pool_closed P → keeps P (call_tool_task env uid sid req).
Proof.
  intros Hcl. pose proof Hcl as (Hq & _). apply keeps_resume. intros w Hw.
  rewrite call_tool_task_resume.
  assert (Ht : P (tick w)) by (by eapply Hq; [apply tick_quiet|]).
  destruct (_server_cache (manager w) !! sid) as [cached|].
  - destruct (_ <? _).
    + by apply call_tool_with_config_keeps.
    + split; [done|by apply call_tool_fetching_keeps].
  - split; [done|by apply call_tool_fetching_keeps].
Qed.

Lemma batch_keeps (P : World → Prop) env uid reqs w :
  pool_closed P → P w → P (after (batch_call_tools env uid reqs) w).
Proof.
  intros Hcl Hw. unfold after, batch_call_tools, batch_of_tasks. unfold mbind, M_bind.
  match goal with |- context [gather_return_exceptions env ?l w] =>
    pose proof (gather_keeps P env l w) as H; unfold after in H;
    destruct (gather_return_exceptions env l w) as [[rs|e] w1] end;
  cbn [snd] in *; apply H; try done;
  apply Forall_map, Forall_forall; intros [s q] _; by apply call_tool_task_keeps.
Qed.

Lemma pool_wf_closed N : pool_closed (pool_wf N).
Proof.
  split_and!.
  - intros w w'. apply quiet_wf.
  - intros. by apply get_connection_wf.
  - intros. by apply release_connection_wf.
Qed.

Lemma batch_call_tools_wf N env uid reqs w :
  pool_wf N w → pool_wf N (after (batch_call_tools env uid reqs) w).
Proof. apply batch_keeps, pool_wf_closed. Qed.

Lemma run_op_wf N env o w : pool_wf N w → pool_wf N (run_op env o w).
Proof.
  destruct o; cbn.
  - apply get_connection_wf.
  - apply release_connection_wf.
  - apply close_all_connections_wf.
  - apply health_check_wf.
  - intros. eapply quiet_wf; [apply initialize_user_servers_quiet|done].
  - intros. eapply quiet_wf; [apply get_server_config_quiet|done].
  - apply call_tool_wf.
  - apply batch_call_tools_wf.
Qed.


Lemma new_world_wf N m t : connection_pool m = new_pool N t → pool_wf N (new_world m).
Proof.
  intros Hp. unfold pool_wf, pool_inv, heap_inv, bound_inv, idle_of, active_of, pool.
  cbn. rewrite Hp. cbn. split_and!; try done.
  - intros sid. rewrite lookup_empty. cbn. split; [apply NoDup_nil_2|set_solver].
  - intros sid c. rewrite !lookup_empty. cbn. set_solver.
  - intros sid. rewrite !lookup_empty. cbn. rewrite size_empty. lia.
Qed.

Lemma reachable_wf N w : reachable N w → pool_wf N w.
Proof.
  induction 1 as [m t Hp|env o w _ IH]; [by eapply new_world_wf|by apply run_op_wf].
Qed.


(** ** Disjointness alone *)

Lemma pool_inv_ext w w' :
  (∀ s, idle_of w' s = idle_of w s) →
  (∀ s, active_of w' s = active_of w s) →
  pool_inv w → pool_inv w'.
Proof. intros Hi Ha Hinv s. rewrite Hi. split; [|intros c; rewrite Ha]; apply Hinv. Qed.

Lemma pool_inv_set w sid idle' act' cfgs h hist :
  NoDup idle' →
  (∀ c, c ∈ idle' → c ∉ act') →
  pool_inv w →
  pool_inv (set_pool_maps (<[sid := idle']> (_pools (pool w)))
              (<[sid := act']> (_active_connections (pool w))) cfgs h hist w).
Proof.
  intros Hnd Hdisj Hinv s. rewrite idle_of_set, active_of_set, !default_insert.
  case_decide; [done|apply Hinv].
Qed.

Lemma get_connection_inv env sid url config w :
  pool_inv w → pool_inv (after (get_connection env sid url config) w).
Proof.
  intros Hinv. destruct (Hinv sid) as [Hnd Hdisj].
  unfold after. rewrite get_connection_eq. cbn zeta.
  destruct (pop (idle_of w sid)) as [[c rest]|] eqn:Hpop.
  - apply pop_Some in Hpop. rewrite Hpop in *.
    apply NoDup_app in Hnd as (Hnd & Hnc & _).
    apply pool_inv_set; try done.
    intros c' Hc'. rewrite elem_of_union, elem_of_singleton.
    intros [Hin| ->]; [eapply (Hdisj c'); set_solver|]. apply (Hnc c); set_solver.
  - repeat case_match; cbn [snd]; apply pool_inv_set; try done;
      try apply NoDup_nil_2; set_solver.
Qed.

Lemma release_connection_inv sid c w :
  pool_inv w → pool_inv (after (release_connection sid c) w).
Proof.
  intros Hinv. destruct (Hinv sid) as [Hnd Hdisj].
  unfold after. rewrite release_connection_eq. cbn zeta. cbn [snd].
  case_bool_decide as Hin.
  - apply pool_inv_set; try done.
    + apply NoDup_app. split_and!; [done| |apply NoDup_singleton].
      intros x Hx Hx'. apply list_elem_of_singleton in Hx' as ->. by apply (Hdisj c).
    + intros c' Hc'. apply elem_of_app in Hc' as [Hc'|Hc'].
      * specialize (Hdisj c' Hc'). set_solver.
      * set_solver.
  - revert Hinv. apply pool_inv_ext; try done.
    intros s. rewrite active_of_set, default_insert. by case_decide; subst.
Qed.

Lemma release_inactive sid c w :
  c ∉ active_of w sid →
  let w' := after (release_connection sid c) w in
  _pools (pool w') = _pools (pool w) ∧
  ∀ s, idle_of w' s = idle_of w s ∧ active_of w' s = active_of w s.
Proof.
  intros Hout. unfold after. rewrite release_connection_eq. cbn zeta. cbn [snd].
  rewrite bool_decide_eq_false_2 by done. split; [done|]. intros s. split; [done|].
  rewrite active_of_set, default_insert. by case_decide; subst.
Qed.

Lemma for_each_close_inv l w : pool_inv w → pool_inv (after (for_each l close_server) w).
Proof.
  revert w. induction l as [|sid l IH]; intros w Hinv; [done|].
  unfold after in *. cbn. unfold mbind, M_bind. rewrite close_server_eq.
  apply IH, pool_inv_set; [apply NoDup_nil_2|set_solver|done].
Qed.

Lemma close_all_connections_inv sid w :
  pool_inv w → pool_inv (after (close_all_connections sid) w).
Proof.
  intros Hinv. unfold after, close_all_connections, traced, with_lock.
  unfold mbind, M_bind, get_pool.
  match goal with |- context [for_each ?l close_server w] =>
    pose proof (for_each_close_inv l w Hinv) as H1; unfold after in H1;
    destruct (for_each l close_server w) as [r w1] end.
  cbn [snd] in *. revert H1. by apply pool_inv_ext.
Qed.

(** ** One call of [call_tool], seen from the pool *)

Lemma quiet_views w w' :
  quiet w w' → ∀ s, idle_of w' s = idle_of w s ∧ active_of w' s = active_of w s.
Proof. intros (Hp & _). unfold idle_of, active_of. by rewrite Hp. Qed.

Lemma get_connection_Ok env N sid url config w c w2 :
  pool_wf N w →
  get_connection env sid url config w = (Ok c, w2) →
  history w2 = history w ++ [EvGet sid (Some c)]
  ∧ (c ∉ active_of w sid)
  ∧ active_of w2 sid = active_of w sid ∪ {[c]}
  ∧ (c ∉ idle_of w2 sid)
  ∧ (idle_of w sid = idle_of w2 sid ++ [c] ∨ idle_of w sid = [] ∧ idle_of w2 sid = [])
  ∧ (∀ s, s ≠ sid → idle_of w2 s = idle_of w s ∧ active_of w2 s = active_of w s).
Proof.
  intros (Hmx & Hinv & Hheap & Hbd). destruct (Hinv sid) as [Hnd Hdisj].
  rewrite get_connection_eq. cbn zeta.
  destruct (pop (idle_of w sid)) as [[c' rest]|] eqn:Hpop.
  - apply pop_Some in Hpop. intros [= -> <-].
    rewrite idle_of_set, active_of_set, !default_insert, !decide_True by done.
    rewrite Hpop in Hnd, Hdisj. apply NoDup_app in Hnd as (Hnd & Hnc & _).
    split_and!; try done.
    + apply Hdisj. set_solver.
    + intros Hin. apply (Hnc c Hin). set_solver.
    + by left.
    + intros s Hs. by rewrite idle_of_set, active_of_set, !default_insert, !decide_False.
  - apply pop_None in Hpop. repeat case_match; intros [= <- <-].
    rewrite idle_of_set, active_of_set, !default_insert, !decide_True by done.
    split_and!; try done.
    + intros Hin. assert (length (heap w) < length (heap w))%nat by (apply (Hheap sid); auto). lia.
    + set_solver.
    + by right.
    + intros s Hs. by rewrite idle_of_set, active_of_set, !default_insert, !decide_False.
Qed.

Lemma get_connection_Raise env sid url config w e w2 :
  get_connection env sid url config w = (Raise e, w2) →
  history w2 = history w ++ [EvGet sid None]
  ∧ ∀ s, idle_of w2 s = idle_of w s ∧ active_of w2 s = active_of w s.
Proof.
  rewrite get_connection_eq. cbn zeta.
  destruct (pop (idle_of w sid)) as [[c' rest]|] eqn:Hpop; [done|].
  apply pop_None in Hpop.
  repeat case_match; intros [= <- <-]; (split; [done|]); intros s;
    rewrite idle_of_set, active_of_set, !default_insert; case_decide; subst; by rewrite ?Hpop.
Qed.

Lemma release_connection_active sid c w w' :
  c ∈ active_of w sid →
  release_connection sid c w = (Ok tt, w') →
  history w' = history w ++ [EvRelease sid c]
  ∧ idle_of w' sid = idle_of w sid ++ [c]
  ∧ active_of w' sid = active_of w sid ∖ {[c]}
  ∧ (∀ s, s ≠ sid → idle_of w' s = idle_of w s ∧ active_of w' s = active_of w s).
Proof.
  intros Hin. rewrite release_connection_eq. cbn zeta.
  rewrite bool_decide_eq_true_2 by done. intros [= <-].
  rewrite idle_of_set, active_of_set, !default_insert, !decide_True by done.
  split_and!; try done.
  intros s Hs. by rewrite idle_of_set, active_of_set, !default_insert, !decide_False.
Qed.

(** The three ways a call can go, with what each leaves behind. *)
Lemma call_tool_pool env N uid sid req w :
  pool_wf N w →
  let w' := after (call_tool env uid sid req) w in
  ∃ resp, (call_tool env uid sid req w).1 = Ok resp ∧
  ((history w' = history w ∧ pool w' = pool w ∧ heap w' = heap w ∧ success resp = false)
   ∨ (history w' = history w ++ [EvGet sid None] ∧ success resp = false ∧
      ∀ s, idle_of w' s = idle_of w s ∧ active_of w' s = active_of w s)
   ∨ (∃ c, history w' = history w ++ [EvGet sid (Some c); EvRelease sid c]
        ∧ (∃ rest, idle_of w' sid = rest ++ [c])
        ∧ (c ∉ active_of w' sid)
        ∧ (success resp = false → metadata resp = [("server_id", PStr sid)])
        ∧ ∀ s, active_of w' s = active_of w s)).
Proof.
  intros Hwf w'. subst w'. unfold after.
  destruct (call_tool env uid sid req w) as [r w'] eqn:Hc.
  destruct (call_tool_cases _ _ _ _ _ _ _ Hc) as (resp & -> & Hcases). cbn [fst snd].
  exists resp. split; [done|].
  destruct Hcases as [((Hp & Hh & Hhist) & Hs & _)|[(w1 & url & config & e & Hq & Hg & ->)
    |(w1 & w2 & w3 & url & config & descr & c & rb & Hq & Hg & Hb & Hr & ->)]].
  - left. done.
  - right; left. apply get_connection_Raise in Hg as [Hh Hv].
    destruct Hq as (Hp & _ & Hhist). rewrite Hh, Hhist. split_and!; try done.
    intros s. destruct (Hv s) as [-> ->]. unfold idle_of, active_of. by rewrite Hp.
  - right; right. exists c.
    pose proof (quiet_wf N _ _ Hq Hwf) as Hwf1.
    destruct (get_connection_Ok _ _ _ _ _ _ _ _ Hwf1 Hg) as (Hh2 & Hnew & Ha2 & Hni & Hi2 & Ho2).
    pose proof (invoke_and_wrap_quiet env sid descr c req w2) as Hq2.
    unfold after in Hq2. rewrite Hb in Hq2. cbn [snd] in Hq2.
    pose proof (quiet_views _ _ Hq2) as Hv3. pose proof (quiet_views _ _ Hq) as Hv1.
    assert (Hin : c ∈ active_of w3 sid).
    { destruct (Hv3 sid) as [_ ->]. rewrite Ha2. set_solver. }
    destruct (release_connection_active _ _ _ _ Hin Hr) as (Hh4 & Hi4 & Ha4 & Ho4).
    destruct Hq as (_ & _ & Hhist1). destruct Hq2 as (_ & _ & Hhist3).
    split_and!.
    + rewrite Hh4, Hhist3, Hh2, Hhist1, <- app_assoc. done.
    + eauto.
    + rewrite Ha4. set_solver.
    + destruct rb as [x|e]; [|done]. intros Hx. exfalso.
      revert Hb Hx. clear. unfold invoke_and_wrap, execute_and_wrap, _execute_tool, is_connected, aenter,
        client_call_tool, utcnow. unfold_M. cbn.
      repeat case_match; intros; simplify_eq; done.
    + intros s. destruct (decide (s = sid)) as [->|Hne].
      * rewrite Ha4. destruct (Hv3 sid) as [_ ->]. rewrite Ha2.
        destruct (Hv1 sid) as [_ Ha1]. rewrite Ha1 in *. set_solver.
      * destruct (Ho4 s Hne) as [_ ->]. destruct (Hv3 s) as [_ ->].
        destruct (Ho2 s Hne) as [_ ->]. by destruct (Hv1 s) as [_ ->].
Qed.

Lemma get_connection_idle env sid url config w rest c :
  idle_of w sid = rest ++ [c] → (get_connection env sid url config w).1 = Ok c.
Proof. intros Hi. rewrite get_connection_eq. cbn zeta. by rewrite Hi, pop_snoc. Qed.


(** ** The access check *)

Lemma any_enabled_false sid l :
  Forall (λ s, is_entry s ∧ enables sid s = false) l → any_enabled sid l = Ok false.
Proof.
  induction 1 as [|s l [(d & -> & [v Hv]) Hen] _ IH]; [done|].
  cbn. unfold enables in Hen. cbn in Hen. rewrite Hv in *. cbn.
  destruct (Py.is_str sid v); cbn in *; [|done].
  destruct (Py.assoc "enabled" d) as [e|]; cbn in *; [|done]. by rewrite Hen.
Qed.

Lemma user_has_access_denied uid sid w :
  not_enabled (manager w) uid sid → _user_has_access uid sid w = (Ok false, w).
Proof.
  unfold not_enabled, _user_has_access. unfold_M.
  destruct (_user_servers (manager w) !! uid) as [[]|]; try done; cbn.
  intros Hall. by rewrite any_enabled_false.
Qed.

Lemma fetch_server_config_user_servers env sid w :
  _user_servers (manager (after (fetch_server_config env sid) w)) = _user_servers (manager w).
Proof.
  unfold after, fetch_server_config, utcnow, http_get. unfold_M. cbn.
  repeat case_match; simplify_eq; cbn; done.
Qed.

Lemma get_server_config_user_servers env sid w :
  _user_servers (manager (after (_get_server_config env sid) w)) = _user_servers (manager w).
Proof.
  unfold after, _get_server_config, utcnow. unfold_M. cbn.
  destruct (_server_cache (manager w) !! sid); cbn.
  - case_match; cbn; [done|].
    match goal with |- context [fetch_server_config env sid ?w1] =>
      pose proof (fetch_server_config_user_servers env sid w1) as H1 end.
    unfold after in H1. by rewrite H1.
  - apply fetch_server_config_user_servers.
Qed.

Lemma call_tool_denied env uid sid req w r w' :
  not_enabled (manager w) uid sid →
  call_tool env uid sid req w = (r, w') →
  quiet w w'
  ∧ ∀ descr w1, _get_server_config env sid w = (Ok descr, w1) →
      Py.truthy descr = true → r = Ok (access_denied uid sid) ∧ w' = w1.
Proof.
  intros Hno. unfold call_tool, try_except.
  pose proof (get_server_config_quiet env sid w) as Hq.
  pose proof (get_server_config_user_servers env sid w) as Hu.
  unfold after in Hq, Hu.
  unfold mbind at 1. unfold M_bind at 1.
  destruct (_get_server_config env sid w) as [[descr|e] w1]; cbn [snd] in *.
  2:{ intros [= <- <-]. split; [done|]. by intros ?? [=]. }
  destruct (Py.truthy descr) eqn:Ht; cbn [negb].
  2:{ intros [= <- <-]. split; [done|]. intros ?? [= <- <-]. congruence. }
  unfold mbind at 1. unfold M_bind at 1.
  rewrite user_has_access_denied by (unfold not_enabled; by rewrite Hu).
  cbn. intros [= <- <-]. split; [done|]. by intros ?? [= <- <-].
Qed.


(** ** The shape of the response *)

Lemma invoke_and_wrap_Ok env sid descr c req w resp w' :
  invoke_and_wrap env sid descr c req w = (Ok resp, w') →
  ∃ t tr name,
    env_call_tool env t c (tool_name req) (parameters req) = Ok tr
    ∧ ticks w' = S (S t)
    ∧ Py.get descr "name" PNone = Ok name
    ∧ resp = mkMCPResponse true (Some (raw_result tr)) None
        [("server_id", PStr sid); ("server_name", name);
         ("execution_time", PStr (env_isoformat env (env_utcnow env (S t))))].
Proof.
  unfold invoke_and_wrap, execute_and_wrap, _execute_tool, is_connected, aenter, client_call_tool, utcnow,
    raw_result.
  unfold_M. cbn.
  destruct (env_is_connected env (ticks w) c); cbn.
  - destruct (env_call_tool env (S (ticks w)) c _ _) as [tr|e] eqn:Ht; cbn; [|done].
    destruct (Py.get descr "name" PNone) as [name|e]; intros H;
      [exists (S (ticks w)), tr, name|exfalso]; revert H;
      repeat case_match; intros; simplify_eq; done.
  - destruct (env_aenter env (S (ticks w)) c) as [[]|e]; cbn; [|done].
    destruct (env_call_tool env (S (S (ticks w))) c _ _) as [tr|e] eqn:Ht; cbn; [|done].
    destruct (Py.get descr "name" PNone) as [name|e]; intros H;
      [exists (S (S (ticks w))), tr, name|exfalso]; revert H;
      repeat case_match; intros; simplify_eq; done.
Qed.

(** What the call of the tool decides, once the connection is there. *)
Lemma invoke_and_wrap_invoked env sid d c req w t :
  env_is_connected env (ticks w) c = true ∧ t = S (ticks w)
  ∨ env_is_connected env (ticks w) c = false ∧ env_aenter env (S (ticks w)) c = Ok tt
    ∧ t = S (S (ticks w)) →
  (invoke_and_wrap env sid (PDict d) c req w).1 =
  match env_call_tool env t c (tool_name req) (parameters req) with
  | Ok tr =>
      Ok (mkMCPResponse true (Some (raw_result tr)) None
            [("server_id", PStr sid);
             ("server_name", default PNone (Py.assoc "name" d));
             ("execution_time", PStr (env_isoformat env (env_utcnow env (S t))))])
  | Raise e => Raise (Exn "Exception" ("Tool execution failed: " +:+ str_exn e))
  end.
Proof.
  unfold invoke_and_wrap, execute_and_wrap, _execute_tool, is_connected, aenter, client_call_tool, utcnow,
    raw_result.
  unfold_M. cbn.
  intros [[-> ->]|(-> & Ha & ->)]; cbn; rewrite ?Ha; cbn;
    (destruct (env_call_tool env _ c _ _) as [tr|e]; cbn;
     [destruct (tr_content tr), (tr_text tr)|]; done).
Qed.


(** ** The batch *)


















(** ** The descriptor cache *)

Lemma get_server_config_miss env sid w :
  _server_cache (manager w) !! sid = None →
  _get_server_config env sid w = fetch_server_config env sid w.
Proof. intros H. unfold _get_server_config. unfold_M. cbn. by rewrite H. Qed.

Lemma get_server_config_hit env sid w cached :
  _server_cache (manager w) !! sid = Some cached →
  _get_server_config env sid w = (Ok cached, tick w)
  ∨ _get_server_config env sid w = fetch_server_config env sid (tick w).
Proof.
  intros H. unfold _get_server_config, utcnow. unfold_M. cbn. rewrite H. cbn.
  case_match; [by left|by right].
Qed.

(** * The claims *)

(** ** C1 *)

(** C1. In every world that calls can lead to from a new pool allowing [N]
    connections per provider, [get_connection] hands out the last idle
    connection when there is one; else, while fewer than [N] are active, it
    makes a new one (an object that was in no set before) when the
    constructor of the client returns, and when the constructor raises it
    lets that exception out and adds nothing; else it raises "Connection
    pool exhausted" at once, without any interaction with the outside and
    without a change to the idle list or the active set. So never more than
    [N] connections are active for a provider, and with [N] active the next
    call fails. A manager makes its pool with [N] = 5. *)
Theorem get_connection_bounded env (N : Z) (w : World) (sid : string) (url : pyval)
    (d : list (string * pyval)) :
  reachable N w →
  let r := get_connection env sid url (PDict d) w in
  (∀ c rest, idle_of w sid = rest ++ [c] →
     r.1 = Ok c ∧ idle_of r.2 sid = rest ∧
     active_of r.2 sid = active_of w sid ∪ {[c]} ∧ heap r.2 = heap w)
  ∧ (idle_of w sid = [] → Z.of_nat (size (active_of w sid)) < N →
     let c := length (heap w) in
     match env_Client env (ticks w) url (auth_of d) with
     | Ok _ =>
         r.1 = Ok c ∧ length (heap r.2) = S (length (heap w)) ∧ (c ∉ active_of w sid) ∧
         idle_of r.2 sid = [] ∧ active_of r.2 sid = active_of w sid ∪ {[c]}
     | Raise e =>
         r.1 = Raise e ∧ ticks r.2 = ticks w ∧ heap r.2 = heap w ∧
         ∀ s, idle_of r.2 s = idle_of w s ∧ active_of r.2 s = active_of w s
     end)
  ∧ (idle_of w sid = [] → N ≤ Z.of_nat (size (active_of w sid)) →
     r.1 = Raise (exhausted sid) ∧ ticks r.2 = ticks w ∧ heap r.2 = heap w ∧
     ∀ s, idle_of r.2 s = idle_of w s ∧ active_of r.2 s = active_of w s)
  ∧ (0 ≤ N → Z.of_nat (size (active_of w sid)) ≤ N)
  ∧ (Z.of_nat (size (active_of w sid)) = N → r.1 = Raise (exhausted sid))
  ∧ (∀ registry, max_connections_per_server (connection_pool (new_manager registry)) = 5).
Proof.
  intros Hr. apply reachable_wf in Hr as (Hmx & Hinv & Hheap & Hbd).
  specialize (Hbd sid). rewrite Hmx in Hbd.
  intros r. subst r. rewrite get_connection_eq. cbn zeta. rewrite Hmx.
  assert (Hfull : idle_of w sid = [] → N ≤ Z.of_nat (size (active_of w sid)) →
     pop (idle_of w sid) = None ∧ (Z.of_nat (size (active_of w sid)) <? N) = false).
  { intros -> Hn. split; [done|]. by apply Z.ltb_ge. }
  split_and!.
  - intros c rest Hi. rewrite Hi, pop_snoc. cbn [fst snd].
    rewrite idle_of_set, active_of_set, !default_insert, !decide_True by done. done.
  - intros Hi Hlt. rewrite Hi. cbn [pop last]. apply Z.ltb_lt in Hlt. rewrite Hlt.
    rewrite create_outcome_dict.
    destruct (env_Client env (ticks w) url (auth_of d)) as [[]|e]; cbn [fst snd].
    + rewrite idle_of_set, active_of_set, !default_insert, !decide_True by done.
      split_and!; try done.
      * cbn. rewrite length_app. cbn. lia.
      * intros Hin.
        assert (length (heap w) < length (heap w))%nat by (apply (Hheap sid); auto). lia.
    + split_and!; try done. intros s.
      rewrite idle_of_set, active_of_set, !default_insert.
      case_decide; subst; by rewrite ?Hi.
  - intros Hi Hn. destruct (Hfull Hi Hn) as [-> ->]. cbn [fst snd].
    split_and!; try done. intros s.
    rewrite idle_of_set, active_of_set, !default_insert.
    case_decide; subst; by rewrite ?Hi.
  - lia.
  - intros Hsz. destruct (Hfull) as [-> ->]; [|lia|done].
    destruct (idle_of w sid); [done|]. cbn [length] in Hbd. lia.
  - done.
Qed.

Lemma get_connection_bounded_witness :
  reachable 2 world_full
  ∧ size (active_of world_full "weather-1") = 2%nat
  ∧ (get_connection env_fine "weather-1" (PStr "http://localhost:8001/sse") (PDict [])
       world_full).1 = Raise (exhausted "weather-1")
  ∧ (get_connection env_fine "news-2" (PStr "not a url") (PDict []) world_full).1
    = Raise (Exn "ValueError" "Could not infer a valid transport from: not a url").
Proof.
  assert (H : reachable 2 world_full).
  { unfold world_full. do 2 apply reach_op. by eapply reach_new. }
  split; [exact H|]. split; [vm_compute; reflexivity|].
  pose proof (get_connection_bounded env_fine 2 world_full "weather-1"
                (PStr "http://localhost:8001/sse") [] H) as Hc.
  pose proof (get_connection_bounded env_fine 2 world_full "news-2"
                (PStr "not a url") [] H) as Hn.
  cbn zeta in Hc, Hn. destruct Hc as (_ & _ & _ & _ & Hc & _).
  destruct Hn as (_ & Hn & _).
  split; [apply Hc; vm_compute; reflexivity|].
  apply Hn; vm_compute; reflexivity.
Defined.

(** ** C2 *)

(** C2. In a pool that is in order, a call of [call_tool] adds to the
    history of the pool either nothing, or one failed [get_connection], or
    one successful [get_connection] followed by exactly one
    [release_connection] of the connection it got, which is then not active
    any more; in every case the active set of every provider is after the
    call what it was before, whatever the outside answered. *)
Theorem call_tool_releases_once env N uid sid req w :
  pool_wf N w →
  let w' := after (call_tool env uid sid req) w in
  ∃ evs, history w' = history w ++ evs
    ∧ (∀ c, EvGet sid (Some c) ∈ evs →
         evs = [EvGet sid (Some c); EvRelease sid c] ∧ c ∉ active_of w' sid)
    ∧ (∀ s, active_of w' s = active_of w s).
Proof.
  intros Hwf w'.
  destruct (call_tool_pool env N uid sid req w Hwf) as (resp & _ & Hcases).
  fold w' in Hcases.
  destruct Hcases as [(Hh & Hp & _)|[(Hh & _ & Hv)|(c & Hh & _ & Hout & _ & Hv)]].
  - exists []. rewrite app_nil_r. split_and!; [done|set_solver|].
    intros s. unfold active_of. by rewrite Hp.
  - exists [EvGet sid None]. split_and!; [done|set_solver|apply Hv].
  - exists [EvGet sid (Some c); EvRelease sid c]. split_and!; [done| |done].
    intros c' Hc'. assert (c' = c) as -> by set_solver. done.
Qed.

Lemma call_tool_releases_once_witness :
  pool_wf 5 world_ready
  ∧ history (after (call_tool env_tool_fails "test-user-123" "weather-1" sample_request)
               world_ready)
    = history world_ready ++ [EvGet "weather-1" (Some 0%nat); EvRelease "weather-1" 0%nat]
  ∧ active_of (after (call_tool env_tool_fails "test-user-123" "weather-1" sample_request)
                 world_ready) "weather-1"
    = active_of world_ready "weather-1".
Proof.
  assert (H : pool_wf 5 world_ready).
  { apply reachable_wf. unfold world_ready. apply reach_op. by eapply reach_new. }
  split; [exact H|].
  destruct (call_tool_releases_once env_tool_fails 5 "test-user-123" "weather-1"
              sample_request world_ready H) as (evs & _ & _ & Ha).
  split; [vm_compute; reflexivity|apply Ha].
Defined.

(** ** C3 *)



(** ** C4 *)

(** C4. When no list was loaded for the user, or the loaded list has no
    entry enabling the provider, [_user_has_access] returns [False] without
    raising, and [call_tool] leaves the pool, the heap and the history of
    the pool as they were: the pool is not called and the number of active
    connections of every provider is unchanged. Once the descriptor of the
    provider is resolved, the response is the access-denied failure. *)
Theorem no_access_no_connection env uid sid req w :
  not_enabled (manager w) uid sid →
  _user_has_access uid sid w = (Ok false, w)
  ∧ let w' := after (call_tool env uid sid req) w in
    pool w' = pool w ∧ heap w' = heap w ∧ history w' = history w
    ∧ (∀ s, size (active_of w' s) = size (active_of w s))
    ∧ (∀ descr w1, _get_server_config env sid w = (Ok descr, w1) →
         Py.truthy descr = true →
         call_tool env uid sid req w = (Ok (access_denied uid sid), w1)).
Proof.
  intros Hno. split; [by apply user_has_access_denied|].
  intros w'. subst w'. unfold after.
  destruct (call_tool env uid sid req w) as [r w'] eqn:Hc.
  destruct (call_tool_denied _ _ _ _ _ _ _ Hno Hc) as [(Hp & Hh & Hhist) Hresp].
  cbn [snd]. split_and!; try done.
  - intros s. unfold active_of. by rewrite Hp.
  - intros descr w1 Hg Ht. by destruct (Hresp descr w1 Hg Ht) as [-> ->].
Qed.

Lemma no_access_no_connection_witness :
  not_enabled (manager world_new) "test-user-123" "weather-1"
  ∧ (call_tool env_fine "test-user-123" "weather-1" sample_request world_new).1
    = Ok (access_denied "test-user-123" "weather-1")
  ∧ history (after (call_tool env_fine "test-user-123" "weather-1" sample_request)
               world_new) = [].
Proof.
  assert (H : not_enabled (manager world_new) "test-user-123" "weather-1").
  { vm_compute. exact I. }
  split; [exact H|].
  destruct (no_access_no_connection env_fine "test-user-123" "weather-1"
              sample_request world_new H) as (_ & _ & _ & Hh & _ & Hd).
  split; [|exact Hh].
  rewrite (Hd weather (after (_get_server_config env_fine "weather-1") world_new));
    vm_compute; reflexivity.
Defined.

(** ** C5 *)

(** C5 (the claim fails). The cache holds the weather server, the entry is
    ten minutes old and the registry answers 503: [_get_server_config]
    returns [None], not the cached descriptor. *)
Lemma stale_value_not_returned :
  _server_cache (manager world_cached) !! "weather-1" = Some weather
  ∧ env_http_get env_outage (S (ticks world_cached))
      (GetServer "http://localhost:8000" "weather-1")
    = Ok (mkResponse 503 (Raise (Exn "JSONDecodeError" "Expecting value")) 1500)
  ∧ (_get_server_config env_outage "weather-1" world_cached).1 = Ok PNone
  ∧ (_get_server_config env_outage "weather-1" world_cached).1 ≠ Ok weather.
Proof. vm_compute. split_and!; done. Qed.

(** C5 (amended). On a cache miss [_get_server_config] queries the registry;
    for a cached entry it either returns the entry or reads the clock and
    queries the registry. A query answered with a status other than 200
    gives [None] and leaves the cache as it was, also when it holds a value
    for the provider; a query that raises lets the exception out; a query
    answered with 200 gives the body and stores it. *)
Theorem store_failure_gives_None env sid w :
  (_server_cache (manager w) !! sid = None →
     _get_server_config env sid w = fetch_server_config env sid w)
  ∧ (∀ cached, _server_cache (manager w) !! sid = Some cached →
       _get_server_config env sid w = (Ok cached, tick w)
       ∨ _get_server_config env sid w = fetch_server_config env sid (tick w))
  ∧ match env_http_get env (ticks w) (GetServer (registry_url (manager w)) sid) with
    | Raise e =>
        (fetch_server_config env sid w).1 = Raise e
        ∧ manager (after (fetch_server_config env sid) w) = manager w
    | Ok response =>
        if status_code response =? 200
        then ∀ data, json response = Ok data →
               (fetch_server_config env sid w).1 = Ok data
               ∧ _server_cache (manager (after (fetch_server_config env sid) w)) !! sid
                 = Some data
        else (fetch_server_config env sid w).1 = Ok PNone
             ∧ manager (after (fetch_server_config env sid) w) = manager w
    end.
Proof.
  split; [apply get_server_config_miss|]. split; [apply get_server_config_hit|].
  unfold after, fetch_server_config, http_get, utcnow. unfold_M. cbn.
  destruct (env_http_get env (ticks w) _) as [response|e]; cbn; [|done].
  destruct (status_code response =? 200); cbn; [|done].
  intros data ->. cbn. by rewrite lookup_insert_eq.
Qed.

Lemma store_failure_gives_None_witness :
  _server_cache (manager world_cached) !! "weather-1" = Some weather
  ∧ (fetch_server_config env_outage "weather-1" (tick world_cached)).1 = Ok PNone
  ∧ manager (after (fetch_server_config env_outage "weather-1") (tick world_cached))
    = manager (tick world_cached).
Proof.
  split; [vm_compute; reflexivity|].
  pose proof (store_failure_gives_None env_outage "weather-1" (tick world_cached))
    as (_ & _ & H).
  exact H.
Defined.

(** ** C6 *)

(** C6 (the code breaks the claim). The weather server is fetched, two
    minutes later plus four the news server: the one time of last update
    moves to the second fetch. Eight minutes after the start the entry of
    the weather server is six minutes old, more than the TTL of five, and
    [_get_server_config] still returns it from the cache: it reads the
    clock and sends no request, although the registry would answer with the
    new address. *)
Lemma entry_outlives_ttl :
  let w1 := run_op env_moving (OpGetServerConfig "weather-1") world_new in
  _last_cache_update (manager w1) = epoch + 2 * minute
  ∧ env_utcnow env_moving (ticks world_two_fetches) - (epoch + 2 * minute) = 6 * minute
  ∧ _cache_ttl (manager world_two_fetches) = 5 * minute
  ∧ _get_server_config env_moving "weather-1" world_two_fetches
    = (Ok weather, tick world_two_fetches)
  ∧ env_http_get env_moving (S (ticks world_two_fetches))
      (GetServer "http://localhost:8000" "weather-1") = Ok (ok_response weather_moved).
Proof. vm_compute. split_and!; done. Qed.

(** ** C7 *)

(** C7 (the claim fails). The tool call raises: the failure response has
    the one key "server_id" in its metadata, where the success response of
    the same call has "server_id", "server_name" and "execution_time". *)
Lemma failure_metadata_is_short :
  ∃ failed succeeded,
    (call_tool env_tool_fails "test-user-123" "weather-1" sample_request world_ready).1
    = Ok failed
    ∧ (call_tool env_fine "test-user-123" "weather-1" sample_request world_ready).1
      = Ok succeeded
    ∧ error failed = Some "Tool execution failed: Unknown tool"
    ∧ map fst (metadata failed) = ["server_id"]
    ∧ map fst (metadata succeeded) = ["server_id"; "server_name"; "execution_time"]
    ∧ map fst (metadata failed) ≠ map fst (metadata succeeded).
Proof. do 2 eexists. vm_compute. split_and!; done. Qed.

(** C7 (amended). [call_tool] always returns a response. Once it holds a
    connection and the client is connected, the call of the tool decides:
    when that call returns, the response is a success that carries what
    [_execute_tool] takes out of its result, with the metadata "server_id",
    "server_name" (the "name" of the descriptor) and "execution_time" (the
    clock read after the call); when it raises, the response is a failure
    with the text "Tool execution failed: ..." and the metadata "server_id"
    alone. Every success response is of the first kind, made for a
    connection that the pool handed out and took back. A failure response
    carries no result, an error text, and metadata that are empty or hold
    "server_id" alone; once the pool was asked for a connection (so also
    when connecting or invoking raised) they hold "server_id" alone. *)
Theorem call_tool_response_shape env uid sid req w :
  let w' := after (call_tool env uid sid req) w in
  (∃ resp, (call_tool env uid sid req w).1 = Ok resp
   ∧ (success resp = true →
        ∃ c t tr name,
          history w' = history w ++ [EvGet sid (Some c); EvRelease sid c]
          ∧ env_call_tool env t c (tool_name req) (parameters req) = Ok tr
          ∧ ticks w' = S (S t)
          ∧ resp = mkMCPResponse true (Some (raw_result tr)) None
              [("server_id", PStr sid); ("server_name", name);
               ("execution_time", PStr (env_isoformat env (env_utcnow env (S t))))])
   ∧ (success resp = false →
        result_ resp = None ∧ is_Some (error resp)
        ∧ (metadata resp = [] ∨ metadata resp = [("server_id", PStr sid)])
        ∧ (history w' ≠ history w → metadata resp = [("server_id", PStr sid)])))
  ∧ (∀ d w1 url c w2 t,
       _get_server_config env sid w = (Ok (PDict d), w1) → d ≠ [] →
       _user_has_access uid sid w1 = (Ok true, w1) →
       Py.assoc "url" d = Some url →
       get_connection env sid url (default (PDict []) (Py.assoc "config" d)) w1
       = (Ok c, w2) →
       env_is_connected env (ticks w2) c = true ∧ t = S (ticks w2)
       ∨ env_is_connected env (ticks w2) c = false
         ∧ env_aenter env (S (ticks w2)) c = Ok tt ∧ t = S (S (ticks w2)) →
       (call_tool env uid sid req w).1 =
       Ok match env_call_tool env t c (tool_name req) (parameters req) with
          | Ok tr =>
              mkMCPResponse true (Some (raw_result tr)) None
                [("server_id", PStr sid);
                 ("server_name", default PNone (Py.assoc "name" d));
                 ("execution_time", PStr (env_isoformat env (env_utcnow env (S t))))]
          | Raise e =>
              mkMCPResponse false None
                (Some ("Tool execution failed: " +:+ str_exn e))
                [("server_id", PStr sid)]
          end).
Proof.
  intros w'. subst w'. split.
  - unfold after.
    destruct (call_tool env uid sid req w) as [r w'] eqn:Hc.
    destruct (call_tool_cases _ _ _ _ _ _ _ Hc) as (resp & -> & Hcases). cbn [fst snd].
    exists resp. split; [done|].
    destruct Hcases as [((Hp & Hh & Hhist) & Hs & Hr & He & Hm)
      |[(w1 & url & config & e & Hq & Hg & ->)
      |(w1 & w2 & w3 & url & config & descr & c & rb & Hq & Hg & Hb & Hr & ->)]].
    + rewrite Hs. split; [done|]. intros _. split_and!; try done.
    + cbn. split; [done|]. intros _. split_and!; eauto.
    + destruct rb as [x|e].
      * destruct (invoke_and_wrap_Ok _ _ _ _ _ _ _ _ Hb) as (t & tr & name & Ht & Htk & _ & ->).
        cbn. split; [|done]. intros _. exists c, t, tr, name.
        pose proof (invoke_and_wrap_quiet env sid descr c req w2) as Hq2.
        unfold after in Hq2. rewrite Hb in Hq2. cbn [snd] in Hq2.
        revert Hg Hr. rewrite get_connection_eq, release_connection_eq. cbn zeta.
        destruct Hq as (_ & _ & Hh1). destruct Hq2 as (_ & _ & Hh3).
        intros Hg [= <-]. split_and!; [|done| |done].
        -- assert (history w2 = history w1 ++ [EvGet sid (Some c)]) as Hh2.
           { revert Hg. repeat case_match; intros; simplify_eq; done. }
           case_bool_decide; cbn; by rewrite Hh3, Hh2, Hh1, <- app_assoc.
        -- by case_bool_decide.
      * cbn. split; [done|]. intros _. split_and!; eauto.
  - intros d w1 url c w2 t Hg Hd Ha Hurl Hget Hcon.
    unfold call_tool, try_except.
    unfold mbind at 1. unfold M_bind at 1. rewrite Hg.
    assert (Ht : Py.truthy (PDict d) = true) by (by destruct d).
    rewrite Ht. cbn [negb].
    unfold mbind at 1. unfold M_bind at 1. rewrite Ha. cbn [negb].
    unfold mbind at 1. unfold M_bind at 1. unfold lift at 1. cbn [Py.getitem].
    rewrite Hurl.
    unfold mbind at 1. unfold M_bind at 1. unfold lift at 1. cbn [Py.get].
    unfold mbind at 1. unfold M_bind at 1. rewrite Hget.
    unfold try_finally.
    pose proof (invoke_and_wrap_invoked env sid d c req w2 t Hcon) as Hi.
    destruct (invoke_and_wrap env sid (PDict d) c req w2) as [rb w3]. cbn [fst] in Hi.
    rewrite release_connection_eq. cbn zeta. subst rb.
    by destruct (env_call_tool env t c (tool_name req) (parameters req)).
Qed.

Lemma call_tool_response_shape_witness :
  ∃ failed succeeded,
    (call_tool env_tool_fails "test-user-123" "weather-1" sample_request world_ready).1
    = Ok failed
    ∧ metadata failed = [("server_id", PStr "weather-1")]
    ∧ (call_tool env_fine "test-user-123" "weather-1" sample_request world_ready).1
      = Ok succeeded
    ∧ result_ succeeded = Some (PStr "sunny").
Proof.
  destruct (call_tool_response_shape env_tool_fails "test-user-123" "weather-1"
              sample_request world_ready) as ((failed & Hr & _ & Hf) & _).
  pose (w1 := after (_get_server_config env_fine "weather-1") world_ready).
  pose (w2 := after (get_connection env_fine "weather-1" (PStr "http://localhost:8001/sse")
                       (PDict [])) w1).
  assert (Hg : _get_server_config env_fine "weather-1" world_ready
               = (Ok (PDict [("name", PStr "Weather MCP Server");
                             ("url", PStr "http://localhost:8001/sse");
                             ("config", PDict [])]), w1))
    by (vm_compute; reflexivity).
  assert (Hd : [("name", PStr "Weather MCP Server");
                ("url", PStr "http://localhost:8001/sse"); ("config", PDict [])] ≠ [])
    by discriminate.
  assert (Ha : _user_has_access "test-user-123" "weather-1" w1 = (Ok true, w1))
    by (vm_compute; reflexivity).
  assert (Hget : get_connection env_fine "weather-1" (PStr "http://localhost:8001/sse")
                   (default (PDict []) (Py.assoc "config"
                      [("name", PStr "Weather MCP Server");
                       ("url", PStr "http://localhost:8001/sse"); ("config", PDict [])])) w1
                 = (Ok 0%nat, w2))
    by (vm_compute; reflexivity).
  assert (Hcon : env_is_connected env_fine (ticks w2) 0%nat = true
                 ∧ S (S (ticks w2)) = S (ticks w2)
                 ∨ env_is_connected env_fine (ticks w2) 0%nat = false
                   ∧ env_aenter env_fine (S (ticks w2)) 0%nat = Ok tt
                   ∧ S (S (ticks w2)) = S (S (ticks w2)))
    by (right; split_and!; reflexivity).
  destruct (call_tool_response_shape env_fine "test-user-123" "weather-1"
              sample_request world_ready) as (_ & Hs).
  specialize (Hs _ _ _ _ _ _ Hg Hd Ha eq_refl Hget Hcon).
  exists failed. eexists. split; [exact Hr|]. split.
  - vm_compute in Hr. injection Hr as <-.
    apply Hf; [reflexivity|]. vm_compute. discriminate.
  - split; [exact Hs|]. reflexivity.
Defined.

(** ** C8 *)

(** C8 (the claim fails). Connecting raises a connection error: after the
    call the connection is in the idle list of the provider, and the next
    [get_connection] hands that same connection out. *)
Lemma broken_connection_returns_to_idle :
  let call := call_tool env_refused "test-user-123" "weather-1" sample_request in
  env_aenter env_refused 2 0%nat
  = Raise (Exn "ConnectError" "All connection attempts failed")
  ∧ (call world_ready).1
    = Ok (error_response "weather-1" (Exn "ConnectError" "All connection attempts failed"))
  ∧ idle_of (after call world_ready) "weather-1" = [0%nat]
  ∧ (get_connection env_refused "weather-1" (PStr "http://localhost:8001/sse") (PDict [])
       (after call world_ready)).1 = Ok 0%nat.
Proof. vm_compute. split_and!; done. Qed.

(** C8 (amended). In a pool that is in order, the connection that a call of
    [call_tool] got from the pool is, after the call, the last of the idle
    list of its provider, whether connecting and invoking succeeded or
    raised, and the next [get_connection] for that provider returns it. *)
Theorem failed_connection_is_pooled env N uid sid req w c :
  pool_wf N w →
  let w' := after (call_tool env uid sid req) w in
  EvGet sid (Some c) ∈ drop (length (history w)) (history w') →
  last (idle_of w' sid) = Some c
  ∧ ∀ url config, (get_connection env_refused sid url config w').1 = Ok c.
Proof.
  intros Hwf w'.
  destruct (call_tool_pool env N uid sid req w Hwf) as (resp & _ & Hcases).
  fold w' in Hcases.
  destruct Hcases as [(Hh & Hp & _)|[(Hh & _ & Hv)|(c' & Hh & [rest Hi] & Hout & _ & Hv)]];
    rewrite Hh, ?drop_app_length, ?drop_all; intros Hin; try set_solver.
  assert (c = c') as <- by set_solver.
  split; [by rewrite Hi, last_snoc|]. intros. by eapply get_connection_idle.
Qed.

Lemma failed_connection_is_pooled_witness :
  pool_wf 5 world_ready
  ∧ last (idle_of (after (call_tool env_refused "test-user-123" "weather-1" sample_request)
                     world_ready) "weather-1") = Some 0%nat.
Proof.
  assert (H : pool_wf 5 world_ready).
  { apply reachable_wf. unfold world_ready. apply reach_op. by eapply reach_new. }
  split; [exact H|].
  apply (failed_connection_is_pooled env_refused 5 "test-user-123" "weather-1"
           sample_request world_ready 0%nat H).
  apply list_elem_of_In. vm_compute. left. reflexivity.
Defined.

(** ** C9 *)

(** C9 (the claim fails). The provider answers the probe with 204, a 2xx
    status: the status of the result is "unhealthy". And for a provider the
    pool never made a connection to, the result is an error without any
    probe. *)
Lemma no_content_is_unhealthy :
  let w := after (get_connection env_fine "weather-1" (PStr "http://localhost:8001") (PDict []))
             world_new in
  env_http_get env_fine (ticks w) (GetHealth (PStr "http://localhost:8001") 5)
  = Ok (mkResponse 204 (Raise (Exn "JSONDecodeError" "Expecting value")) 1500)
  ∧ 200 ≤ 204 < 300
  ∧ (health_check env_fine "weather-1" w).1
    = Ok [("status", PStr "unhealthy"); ("status_code", PInt 204)]
  ∧ health_check env_fine "weather-1" world_new
    = (Ok [("status", PStr "error"); ("message", PStr "Server not configured")],
       world_new).
Proof. vm_compute. split_and!; done. Qed.

(** C9 (amended). For a provider whose address the pool recorded at an
    earlier [get_connection], [health_check] sends one GET for the address
    followed by "/health" with a timeout of 5 seconds and returns: status
    "healthy" with the elapsed time when the status code is 200, status
    "unhealthy" with the status code for every other code, status "error"
    with the text of the exception when the request raises. For a provider
    not recorded it returns status "error", "Server not configured",
    without a request. *)
Theorem health_check_status env sid w :
  match _server_configs (pool w) !! sid with
  | None =>
      health_check env sid w =
      (Ok [("status", PStr "error"); ("message", PStr "Server not configured")], w)
  | Some (url, _) =>
      match env_http_get env (ticks w) (GetHealth url 5) with
      | Raise e =>
          (health_check env sid w).1 =
          Ok [("status", PStr "error"); ("message", PStr (str_exn e))]
      | Ok response =>
          (health_check env sid w).1 =
          Ok (if status_code response =? 200
              then [("status", PStr "healthy");
                    ("response_time", PFloat (elapsed response))]
              else [("status", PStr "unhealthy");
                    ("status_code", PInt (status_code response))])
      end
  end.
Proof.
  unfold health_check, last_health_check_setitem, http_get, utcnow. unfold_M. cbn.
  destruct (_server_configs (pool w) !! sid) as [[url cfg]|]; cbn; [|done].
  destruct (env_http_get env (ticks w) _) as [response|e]; cbn; [|done].
  by destruct (status_code response =? 200).
Qed.

(** ** C10 *)

(** C10. In every world that calls can lead to, the idle list and the
    active set of every provider are disjoint and no idle list holds a
    connection twice; [get_connection], [release_connection] and
    [close_all_connections] keep this; and releasing a connection that is
    not active leaves the idle list and the active set of every provider as
    they were. *)
Theorem pool_invariant :
  (∀ N w, reachable N w → pool_inv w)
  ∧ (∀ w, pool_inv w →
      (∀ env sid url config, pool_inv (after (get_connection env sid url config) w))
      ∧ (∀ sid c, pool_inv (after (release_connection sid c) w))
      ∧ (∀ sid c, c ∉ active_of w sid →
           let w' := after (release_connection sid c) w in
           _pools (pool w') = _pools (pool w) ∧
           ∀ s, idle_of w' s = idle_of w s ∧ active_of w' s = active_of w s)
      ∧ (∀ sid, pool_inv (after (close_all_connections sid) w))).
Proof.
  split.
  - intros N w Hr. by destruct (reachable_wf N w Hr) as (_ & ? & _).
  - intros w Hinv. split_and!; intros.
    + by apply get_connection_inv.
    + by apply release_connection_inv.
    + by apply release_inactive.
    + by apply close_all_connections_inv.
Qed.

Lemma pool_invariant_witness :
  pool_inv world_full
  ∧ pool_inv (after (release_connection "weather-1" 0%nat) world_full)
  ∧ idle_of (after (release_connection "weather-1" 7%nat) world_full) "weather-1"
    = idle_of world_full "weather-1".
Proof.
  assert (H : pool_inv world_full).
  { apply (proj1 pool_invariant 2). unfold world_full.
    do 2 apply reach_op. by eapply reach_new. }
  split; [exact H|].
  destruct (proj2 pool_invariant world_full H) as (_ & Hrel & Hno & _).
  split; [apply Hrel|].
  apply (Hno "weather-1" 7%nat). vm_compute. intros Hin. discriminate Hin.
Defined.

(** * Further properties *)

(** ** Reuse of connections *)

(** X1. Releasing an active connection and asking again for the same
    provider gives that connection back: no object is made, and the idle
    list and the active set of every provider are what they were before
    the release. *)
Theorem release_then_get_reuses env sid c w url config :
  c ∈ active_of w sid →
  let w1 := after (release_connection sid c) w in
  let w2 := after (get_connection env sid url config) w1 in
  (get_connection env sid url config w1).1 = Ok c
  ∧ heap w2 = heap w
  ∧ ∀ s, idle_of w2 s = idle_of w s ∧ active_of w2 s = active_of w s.
Proof.
  intros Hin w1 w2.
  destruct (release_connection_active sid c w w1 Hin (release_connection_run _ _ _))
    as (_ & Hi1 & Ha1 & Ho1).
  assert (Hh1 : heap w1 = heap w).
  { unfold w1, after. rewrite release_connection_eq. cbn zeta. by case_bool_decide. }
  subst w2. unfold after. rewrite get_connection_eq. cbn zeta.
  rewrite Hi1, pop_snoc. cbn [fst snd]. split_and!; [done|done|].
  intros s. rewrite idle_of_set, active_of_set, !default_insert.
  case_decide as Hs; [subst s|by apply Ho1].
  split; [done|]. rewrite Ha1. apply set_eq. intros x.
  rewrite elem_of_union, elem_of_difference, elem_of_singleton.
  destruct (decide (x = c)); naive_solver.
Qed.

Lemma release_then_get_reuses_witness :
  0%nat ∈ active_of world_full "weather-1"
  ∧ (get_connection env_fine "weather-1" PNone PNone
       (after (release_connection "weather-1" 0%nat) world_full)).1 = Ok 0%nat.
Proof.
  assert (H : 0%nat ∈ active_of world_full "weather-1") by (vm_compute; reflexivity).
  split; [exact H|].
  destruct (release_then_get_reuses env_fine "weather-1" 0%nat world_full PNone PNone H)
    as (Hr & _).
  exact Hr.
Defined.

(** X2. The idle list is a stack: of two connections released one after
    the other, the next call gets the one released last and the call after
    it the one released first. *)
Theorem released_last_is_next env sid c1 c2 w url config :
  c1 ∈ active_of w sid → c2 ∈ active_of w sid → c1 ≠ c2 →
  let w1 := after (release_connection sid c2)
              (after (release_connection sid c1) w) in
  (get_connection env sid url config w1).1 = Ok c2
  ∧ (get_connection env sid url config (after (get_connection env sid url config) w1)).1 = Ok c1.
Proof.
  intros H1 H2 Hne w1.
  destruct (release_connection_active sid c1 w _ H1 (release_connection_run _ _ _))
    as (_ & Hi1 & Ha1 & _).
  assert (H2' : c2 ∈ active_of (after (release_connection sid c1) w) sid).
  { rewrite Ha1. set_solver. }
  destruct (release_connection_active sid c2 _ _ H2' (release_connection_run _ _ _))
    as (_ & Hi2 & _ & _).
  fold w1 in Hi2. rewrite Hi1 in Hi2.
  split; [by eapply get_connection_idle|].
  eapply get_connection_idle. unfold after. rewrite get_connection_eq. cbn zeta.
  rewrite Hi2, pop_snoc. cbn [snd]. rewrite idle_of_set, default_insert, decide_True by done.
  done.
Qed.

Lemma released_last_is_next_witness :
  0%nat ∈ active_of world_full "weather-1" ∧ 1%nat ∈ active_of world_full "weather-1"
  ∧ (get_connection env_fine "weather-1" PNone PNone
       (after (release_connection "weather-1" 1%nat)
          (after (release_connection "weather-1" 0%nat) world_full))).1 = Ok 1%nat.
Proof.
  assert (H0 : 0%nat ∈ active_of world_full "weather-1") by (vm_compute; reflexivity).
  assert (H1 : 1%nat ∈ active_of world_full "weather-1") by (vm_compute; reflexivity).
  split; [exact H0|]. split; [exact H1|].
  assert (Hne : 0%nat ≠ 1%nat) by discriminate.
  destruct (released_last_is_next env_fine "weather-1" 0%nat 1%nat world_full PNone PNone
              H0 H1 Hne) as (Hr & _).
  exact Hr.
Defined.

(** ** Closing *)

Lemma keys_inv_maps w w' :
  _pools (pool w') = _pools (pool w) →
  (∀ s, active_of w' s = active_of w s) →
  keys_inv w → keys_inv w'.
Proof. intros Hp Ha Hk s. rewrite Ha, Hp. apply Hk. Qed.

Lemma quiet_keys w w' : quiet w w' → keys_inv w → keys_inv w'.
Proof.
  intros (Hp & _). apply keys_inv_maps; [by rewrite Hp|].
  intros s. unfold active_of. by rewrite Hp.
Qed.

Lemma keys_inv_set w sid idle' act' cfgs h hist :
  keys_inv w →
  keys_inv (set_pool_maps (<[sid := idle']> (_pools (pool w)))
              (<[sid := act']> (_active_connections (pool w))) cfgs h hist w).
Proof.
  intros Hk s. rewrite active_of_set, default_insert. cbn.
  rewrite lookup_insert. case_decide; [done|apply Hk].
Qed.

Lemma get_connection_keys env sid url config w :
  keys_inv w → keys_inv (after (get_connection env sid url config) w).
Proof.
  intros Hk. unfold after. rewrite get_connection_eq. cbn zeta.
  repeat case_match; cbn [snd]; by apply keys_inv_set.
Qed.

Lemma release_connection_keys sid c w :
  keys_inv w → keys_inv (after (release_connection sid c) w).
Proof.
  intros Hk. unfold after. rewrite release_connection_eq. cbn zeta. cbn [snd].
  case_bool_decide; [by apply keys_inv_set|].
  revert Hk. apply keys_inv_maps; [done|].
  intros s. rewrite active_of_set, default_insert. by case_decide; subst.
Qed.

Lemma for_each_close_keys l w :
  keys_inv w → keys_inv (after (for_each l close_server) w).
Proof.
  revert w. induction l as [|sid l IH]; intros w Hk; [done|].
  unfold after in *. cbn. unfold mbind, M_bind. rewrite close_server_eq.
  by apply IH, keys_inv_set.
Qed.

Lemma close_all_connections_keys sid w :
  keys_inv w → keys_inv (after (close_all_connections sid) w).
Proof.
  intros Hk. unfold after, close_all_connections, traced, with_lock.
  unfold mbind, M_bind, get_pool.
  match goal with |- context [for_each ?l close_server w] =>
    pose proof (for_each_close_keys l w Hk) as H1; unfold after in H1;
    destruct (for_each l close_server w) as [r w1] end.
  cbn [snd] in *. revert H1. by apply keys_inv_maps.
Qed.

Lemma health_check_frame env sid w :
  let w' := after (health_check env sid) w in
  (∃ r, (health_check env sid w).1 = Ok r)
  ∧ _pools (pool w') = _pools (pool w)
  ∧ _active_connections (pool w') = _active_connections (pool w)
  ∧ _server_configs (pool w') = _server_configs (pool w)
  ∧ heap w' = heap w ∧ history w' = history w
  ∧ _server_cache (manager w') = _server_cache (manager w)
  ∧ _last_cache_update (manager w') = _last_cache_update (manager w)
  ∧ _user_servers (manager w') = _user_servers (manager w)
  ∧ (∀ s, s ≠ sid →
       _last_health_check (pool w') !! s = _last_health_check (pool w) !! s)
  ∧ match _server_configs (pool w) !! sid with
    | None => w' = w
    | Some (url, _) =>
        match env_http_get env (ticks w) (GetHealth url 5) with
        | Ok _ => _last_health_check (pool w') !! sid = Some (env_utcnow env (S (ticks w)))
        | Raise _ => _last_health_check (pool w') = _last_health_check (pool w)
        end
    end.
Proof.
  unfold after, health_check, last_health_check_setitem, utcnow, http_get.
  unfold_M. cbn.
  destruct (_server_configs (pool w) !! sid) as [[url cfg]|] eqn:Hc; cbn.
  2:{ split_and!; eauto. }
  destruct (env_http_get env (ticks w) _) as [response|e]; cbn.
  - destruct (status_code response =? 200); cbn; split_and!; eauto;
      try (by rewrite lookup_insert_eq); intros s Hs; by rewrite lookup_insert_ne.
  - split_and!; eauto.
Qed.

Lemma health_check_keys env sid w :
  keys_inv w → keys_inv (after (health_check env sid) w).
Proof.
  destruct (health_check_frame env sid w) as (_ & Hp & Ha & _).
  apply keys_inv_maps; [done|]. intros s. unfold active_of. by rewrite Ha.
Qed.

Lemma call_tool_keys env uid sid req w :
  keys_inv w → keys_inv (after (call_tool env uid sid req) w).
Proof.
  intros Hk. unfold after.
  destruct (call_tool env uid sid req w) as [r w'] eqn:Hc.
  destruct (call_tool_cases _ _ _ _ _ _ _ Hc) as (resp & -> & Hcases). cbn [snd].
  destruct Hcases as [(Hq & _)|[(w1 & url & config & e & Hq & Hg & _)
    |(w1 & w2 & w3 & url & config & descr & c & rb & Hq & Hg & Hb & Hr & _)]].
  - by eapply quiet_keys.
  - pose proof (get_connection_keys env sid url config w1 (quiet_keys _ _ Hq Hk)) as H.
    unfold after in H. by rewrite Hg in H.
  - pose proof (get_connection_keys env sid url config w1 (quiet_keys _ _ Hq Hk)) as H.
    unfold after in H. rewrite Hg in H. cbn [snd] in H.
    pose proof (invoke_and_wrap_quiet env sid descr c req w2) as Hq2.
    unfold after in Hq2. rewrite Hb in Hq2. cbn [snd] in Hq2.
    pose proof (release_connection_keys sid c w3 (quiet_keys _ _ Hq2 H)) as H3.
    unfold after in H3. by rewrite Hr in H3.
Qed.

Lemma keys_inv_closed : pool_closed keys_inv.
Proof.
  split_and!.
  - intros w w'. apply quiet_keys.
  - intros. by apply get_connection_keys.
  - intros. by apply release_connection_keys.
Qed.

Lemma run_op_keys env o w : keys_inv w → keys_inv (run_op env o w).
Proof.
  destruct o; cbn.
  - apply get_connection_keys.
  - apply release_connection_keys.
  - apply close_all_connections_keys.
  - apply health_check_keys.
  - intros. eapply quiet_keys; [apply initialize_user_servers_quiet|done].
  - intros. eapply quiet_keys; [apply get_server_config_quiet|done].
  - apply call_tool_keys.
  - apply batch_keeps, keys_inv_closed.
Qed.

Lemma reachable_keys N w : reachable N w → keys_inv w.
Proof.
  induction 1 as [m t Hp|env o w _ IH]; [|by apply run_op_keys].
  intros sid. unfold active_of, pool. cbn. rewrite Hp. cbn. by rewrite lookup_empty.
Qed.

Lemma for_each_close_views l w :
  let w' := after (for_each l close_server) w in
  heap w' = heap w ∧ ticks w' = ticks w ∧ history w' = history w
  ∧ ∀ s, (s ∈ l → idle_of w' s = [] ∧ active_of w' s = ∅)
       ∧ (s ∉ l → idle_of w' s = idle_of w s ∧ active_of w' s = active_of w s).
Proof.
  revert w. induction l as [|sid l IH]; intros w; cbn zeta.
  - split_and!; try done. intros s. split; [set_solver|done].
  - unfold after in *. cbn. unfold mbind, M_bind. rewrite close_server_eq.
    match goal with |- context [for_each l close_server ?w1] =>
      destruct (IH w1) as (Hh & Ht & Hhist & Hv) end.
    rewrite Hh, Ht, Hhist. split_and!; try done.
    intros s. destruct (Hv s) as [Hin Hout]. split.
    + intros Hs. destruct (decide (s ∈ l)) as [Hl|Hl]; [by apply Hin|].
      destruct (Hout Hl) as [-> ->]. assert (s = sid) as -> by set_solver.
      by rewrite idle_of_set, active_of_set, !default_insert, !decide_True.
    + intros Hs. destruct Hout as [-> ->]; [set_solver|].
      rewrite idle_of_set, active_of_set, !default_insert, !decide_False by set_solver.
      done.
Qed.

Lemma close_all_connections_views arg w :
  let l := match arg with
           | Some sid => if Py.truthy (PStr sid) then [sid]
                         else (map_to_list (_pools (pool w))).*1
           | None => (map_to_list (_pools (pool w))).*1
           end in
  let w' := after (close_all_connections arg) w in
  heap w' = heap w ∧ ticks w' = ticks w
  ∧ history w' = history w ++ [EvCloseAll arg]
  ∧ ∀ s, (s ∈ l → idle_of w' s = [] ∧ active_of w' s = ∅)
       ∧ (s ∉ l → idle_of w' s = idle_of w s ∧ active_of w' s = active_of w s).
Proof.
  intros l. unfold after, close_all_connections, traced, with_lock.
  unfold mbind, M_bind, get_pool. fold l.
  destruct (for_each_close_views l w) as (Hh & Ht & Hhist & Hv). unfold after in *.
  destruct (for_each l close_server w) as [r w1]. cbn [snd] in *.
  rewrite Hhist. split_and!; try done.
Qed.

Lemma elem_of_keys (ps : gmap string (list Client)) s :
  s ∈ (map_to_list ps).*1 ↔ is_Some (ps !! s).
Proof.
  rewrite list_elem_of_fmap. split.
  - intros ([k v] & -> & Hin). apply elem_of_map_to_list in Hin. by eexists.
  - intros [v Hv]. exists (s, v). split; [done|]. by apply elem_of_map_to_list.
Qed.

(** X3. In every world that calls can lead to, [close_all_connections]
    without a provider (or with the empty string, which counts as none)
    leaves every provider with an empty idle list and an empty active set,
    without touching a client or the outside; a connection handed out
    before it is not taken back by a later release. *)
Theorem close_all_empties_every_provider N w arg :
  reachable N w →
  arg = None ∨ arg = Some EmptyString →
  let w' := after (close_all_connections arg) w in
  (∀ s, idle_of w' s = [] ∧ active_of w' s = ∅)
  ∧ heap w' = heap w ∧ ticks w' = ticks w
  ∧ ∀ sid c s, idle_of (after (release_connection sid c) w') s = []
               ∧ active_of (after (release_connection sid c) w') s = ∅.
Proof.
  intros Hr Harg w'. pose proof (reachable_keys N w Hr) as Hk.
  destruct (close_all_connections_views arg w) as (Hh & Ht & _ & Hv). fold w' in Hh, Ht, Hv.
  assert (Hl : match arg with
               | Some sid => if Py.truthy (PStr sid) then [sid]
                             else (map_to_list (_pools (pool w))).*1
               | None => (map_to_list (_pools (pool w))).*1
               end = (map_to_list (_pools (pool w))).*1) by (by destruct Harg as [-> | ->]).
  rewrite Hl in Hv. clear Hl.
  assert (Hall : ∀ s, idle_of w' s = [] ∧ active_of w' s = ∅).
  { intros s. destruct (Hv s) as [Hin Hout].
    destruct (_pools (pool w) !! s) as [l|] eqn:Hp.
    - apply Hin. apply elem_of_keys. by rewrite Hp.
    - destruct Hout as [-> ->].
      { rewrite elem_of_keys, Hp. by intros [? ?]. }
      split; [unfold idle_of; by rewrite Hp|].
      destruct (decide (active_of w s = ∅)) as [|Hne]; [done|].
      destruct (Hk s Hne) as [? ?]. congruence. }
  split_and!; try done.
  intros sid c s.
  destruct (release_inactive sid c w') as [_ Hrel].
  { destruct (Hall sid) as [_ ->]. set_solver. }
  destruct (Hrel s) as [-> ->]. apply Hall.
Qed.

Lemma close_all_empties_every_provider_witness :
  reachable 2 world_full
  ∧ active_of (after (close_all_connections None) world_full) "weather-1" = ∅
  ∧ idle_of (after (release_connection "weather-1" 0%nat)
               (after (close_all_connections None) world_full)) "weather-1" = [].
Proof.
  assert (H : reachable 2 world_full).
  { unfold world_full. do 2 apply reach_op. by eapply reach_new. }
  split; [exact H|].
  destruct (close_all_empties_every_provider 2 world_full None H (or_introl eq_refl))
    as (Hall & _ & _ & Hrel).
  split; [apply Hall|apply Hrel].
Defined.

(** X4. [close_all_connections] with a provider empties the idle list and
    the active set of that provider and leaves those of every other
    provider, the heap and the outside alone. *)
Theorem close_all_one_provider sid w :
  sid ≠ EmptyString →
  let w' := after (close_all_connections (Some sid)) w in
  idle_of w' sid = [] ∧ active_of w' sid = ∅
  ∧ (∀ s, s ≠ sid → idle_of w' s = idle_of w s ∧ active_of w' s = active_of w s)
  ∧ heap w' = heap w ∧ ticks w' = ticks w.
Proof.
  intros Hne w'.
  destruct (close_all_connections_views (Some sid) w) as (Hh & Ht & _ & Hv).
  fold w' in Hh, Ht, Hv. cbn in Hv.
  assert (negb (String.eqb sid EmptyString) = true) as Htr.
  { apply negb_true_iff, String.eqb_neq. done. }
  rewrite Htr in Hv. split_and!; try done.
  - apply Hv. set_solver.
  - apply Hv. set_solver.
  - intros s Hs. apply Hv. set_solver.
Qed.

Lemma close_all_one_provider_witness :
  "weather-1" ≠ EmptyString
  ∧ active_of (after (close_all_connections (Some "weather-1")) world_full) "weather-1" = ∅.
Proof.
  assert (H : "weather-1" ≠ EmptyString) by discriminate.
  split; [exact H|].
  destruct (close_all_one_provider "weather-1" world_full H) as (_ & Ha & _).
  exact Ha.
Defined.

(** ** The health probe and the recorded address *)

Lemma get_connection_ticks env sid url config w :
  ticks (after (get_connection env sid url config) w) = ticks w.
Proof. unfold after. rewrite get_connection_eq. cbn zeta. by repeat case_match. Qed.

Lemma get_connection_records env sid url config w :
  _server_configs (pool (after (get_connection env sid url config) w)) !! sid
  = Some (url, config).
Proof.
  unfold after. rewrite get_connection_eq. cbn zeta.
  repeat case_match; cbn; by rewrite lookup_insert_eq.
Qed.

(** X5. [get_connection] records the address it was called with, whether
    it returns or raises and without any interaction with the outside, and
    the next [health_check] of the provider probes that address. *)
Theorem health_check_probes_last_address env sid url config w :
  let w1 := after (get_connection env sid url config) w in
  ticks w1 = ticks w
  ∧ _server_configs (pool w1) !! sid = Some (url, config)
  ∧ (health_check env sid w1).1 =
    Ok match env_http_get env (ticks w) (GetHealth url 5) with
       | Ok response =>
           if status_code response =? 200
           then [("status", PStr "healthy"); ("response_time", PFloat (elapsed response))]
           else [("status", PStr "unhealthy"); ("status_code", PInt (status_code response))]
       | Raise e => [("status", PStr "error"); ("message", PStr (str_exn e))]
       end.
Proof.
  intros w1. pose proof (get_connection_ticks env sid url config w) as Ht.
  pose proof (get_connection_records env sid url config w) as Hc. fold w1 in Ht, Hc.
  split_and!; try done.
  unfold health_check, last_health_check_setitem, http_get, utcnow. unfold_M. cbn.
  rewrite Hc, Ht. cbn.
  destruct (env_http_get env (ticks w) _) as [response|e]; cbn; [|done].
  by destruct (status_code response =? 200).
Qed.

(** X6. [health_check] never raises and changes nothing but
    [_last_health_check]: idle lists, active sets, recorded addresses, the
    heap, the descriptor cache and the users' lists stay. The time of the
    check is stored for the provider exactly when the request was answered,
    with whatever status; for a provider without a recorded address the
    world is left as it is. *)
Theorem health_check_only_stamps env sid w :
  let w' := after (health_check env sid) w in
  (∃ r, (health_check env sid w).1 = Ok r)
  ∧ (∀ s, idle_of w' s = idle_of w s ∧ active_of w' s = active_of w s)
  ∧ _server_configs (pool w') = _server_configs (pool w)
  ∧ heap w' = heap w ∧ history w' = history w
  ∧ _server_cache (manager w') = _server_cache (manager w)
  ∧ _user_servers (manager w') = _user_servers (manager w)
  ∧ (∀ s, s ≠ sid →
       _last_health_check (pool w') !! s = _last_health_check (pool w) !! s)
  ∧ match _server_configs (pool w) !! sid with
    | None => w' = w
    | Some (url, _) =>
        match env_http_get env (ticks w) (GetHealth url 5) with
        | Ok _ => _last_health_check (pool w') !! sid = Some (env_utcnow env (S (ticks w)))
        | Raise _ => _last_health_check (pool w') = _last_health_check (pool w)
        end
    end.
Proof.
  intros w'.
  destruct (health_check_frame env sid w)
    as (Hr & Hp & Ha & Hc & Hh & Hhist & Hsc & _ & Hu & Ho & Hm).
  fold w' in Hp, Ha, Hc, Hh, Hhist, Hsc, Hu, Ho, Hm.
  split_and!; try done.
  intros s. unfold idle_of, active_of. by rewrite Hp, Ha.
Qed.

(** X7. When a connection must be made for a dict config, the constructor
    of the client is called with the address passed and, as auth, the value
    of "auth" when that value is truthy and with no auth otherwise (key
    missing, or None, empty string, empty dict, zero, False). When the
    constructor returns, that client is handed out; when it raises, its
    exception comes out and no client is made. *)
Theorem new_connection_auth env N sid url d w :
  pool_wf N w →
  idle_of w sid = [] → Z.of_nat (size (active_of w sid)) < N →
  let c := length (heap w) in
  let w' := after (get_connection env sid url (PDict d)) w in
  match env_Client env (ticks w) url (auth_of d) with
  | Ok _ =>
      (get_connection env sid url (PDict d) w).1 = Ok c
      ∧ heap w' = heap w ++ [mkClientObj url (auth_of d)]
  | Raise e =>
      (get_connection env sid url (PDict d) w).1 = Raise e ∧ heap w' = heap w
  end.
Proof.
  intros (Hmx & _) Hi Hlt. cbn zeta. unfold after. rewrite get_connection_eq. cbn zeta.
  rewrite Hi, Hmx. cbn [pop last]. apply Z.ltb_lt in Hlt. rewrite Hlt.
  rewrite create_outcome_dict.
  by destruct (env_Client env (ticks w) url (auth_of d)) as [[]|e].
Qed.

Lemma new_connection_auth_witness :
  pool_wf 5 world_new
  ∧ heap (after (get_connection env_fine "weather-1" (PStr "http://localhost:8001/sse")
                   (PDict [("auth", PStr EmptyString)])) world_new)
    = [mkClientObj (PStr "http://localhost:8001/sse") None]
  ∧ (get_connection env_fine "weather-1" (PStr "not a url")
       (PDict [("auth", PStr "token")]) world_new).1
    = Raise (Exn "ValueError" "Could not infer a valid transport from: not a url").
Proof.
  assert (H : pool_wf 5 world_new) by (apply reachable_wf; by eapply reach_new).
  split; [exact H|].
  assert (Hi : idle_of world_new "weather-1" = []) by (vm_compute; reflexivity).
  assert (Hs : Z.of_nat (size (active_of world_new "weather-1")) < 5)
    by (vm_compute; reflexivity).
  pose proof (new_connection_auth env_fine 5 "weather-1" (PStr "http://localhost:8001/sse")
                [("auth", PStr EmptyString)] world_new H Hi Hs) as H1.
  pose proof (new_connection_auth env_fine 5 "weather-1" (PStr "not a url")
                [("auth", PStr "token")] world_new H Hi Hs) as H2.
  split; [exact (proj2 H1)|exact (proj1 H2)].
Defined.

(** X8. A [get_connection] that raises leaves the heap, the idle list and
    the active set of every provider as they were and has talked to nobody,
    but has recorded the address. It raises a TypeError when it must make a
    connection and the config is None, a bool or a number; with an idle
    connection at hand the config is not looked at. *)
Theorem get_connection_failure_keeps_pool env sid url config w :
  let w' := after (get_connection env sid url config) w in
  (∀ e, (get_connection env sid url config w).1 = Raise e →
     heap w' = heap w ∧ ticks w' = ticks w
     ∧ (∀ s, idle_of w' s = idle_of w s ∧ active_of w' s = active_of w s)
     ∧ history w' = history w ++ [EvGet sid None]
     ∧ _server_configs (pool w') !! sid = Some (url, config))
  ∧ (idle_of w sid = [] →
     Z.of_nat (size (active_of w sid)) < max_connections_per_server (pool w) →
     not_iterable config = true →
     ∃ msg, (get_connection env sid url config w).1 = Raise (Exn "TypeError" msg))
  ∧ (∀ c rest, idle_of w sid = rest ++ [c] →
     (get_connection env sid url config w).1 = Ok c).
Proof.
  intros w'. split_and!.
  - intros e He.
    destruct (get_connection env sid url config w) as [r w2] eqn:Hg. cbn in He. subst r.
    pose proof (get_connection_ticks env sid url config w) as Ht.
    pose proof (get_connection_records env sid url config w) as Hc.
    destruct (get_connection_Raise _ _ _ _ _ _ _ Hg) as [Hh Hv].
    unfold w', after in *. rewrite Hg in *. cbn [snd] in *. split_and!; try done.
    revert Hg. rewrite get_connection_eq. cbn zeta.
    repeat case_match; intros [= <- <-]; done.
  - intros Hi Hlt Hcfg. rewrite get_connection_eq. cbn zeta.
    rewrite Hi. cbn [pop last]. apply Z.ltb_lt in Hlt. rewrite Hlt.
    destruct config; try done; cbn; eauto.
  - intros c rest Hi. by eapply get_connection_idle.
Qed.

Lemma get_connection_failure_keeps_pool_witness :
  ∃ msg, (get_connection env_fine "weather-1" (PStr "http://localhost:8001/sse") PNone
            world_new).1 = Raise (Exn "TypeError" msg).
Proof.
  destruct (get_connection_failure_keeps_pool env_fine "weather-1"
              (PStr "http://localhost:8001/sse") PNone world_new) as (_ & Hc & _).
  apply Hc; vm_compute; reflexivity.
Defined.

(** ** Loading a user's list and checking access *)

Lemma any_enabled_existsb sid l :
  Forall is_entry l → any_enabled sid l = Ok (existsb (enables sid) l).
Proof.
  induction 1 as [|s l (d & -> & [v Hv]) _ IH]; [done|].
  cbn. unfold enables at 1. cbn. rewrite Hv. cbn.
  destruct (Py.is_str sid v); cbn; [|done].
  destruct (Py.truthy _); cbn; [done|apply IH].
Qed.

Lemma initialize_user_servers_eq env uid w :
  initialize_user_servers env uid w =
  let w1 := tick w in
  match env_http_get env (ticks w) (GetUserServers (registry_url (manager w)) uid true) with
  | Raise e => (Raise e, w1)
  | Ok response =>
      if status_code response =? 200
      then match json response with
           | Ok data =>
               (Ok true,
                with_manager
                  (mkManager (registry_url (manager w)) (connection_pool (manager w))
                     (_server_cache (manager w)) (_cache_ttl (manager w))
                     (_last_cache_update (manager w))
                     (<[uid := data]> (_user_servers (manager w)))) w1)
           | Raise e => (Raise e, w1)
           end
      else (Ok false, w1)
  end.
Proof.
  unfold initialize_user_servers, http_get, tick. unfold_M. cbn.
  repeat case_match; simplify_eq; done.
Qed.

(** X9. When the registry answers the list request with 200 and a list of
    entries that are dicts with a "server_id", [initialize_user_servers]
    returns [True], and the access check of that user for a provider then
    says whether some entry names the provider with a truthy "enabled" (an
    entry without "enabled" does not count). The lists of other users, the
    pool, the heap and the history of the pool are untouched. *)
Theorem access_after_load env uid sid w response l :
  env_http_get env (ticks w) (GetUserServers (registry_url (manager w)) uid true)
  = Ok response →
  status_code response = 200 → json response = Ok (PList l) → Forall is_entry l →
  let w' := after (initialize_user_servers env uid) w in
  (initialize_user_servers env uid w).1 = Ok true
  ∧ _user_has_access uid sid w' = (Ok (existsb (enables sid) l), w')
  ∧ (∀ u, u ≠ uid → _user_servers (manager w') !! u = _user_servers (manager w) !! u)
  ∧ quiet w w'.
Proof.
  intros Hget Hst Hj Hl w'. subst w'. unfold after.
  rewrite initialize_user_servers_eq. cbn zeta. rewrite Hget, Hst, Hj. cbn.
  split_and!; try done.
  - unfold _user_has_access. unfold_M. cbn. rewrite lookup_insert_eq. cbn.
    by rewrite any_enabled_existsb.
  - intros u Hu. by rewrite lookup_insert_ne.
Qed.

Lemma access_after_load_witness :
  _user_has_access "test-user-123" "weather-1"
    (after (initialize_user_servers env_fine "test-user-123") world_new)
  = (Ok true, after (initialize_user_servers env_fine "test-user-123") world_new).
Proof.
  assert (Hl : Forall is_entry
                 [PDict [("server_id", PStr "weather-1"); ("enabled", PBool true)]]).
  { constructor; [|constructor]. eexists. split; [reflexivity|]. by eexists. }
  destruct (access_after_load env_fine "test-user-123" "weather-1" world_new
              (ok_response user_list) _ eq_refl eq_refl eq_refl Hl) as (_ & Ha & _).
  exact Ha.
Defined.

(** X10. A list request that is answered with another status than 200
    makes [initialize_user_servers] return [False], one that raises lets
    the exception out; in both cases nothing but the count of interactions
    changes, so the access check answers as before. *)
Theorem failed_load_keeps_list env uid w :
  match env_http_get env (ticks w) (GetUserServers (registry_url (manager w)) uid true) with
  | Ok response =>
      status_code response ≠ 200 →
      initialize_user_servers env uid w = (Ok false, tick w)
  | Raise e => initialize_user_servers env uid w = (Raise e, tick w)
  end
  ∧ ∀ sid, (_user_has_access uid sid (tick w)).1 = (_user_has_access uid sid w).1.
Proof.
  split.
  - rewrite initialize_user_servers_eq. cbn zeta.
    destruct (env_http_get env (ticks w) _) as [response|e]; [|done].
    intros Hne. apply Z.eqb_neq in Hne. by rewrite Hne.
  - intros sid. unfold _user_has_access. unfold_M. cbn. by repeat case_match.
Qed.

Lemma failed_load_keeps_list_witness :
  initialize_user_servers env_outage "test-user-123" (tick world_new)
  = (Ok false, tick (tick world_new)).
Proof.
  destruct (failed_load_keeps_list env_outage "test-user-123" (tick world_new))
    as (H & _).
  apply H. vm_compute. discriminate.
Defined.

(** X11. The access check stops at the first entry that enables the
    provider: what follows it in the list is not looked at, also when it is
    malformed. When it comes to an entry whose "server_id" cannot be read
    before any entry that enables the provider, the check raises. *)
Theorem access_short_circuits uid sid w l1 s l2 :
  _user_servers (manager w) !! uid = Some (PList (l1 ++ s :: l2)) →
  Forall (λ x, is_entry x ∧ enables sid x = false) l1 →
  (is_entry s → enables sid s = true → _user_has_access uid sid w = (Ok true, w))
  ∧ (∀ e, Py.getitem s "server_id" = Raise e → _user_has_access uid sid w = (Raise e, w)).
Proof.
  intros Hu Hl1. unfold _user_has_access. unfold_M. cbn. rewrite Hu. cbn. clear Hu.
  assert (Hpre : ∀ r, any_enabled sid (s :: l2) = r → any_enabled sid (l1 ++ s :: l2) = r).
  { intros r Hr. induction Hl1 as [|x l [(d & -> & [v Hv]) Hen] _ IH]; [exact Hr|].
    clear Hr. unfold enables in Hen. cbn in Hen |- *. rewrite Hv in *. cbn.
    destruct (Py.is_str sid v); cbn in *; [|done].
    destruct (Py.assoc "enabled" d) as [e|]; cbn in *; [|done]. by rewrite Hen. }
  split.
  - intros (d & -> & [v Hv]) Hen. rewrite (Hpre (Ok true)); [done|].
    cbn. unfold enables in Hen. cbn in Hen |- *. rewrite Hv in *. cbn.
    apply andb_true_iff in Hen as [-> ->]. done.
  - intros e He. rewrite (Hpre (Raise e)); [done|]. cbn. by rewrite He.
Qed.

Lemma access_short_circuits_witness :
  _user_has_access "test-user-123" "weather-1" world_ready = (Ok true, world_ready).
Proof.
  assert (Hu : _user_servers (manager world_ready) !! "test-user-123"
               = Some (PList ([] ++ PDict [("server_id", PStr "weather-1");
                                           ("enabled", PBool true)] :: [])))
    by (vm_compute; reflexivity).
  assert (Hn : Forall (λ x, is_entry x ∧ enables "weather-1" x = false) [])
    by constructor.
  destruct (access_short_circuits "test-user-123" "weather-1" world_ready [] _ [] Hu Hn)
    as (H & _).
  apply H; [|reflexivity]. eexists. split; [reflexivity|]. by eexists.
Defined.

(** ** The ways [call_tool] ends before it holds a connection *)

Lemma call_tool_prefix env uid sid req w :
  call_tool env uid sid req w =
  match _get_server_config env sid w with
  | (Raise e, w1) => (Ok (error_response sid e), w1)
  | (Ok descr, w1) =>
      if Py.truthy descr
      then match _user_has_access uid sid w1 with
           | (Raise e, w2) => (Ok (error_response sid e), w2)
           | (Ok false, w2) => (Ok (access_denied uid sid), w2)
           | (Ok true, w2) =>
               match Py.getitem descr "url" with
               | Raise e => (Ok (error_response sid e), w2)
               | Ok url =>
                   match Py.get descr "config" (PDict []) with
                   | Raise e => (Ok (error_response sid e), w2)
                   | Ok config =>
                       match get_connection env sid url config w2 with
                       | (Raise e, w3) => (Ok (error_response sid e), w3)
                       | (Ok c, w3) =>
                           let '(rb, w4) := invoke_and_wrap env sid descr c req w3 in
                           (Ok match rb with
                               | Ok resp => resp
                               | Raise e => error_response sid e
                               end,
                            after (release_connection sid c) w4)
                       end
                   end
               end
           end
      else (Ok (not_found sid), w1)
  end.
Proof.
  unfold call_tool, try_except, error_response, access_denied, not_found.
  unfold mbind at 1. unfold M_bind at 1.
  destruct (_get_server_config env sid w) as [[descr|e] w1]; [|done].
  destruct (Py.truthy descr); cbn [negb]; [|done].
  unfold mbind at 1. unfold M_bind at 1.
  destruct (_user_has_access uid sid w1) as [[[]|e] w2]; cbn [negb]; try done.
  unfold mbind at 1. unfold M_bind at 1. unfold lift at 1.
  destruct (Py.getitem descr "url") as [url|e]; [|done].
  unfold mbind at 1. unfold M_bind at 1. unfold lift at 1.
  destruct (Py.get descr "config" (PDict [])) as [config|e]; [|done].
  unfold mbind at 1. unfold M_bind at 1.
  destruct (get_connection env sid url config w2) as [[c|e] w3]; [|done].
  unfold try_finally, after.
  destruct (invoke_and_wrap env sid descr c req w3) as [rb w4].
  rewrite release_connection_eq. cbn zeta. by destruct rb.
Qed.

(** X12. For a provider that is not cached: a registry answer with another
    status than 200 makes [call_tool] respond "Server ... not found" with
    empty metadata, whoever the user is, after that one request; an answer
    200 with a falsy body (null, an empty dict) gives the same response and
    the body is cached; a request that raises gives a failure response with
    the text of the exception. The pool is not asked in any of these cases. *)
Theorem call_tool_unknown_server env uid sid req w :
  _server_cache (manager w) !! sid = None →
  match env_http_get env (ticks w) (GetServer (registry_url (manager w)) sid) with
  | Ok response =>
      (status_code response ≠ 200 →
         call_tool env uid sid req w = (Ok (not_found sid), tick w))
      ∧ (status_code response = 200 → ∀ body, json response = Ok body →
         Py.truthy body = false →
         (call_tool env uid sid req w).1 = Ok (not_found sid)
         ∧ _server_cache (manager (after (call_tool env uid sid req) w)) !! sid = Some body
         ∧ quiet w (after (call_tool env uid sid req) w))
  | Raise e => call_tool env uid sid req w = (Ok (error_response sid e), tick w)
  end.
Proof.
  intros Hmiss. unfold after. rewrite call_tool_prefix, (get_server_config_miss _ _ _ Hmiss).
  unfold fetch_server_config, http_get, utcnow, tick. unfold_M. cbn.
  destruct (env_http_get env (ticks w) _) as [response|e]; cbn; [|done].
  split.
  - intros Hne. apply Z.eqb_neq in Hne. rewrite Hne. cbn. done.
  - intros -> body -> Hf. cbn. rewrite Hf. cbn. by rewrite lookup_insert_eq.
Qed.

Lemma call_tool_unknown_server_witness :
  call_tool env_fine "test-user-123" "ghost-9" sample_request world_ready
  = (Ok (not_found "ghost-9"), tick world_ready).
Proof.
  assert (Hm : _server_cache (manager world_ready) !! "ghost-9" = None)
    by (vm_compute; reflexivity).
  pose proof (call_tool_unknown_server env_fine "test-user-123" "ghost-9"
                sample_request world_ready Hm) as H.
  apply H. vm_compute. discriminate.
Defined.

(** X13. When the descriptor of the provider is a dict without "url" and
    the user has access, [call_tool] responds with a failure whose error
    text is the quoted key, ['url'], and whose metadata hold the server id;
    the pool is not asked. *)
Theorem call_tool_descriptor_without_url env uid sid req w d w1 :
  _get_server_config env sid w = (Ok (PDict d), w1) →
  d ≠ [] → Py.assoc "url" d = None →
  _user_has_access uid sid w1 = (Ok true, w1) →
  call_tool env uid sid req w
  = (Ok (mkMCPResponse false None (Some "'url'") [("server_id", PStr sid)]), w1)
  ∧ history w1 = history w ∧ pool w1 = pool w.
Proof.
  intros Hg Hd Hu Ha. rewrite call_tool_prefix, Hg.
  pose proof (get_server_config_quiet env sid w) as (Hp & _ & Hh).
  unfold after in Hp, Hh. rewrite Hg in Hp, Hh.
  destruct d; [done|]. cbn [Py.truthy]. rewrite Ha. cbn [Py.getitem]. rewrite Hu. done.
Qed.

Lemma call_tool_descriptor_without_url_witness :
  (call_tool env_no_url "test-user-123" "weather-1" sample_request world_ready).1
  = Ok (mkMCPResponse false None (Some "'url'") [("server_id", PStr "weather-1")]).
Proof.
  assert (Hg : _get_server_config env_no_url "weather-1" world_ready
               = (Ok (PDict [("name", PStr "Weather MCP Server")]),
                  after (_get_server_config env_no_url "weather-1") world_ready))
    by (vm_compute; reflexivity).
  assert (Hd : [("name", PStr "Weather MCP Server")] ≠ []) by discriminate.
  assert (Ha : _user_has_access "test-user-123" "weather-1"
                 (after (_get_server_config env_no_url "weather-1") world_ready)
               = (Ok true, after (_get_server_config env_no_url "weather-1") world_ready))
    by (vm_compute; reflexivity).
  destruct (call_tool_descriptor_without_url env_no_url "test-user-123" "weather-1"
              sample_request world_ready _ _ Hg Hd eq_refl Ha) as (H & _).
  rewrite H. reflexivity.
Defined.

(** X14. In a pool that is in order and has no idle connection and as many
    active ones as allowed for the provider, [call_tool] of a user with
    access responds with the failure "Connection pool exhausted for server
    ...", metadata server id, after one failed [get_connection] and no
    release; it waits for nothing and changes no idle list or active set. *)
Theorem call_tool_pool_exhausted env N uid sid req w descr w1 url config :
  pool_wf N w →
  idle_of w sid = [] → N ≤ Z.of_nat (size (active_of w sid)) →
  _get_server_config env sid w = (Ok descr, w1) → Py.truthy descr = true →
  _user_has_access uid sid w1 = (Ok true, w1) →
  Py.getitem descr "url" = Ok url → Py.get descr "config" (PDict []) = Ok config →
  let w' := after (call_tool env uid sid req) w in
  (call_tool env uid sid req w).1 = Ok (error_response sid (exhausted sid))
  ∧ history w' = history w ++ [EvGet sid None]
  ∧ ticks w' = ticks w1
  ∧ ∀ s, idle_of w' s = idle_of w s ∧ active_of w' s = active_of w s.
Proof.
  intros (Hmx & _) Hi Hn Hg Ht Ha Hurl Hcfg w'. subst w'. unfold after.
  rewrite call_tool_prefix, Hg, Ht, Ha, Hurl, Hcfg.
  pose proof (get_server_config_quiet env sid w) as Hq.
  unfold after in Hq. rewrite Hg in Hq. cbn [snd] in Hq.
  pose proof (quiet_views _ _ Hq) as Hv. destruct Hq as (Hp & _ & Hh).
  destruct (get_connection env sid url config w1) as [r w2] eqn:Hget.
  assert (r = Raise (exhausted sid)) as ->.
  { revert Hget. rewrite get_connection_eq. cbn zeta.
    destruct (Hv sid) as [-> ->]. rewrite Hi. cbn [pop last].
    rewrite Hp, Hmx. apply Z.ltb_ge in Hn. rewrite Hn. by intros [= <- _]. }
  pose proof (get_connection_ticks env sid url config w1) as Htk.
  unfold after in Htk. rewrite Hget in Htk.
  destruct (get_connection_Raise _ _ _ _ _ _ _ Hget) as [Hh2 Hv2]. cbn [fst snd] in *.
  rewrite Hh2, Hh. split_and!; try done.
  intros s. destruct (Hv2 s) as [-> ->]. apply Hv.
Qed.

Lemma call_tool_pool_exhausted_witness :
  pool_wf 2 world_busy
  ∧ (call_tool env_fine "test-user-123" "weather-1" sample_request world_busy).1
    = Ok (error_response "weather-1" (exhausted "weather-1")).
Proof.
  assert (H : pool_wf 2 world_busy).
  { apply reachable_wf. unfold world_busy. do 3 apply reach_op. by eapply reach_new. }
  split; [exact H|].
  assert (Hi : idle_of world_busy "weather-1" = []) by (vm_compute; reflexivity).
  assert (Hn : 2 ≤ Z.of_nat (size (active_of world_busy "weather-1")))
    by (vm_compute; discriminate).
  assert (Hg : _get_server_config env_fine "weather-1" world_busy
               = (Ok weather, after (_get_server_config env_fine "weather-1") world_busy))
    by (vm_compute; reflexivity).
  assert (Ha : _user_has_access "test-user-123" "weather-1"
                 (after (_get_server_config env_fine "weather-1") world_busy)
               = (Ok true, after (_get_server_config env_fine "weather-1") world_busy))
    by (vm_compute; reflexivity).
  destruct (call_tool_pool_exhausted env_fine 2 "test-user-123" "weather-1"
              sample_request world_busy weather _ (PStr "http://localhost:8001/sse")
              (PDict []) H Hi Hn Hg eq_refl Ha eq_refl eq_refl) as (Hr & _).
  exact Hr.
Defined.

(** ** The descriptor cache within its TTL *)

(** X15. After a lookup that missed the cache and was answered with 200,
    a second lookup of the same provider, made while the clock has advanced
    by less than the TTL since the entry was stored, returns the same
    descriptor from the cache: it reads the clock and sends no request. *)
Theorem second_lookup_within_ttl env sid w response data :
  _server_cache (manager w) !! sid = None →
  env_http_get env (ticks w) (GetServer (registry_url (manager w)) sid) = Ok response →
  status_code response = 200 → json response = Ok data →
  env_utcnow env (S (S (ticks w))) - env_utcnow env (S (ticks w)) < _cache_ttl (manager w) →
  let w1 := after (_get_server_config env sid) w in
  _get_server_config env sid w = (Ok data, w1)
  ∧ ticks w1 = S (S (ticks w))
  ∧ _get_server_config env sid w1 = (Ok data, tick w1).
Proof.
  intros Hmiss Hget Hst Hj Hlt w1. subst w1. unfold after.
  rewrite (get_server_config_miss _ _ _ Hmiss).
  unfold _get_server_config, fetch_server_config, http_get, utcnow, tick. unfold_M. cbn.
  rewrite Hget. cbn. rewrite Hst, Hj. cbn. rewrite lookup_insert_eq. cbn.
  apply Z.ltb_lt in Hlt. rewrite Hlt. done.
Qed.

Lemma second_lookup_within_ttl_witness :
  (_get_server_config env_fine "weather-1"
     (after (_get_server_config env_fine "weather-1") world_new)).1 = Ok weather.
Proof.
  assert (Hlt : env_utcnow env_fine (S (S (ticks world_new)))
                - env_utcnow env_fine (S (ticks world_new))
                < _cache_ttl (manager world_new)) by (vm_compute; reflexivity).
  destruct (second_lookup_within_ttl env_fine "weather-1" world_new
              (ok_response weather) weather eq_refl eq_refl eq_refl eq_refl Hlt)
    as (_ & _ & H).
  rewrite H. reflexivity.
Defined.

(** X16. A lookup changes the cache entry of no other provider, never
    removes an entry, leaves the users' lists, the pool, the heap and the
    history of the pool alone, and every descriptor it returns (other than
    [None]) is the one the cache holds for the provider afterwards. *)
Theorem cache_entries_persist env sid w :
  let w' := after (_get_server_config env sid) w in
  (∀ s, s ≠ sid → _server_cache (manager w') !! s = _server_cache (manager w) !! s)
  ∧ (is_Some (_server_cache (manager w) !! sid) →
     is_Some (_server_cache (manager w') !! sid))
  ∧ (∀ data, (_get_server_config env sid w).1 = Ok data → data ≠ PNone →
     _server_cache (manager w') !! sid = Some data)
  ∧ _user_servers (manager w') = _user_servers (manager w)
  ∧ quiet w w'.
Proof.
  intros w'. subst w'.
  split_and!; [| | | apply get_server_config_user_servers|apply get_server_config_quiet];
  unfold after, _get_server_config, fetch_server_config, http_get, utcnow;
  unfold_M; cbn.
  - intros s Hs. repeat case_match; simplify_eq; cbn; rewrite ?lookup_insert_ne; done.
  - intros [x Hx]. rewrite Hx. cbn.
    repeat case_match; simplify_eq; cbn; rewrite ?lookup_insert_eq; eauto.
  - intros data. destruct (_server_cache (manager w) !! sid) eqn:Hc; cbn;
      repeat case_match; simplify_eq; cbn; rewrite ?lookup_insert_eq;
      intros; simplify_eq; done.
Qed.

Lemma cache_entries_persist_witness :
  _server_cache (manager (after (_get_server_config env_fine "weather-1") world_new))
    !! "weather-1" = Some weather.
Proof.
  destruct (cache_entries_persist env_fine "weather-1" world_new) as (_ & _ & H & _).
  apply H; [vm_compute; reflexivity|discriminate].
Defined.

(** ** A batch leaves no connection checked out *)

Lemma held_app hs1 hs2 s : held (hs1 ++ hs2) s = held hs1 s ++ held hs2 s.
Proof. apply omap_app. Qed.

Lemma held_none {B} (l : list B) s : held (map (λ _, None) l) s = [].
Proof. by induction l. Qed.

Lemma held_cons h hs s :
  held (h :: hs) s =
  match h with
  | Some (s', c) => if decide (s' = s) then c :: held hs s else held hs s
  | None => held hs s
  end.
Proof. destruct h as [[s' c]|]; cbn; [|done]. by case_decide. Qed.

Lemma accounted_resume N base hs1 h hs2 {A} (t : Task A) w :
  protocol N h t → accounted N base (hs1 ++ h :: hs2) w →
  ∃ h', protocol N h' (resume t w).1 ∧ accounted N base (hs1 ++ h' :: hs2) (resume t w).2.
Proof.
  intros Hp [Hwf Hacc]. destruct t as [r|k eff]; cbn [resume fst snd protocol] in *.
  { exists h. by split. }
  destruct (Hp w Hwf) as (Hwf' & h' & Hm & Hp').
  { intros sid c ->. destruct (Hacc sid) as (_ & _ & ->).
    rewrite held_app, held_cons, decide_True by done. set_solver. }
  exists h'. split; [done|]. split; [done|]. intros s.
  destruct (Hacc s) as (Hnd & Hb & Ha). revert Hnd Hb Ha.
  rewrite !held_app, !held_cons.
  destruct h as [[sid c]|]; destruct h' as [[sid' c']|]; cbn [moves] in Hm.
  - destruct Hm as [[= <- <-] Hm]. by rewrite Hm.
  - rewrite (Hm s). case_decide as Hs; [subst s|by rewrite decide_False by done].
    rewrite decide_True by done.
    intros Hnd Hb Ha. apply NoDup_app in Hnd as (Hnd1 & Hd & Hnd2).
    apply NoDup_cons in Hnd2 as [Hc2 Hnd2].
    assert (c ∉ base sid) by (apply Hb; set_solver).
    assert (c ∉ held hs1 sid) by (intros Hin; apply (Hd c Hin); by left).
    split_and!.
    + apply NoDup_app. split_and!; [done| |done]. intros x Hx1 Hx2. apply (Hd x Hx1).
      by right.
    + intros x Hx. apply Hb. set_solver.
    + rewrite Ha. apply set_eq. intros x.
      rewrite elem_of_difference, !elem_of_union, !elem_of_list_to_set,
        !elem_of_app, elem_of_cons, elem_of_singleton.
      destruct (decide (x = c)) as [->|]; naive_solver.
  - destruct Hm as [Hnew Hm]. rewrite (Hm s).
    case_decide as Hs; [subst s|by rewrite decide_False by done].
    rewrite decide_True by done.
    intros Hnd Hb Ha. rewrite Ha in Hnew.
    assert (c' ∉ base sid') by set_solver.
    assert (c' ∉ held hs1 sid') by set_solver.
    assert (c' ∉ held hs2 sid') by set_solver.
    apply NoDup_app in Hnd as (Hnd1 & Hd & Hnd2).
    split_and!.
    + apply NoDup_app. split_and!; [done| |by apply NoDup_cons].
      intros x Hx1 [->|Hx2]%elem_of_cons; [done|by apply (Hd x)].
    + intros x [Hx|[->|Hx]%elem_of_cons]%elem_of_app; [|done|]; apply Hb; set_solver.
    + rewrite Ha. set_solver.
  - by rewrite (Hm s).
Qed.

Lemma accounted_resume_nth N base {A} i (tasks : list (Task A)) hs1 hs w :
  Forall2 (λ h t, protocol N h t) hs tasks → accounted N base (hs1 ++ hs) w →
  ∃ hs', Forall2 (λ h t, protocol N h t) hs' (resume_nth i tasks w).1
         ∧ accounted N base (hs1 ++ hs') (resume_nth i tasks w).2.
Proof.
  intros Hall. revert i hs1.
  induction Hall as [|h t hs ts Hp Hall IH]; intros i hs1 Hacc; [by exists []|].
  destruct i as [|i]; cbn.
  - destruct (accounted_resume N base hs1 h hs t w Hp Hacc) as (h' & Hp' & Hacc').
    destruct (resume t w) as [t' w']. exists (h' :: hs). split; [by constructor|done].
  - destruct (IH i (hs1 ++ [h])) as (hs' & Hall' & Hacc'); [by rewrite <- app_assoc|].
    destruct (resume_nth i ts w) as [ts' w']. exists (h :: hs').
    split; [by constructor|]. by rewrite <- app_assoc in Hacc'.
Qed.

Lemma accounted_schedule N base {A} schedule (tasks : list (Task A)) hs w :
  Forall2 (λ h t, protocol N h t) hs tasks → accounted N base hs w →
  ∃ hs', Forall2 (λ h t, protocol N h t) hs' (run_schedule schedule tasks w).1
         ∧ accounted N base hs' (run_schedule schedule tasks w).2.
Proof.
  revert tasks hs w. induction schedule as [|i rest IH]; intros tasks hs w Hall Hacc;
    [by exists hs|].
  cbn. destruct (accounted_resume_nth N base i tasks [] hs w Hall Hacc)
    as (hs' & Hall' & Hacc').
  destruct (resume_nth i tasks w) as [tasks' w']. by apply (IH tasks' hs').
Qed.

Lemma accounted_complete N base hs1 h hs2 {A} (t : Task A) w :
  protocol N h t → accounted N base (hs1 ++ h :: hs2) w →
  accounted N base (hs1 ++ None :: hs2) (complete t w).2.
Proof.
  revert h w. induction t as [r|k IH eff]; intros h w Hp Hacc.
  - cbn in *. by subst h.
  - destruct (accounted_resume N base hs1 h hs2 (Await k eff) w Hp Hacc)
      as (h' & Hp' & Hacc'). cbn in *. by eapply IH.
Qed.

Lemma accounted_complete_all N base {A} (tasks : list (Task A)) hs1 hs w :
  Forall2 (λ h t, protocol N h t) hs tasks → accounted N base (hs1 ++ hs) w →
  accounted N base (hs1 ++ map (λ _, None) hs) (complete_all tasks w).2.
Proof.
  intros Hall. revert hs1 w.
  induction Hall as [|h t hs ts Hp Hall IH]; intros hs1 w Hacc; [done|].
  cbn. pose proof (accounted_complete N base hs1 h hs t w Hp Hacc) as Hacc1.
  destruct (complete t w) as [r w1]. cbn in Hacc1.
  specialize (IH (hs1 ++ [None]) w1). rewrite <- !app_assoc in IH. specialize (IH Hacc1).
  by destruct (complete_all ts w1).
Qed.

(** After a gather of tasks that hold nothing at its begin, the active
    sets are what they were. *)
Lemma gather_restores N {A} env (tasks : list (Task A)) w :
  Forall (λ t, protocol N None t) tasks → pool_wf N w →
  let w' := after (gather_return_exceptions env tasks) w in
  pool_wf N w' ∧ ∀ s, active_of w' s = active_of w s.
Proof.
  intros Hall Hwf w'. subst w'. unfold after, gather_return_exceptions.
  assert (Hall2 : Forall2 (λ h t, protocol N h t) (map (λ _, None) tasks) tasks).
  { induction Hall; constructor; done. }
  assert (Hacc : accounted N (active_of w) (map (λ _, None) tasks) w).
  { split; [done|]. intros s. rewrite held_none. split_and!; [constructor|set_solver..]. }
  destruct (accounted_schedule N _ (env_schedule env (ticks w)) tasks _ w Hall2 Hacc)
    as (hs' & Hall' & Hacc').
  destruct (run_schedule _ tasks w) as [tasks' w1]. cbn [fst snd] in *.
  pose proof (accounted_complete_all N _ tasks' [] hs' w1 Hall' Hacc') as [Hwf2 Hacc2].
  destruct (complete_all tasks' w1) as [rs w2]. cbn [fst snd app] in *.
  split; [done|]. intros s. destruct (Hacc2 s) as (_ & _ & ->).
  rewrite held_none. set_solver.
Qed.

Lemma protocol_segment N h {A} (m : M (Task A)) :
  (∀ w, pool_wf N w → (∀ sid c, h = Some (sid, c) → c ∈ active_of w sid) →
     pool_wf N (resume (segment m) w).2
     ∧ ∃ h', moves h h' w (resume (segment m) w).2
             ∧ protocol N h' (resume (segment m) w).1) →
  protocol N h (segment m).
Proof. intros H w. apply (H w). Qed.

Lemma call_tool_invoking_protocol N env sid descr c req :
  protocol N (Some (sid, c)) (call_tool_invoking env sid descr c req).
Proof.
  apply protocol_segment. intros w Hwf Hin. fold (call_tool_invoking env sid descr c req).
  rewrite call_tool_invoking_resume. cbn [fst snd].
  pose proof (execute_and_wrap_quiet env sid descr c req w) as Hq.
  pose proof (quiet_views _ _ Hq) as Hv.
  assert (Hc : c ∈ active_of (after (execute_and_wrap env sid descr c req) w) sid).
  { destruct (Hv sid) as [_ ->]. by apply Hin. }
  destruct (release_connection_active sid c _ _ Hc (release_connection_run _ _ _))
    as (_ & _ & Ha & Ho).
  split; [by apply release_connection_wf, (quiet_wf N w)|].
  exists None. split; [|done]. intros s. case_decide as Hs.
  - subst s. rewrite Ha. by destruct (Hv sid) as [_ ->].
  - destruct (Ho s Hs) as [_ ->]. by destruct (Hv s) as [_ ->].
Qed.

Lemma call_tool_connecting_protocol N env sid descr c req :
  protocol N (Some (sid, c)) (call_tool_connecting env sid descr c req).
Proof.
  apply protocol_segment. intros w Hwf Hin.
  fold (call_tool_connecting env sid descr c req).
  rewrite call_tool_connecting_resume.
  destruct (env_aenter env (ticks w) c) as [[]|e]; cbn [fst snd].
  - split; [by apply (quiet_wf N w)|]. exists (Some (sid, c)).
    split; [done|apply call_tool_invoking_protocol].
  - assert (Hc : c ∈ active_of (tick w) sid) by (by apply Hin).
    destruct (release_connection_active sid c _ _ Hc (release_connection_run _ _ _))
      as (_ & _ & Ha & Ho).
    split; [by apply release_connection_wf, (quiet_wf N w)|].
    exists None. split; [|done]. intros s. case_decide as Hs.
    + subst s. by rewrite Ha.
    + by destruct (Ho s Hs) as [_ ->].
Qed.

Lemma call_tool_with_config_protocol N env uid sid req descr w :
  pool_wf N w →
  pool_wf N (call_tool_with_config env uid sid req descr w).2
  ∧ ∃ h', moves None h' w (call_tool_with_config env uid sid req descr w).2
          ∧ protocol N h' match (call_tool_with_config env uid sid req descr w).1 with
                          | Ok t => t
                          | Raise e => Done (Raise e)
                          end.
Proof.
  intros Hwf. rewrite call_tool_with_config_eq.
  assert (Hnone : ∀ r : result MCPResponse,
            pool_wf N w ∧ ∃ h', moves None h' w w ∧ protocol N h' (Done r)).
  { intros r. split; [done|]. by exists None. }
  destruct (Py.truthy descr); [|apply Hnone].
  pose proof (user_has_access_pure uid sid w) as Ha.
  destruct (_user_has_access uid sid w) as [[[]|e] w2]; cbn in Ha; subst w2;
    try apply Hnone.
  destruct (Py.getitem descr "url") as [url|e]; [|apply Hnone].
  destruct (Py.get descr "config" (PDict [])) as [config|e]; [|apply Hnone].
  pose proof (get_connection_wf env N sid url config w Hwf) as Hwf3. unfold after in Hwf3.
  destruct (get_connection env sid url config w) as [[c|e] w3] eqn:Hg; cbn [fst snd] in *.
  - destruct (get_connection_Ok _ _ _ _ _ _ _ _ Hwf Hg) as (_ & Hnew & Ha3 & _ & _ & Ho3).
    split; [by apply (quiet_wf N w3)|]. exists (Some (sid, c)). split.
    + cbn [moves]. split; [done|]. intros s.
      change (active_of (tick w3) s) with (active_of w3 s).
      case_decide as Hs; [by subst s|]. by destruct (Ho3 s Hs) as [_ ->].
    + destruct (env_is_connected env (ticks w3) c);
        [apply call_tool_invoking_protocol|apply call_tool_connecting_protocol].
  - split; [done|]. exists None. split; [|done]. cbn [moves].
    intros s. by destruct (get_connection_Raise _ _ _ _ _ _ _ Hg) as (_ & Hv);
      destruct (Hv s).
Qed.

Lemma call_tool_fetched_protocol N env uid sid req fetched :
  protocol N None (call_tool_fetched env uid sid req fetched).
Proof.
  apply protocol_segment. intros w Hwf _.
  fold (call_tool_fetched env uid sid req fetched).
  rewrite call_tool_fetched_resume. destruct fetched as [descr|e].
  - by apply call_tool_with_config_protocol.
  - split; [done|]. by exists None.
Qed.

Lemma call_tool_fetching_protocol N env uid sid req :
  protocol N None (call_tool_fetching env uid sid req).
Proof.
  apply protocol_segment. intros w Hwf _. fold (call_tool_fetching env uid sid req).
  rewrite call_tool_fetching_resume. cbn [fst snd].
  pose proof (fetch_server_config_quiet env sid w) as Hq.
  split; [by apply (quiet_wf N w)|]. exists None.
  split; [|apply call_tool_fetched_protocol].
  intros s. by destruct (quiet_views _ _ Hq s).
Qed.

Lemma call_tool_task_protocol N env uid sid req :
  protocol N None (call_tool_task env uid sid req).
Proof.
  apply protocol_segment. intros w Hwf _. fold (call_tool_task env uid sid req).
  rewrite call_tool_task_resume.
  destruct (_server_cache (manager w) !! sid) as [cached|];
    [destruct (_ <? _)|]; cbn [fst snd].
  - destruct (call_tool_with_config_protocol N env uid sid req cached (tick w))
      as (Hwf' & h' & Hm & Hp); [by apply (quiet_wf N w)|].
    split; [done|]. exists h'. split; [|done].
    destruct h' as [[s c]|]; exact Hm.
  - split; [by apply (quiet_wf N w)|]. exists None.
    split; [done|apply call_tool_fetching_protocol].
  - split; [done|]. exists None. split; [done|apply call_tool_fetching_protocol].
Qed.

Lemma batch_restores env N uid reqs w :
  pool_wf N w →
  let w' := after (batch_call_tools env uid reqs) w in
  pool_wf N w' ∧ ∀ s, active_of w' s = active_of w s.
Proof.
  intros Hwf. cbn zeta. unfold after, batch_call_tools, batch_of_tasks, mbind, M_bind.
  match goal with |- context [gather_return_exceptions env ?l w] =>
    pose proof (gather_restores N env l w) as H; unfold after in H; cbn zeta in H;
    destruct (gather_return_exceptions env l w) as [[rs|e] w1] end;
  cbn [snd] in *; apply H; try done;
  apply Forall_map, Forall_forall; intros [s q] _; apply call_tool_task_protocol.
Qed.

(** X17. In a pool that is in order, after [batch_call_tools] the active
    set of every provider is what it was before the batch, and the pool is
    in order again, whatever the calls of the batch ended with and in
    whatever order the event loop resumed them at their awaits. *)
Theorem batch_restores_active env N uid reqs w :
  pool_wf N w →
  let w' := after (batch_call_tools env uid reqs) w in
  pool_wf N w' ∧ ∀ s, active_of w' s = active_of w s.
Proof. apply batch_restores. Qed.

Lemma batch_restores_active_witness :
  pool_wf 2 world_pool2
  ∧ active_of (after (batch_call_tools env_tool_fails "test-user-123" three_calls)
                 world_pool2) "weather-1"
    = active_of world_pool2 "weather-1".
Proof.
  assert (H : pool_wf 2 world_pool2).
  { apply reachable_wf. unfold world_pool2. apply reach_op. by eapply reach_new. }
  split; [exact H|].
  destruct (batch_restores_active env_tool_fails 2 "test-user-123" three_calls
              world_pool2 H) as (_ & Ha).
  apply Ha.
Defined.

(** ** The routes *)

Lemma call_tool_returns env uid sid req w : ∃ resp, (call_tool env uid sid req w).1 = Ok resp.
Proof.
  destruct (call_tool env uid sid req w) as [r w'] eqn:Hc.
  destruct (call_tool_cases _ _ _ _ _ _ _ Hc) as (resp & -> & _). eauto.
Qed.

Lemma ensure_loaded env uid w :
  is_Some (_user_servers (manager w) !! uid) →
  Routes.ensure_user_servers env uid w = (Ok tt, w).
Proof. intros [x Hx]. unfold Routes.ensure_user_servers. unfold_M. cbn. by rewrite Hx. Qed.

Lemma call_mcp_tool_eq env uid call w :
  Routes.call_mcp_tool env uid call w =
  match Routes.ensure_user_servers env uid w with
  | (Raise e, w1) => (Raise e, w1)
  | (Ok _, w1) =>
      match call_tool env uid (tc_server_id call) (to_mcp_request call) w1 with
      | (Raise e, w2) => (Raise e, w2)
      | (Ok resp, w2) =>
          (Ok (if success resp then Returned resp else HTTPException 400 (error resp)), w2)
      end
  end.
Proof.
  unfold Routes.call_mcp_tool, to_mcp_request. unfold mbind, M_bind.
  destruct (Routes.ensure_user_servers env uid w) as [[[]|e] w1]; [|done].
  destruct (call_tool env uid _ _ w1) as [[resp|e] w2]; [|done].
  by destruct (success resp).
Qed.

Lemma batch_route_eq env uid calls w :
  Routes.batch_call_tools env uid calls w =
  match Routes.ensure_user_servers env uid w with
  | (Raise e, w1) => (Raise e, w1)
  | (Ok _, w1) =>
      match batch_call_tools env uid
              (map (λ call, (tc_server_id call, to_mcp_request call)) calls) w1 with
      | (Raise e, w2) => (Raise e, w2)
      | (Ok resps, w2) => (Ok (Returned resps), w2)
      end
  end.
Proof.
  unfold Routes.batch_call_tools, to_mcp_request. unfold mbind at 1 2, M_bind at 1 2.
  destruct (Routes.ensure_user_servers env uid w) as [[[]|e] w1]; [|done].
  by destruct (batch_call_tools env uid _ w1) as [[resp|e] w2].
Qed.

(** A call that the event loop runs with nothing in between is the call
    of [call_tool]. *)
Lemma invoke_and_wrap_eq env sid descr c req w :
  invoke_and_wrap env sid descr c req w =
  if env_is_connected env (ticks w) c
  then execute_and_wrap env sid descr c req (tick w)
  else match env_aenter env (S (ticks w)) c with
       | Ok _ => execute_and_wrap env sid descr c req (tick (tick w))
       | Raise e => (Raise e, tick (tick w))
       end.
Proof.
  unfold invoke_and_wrap, is_connected, aenter, outside, tick.
  unfold mbind at 1 2, M_bind at 1 2. cbn.
  destruct (env_is_connected env (ticks w) c); [done|].
  unfold mbind, M_bind. cbn. by destruct (env_aenter env (S (ticks w)) c) as [[]|e].
Qed.

Lemma call_tool_invoking_complete env sid descr c req w :
  complete (call_tool_invoking env sid descr c req) w =
  (Ok match (execute_and_wrap env sid descr c req w).1 with
      | Ok resp => resp
      | Raise e => error_response sid e
      end,
   after (release_connection sid c) (after (execute_and_wrap env sid descr c req) w)).
Proof. by rewrite <- complete_resume, call_tool_invoking_resume. Qed.

Lemma call_tool_with_config_complete env uid sid req descr w w1 :
  _get_server_config env sid w = (Ok descr, w1) →
  complete match (call_tool_with_config env uid sid req descr w1).1 with
           | Ok t => t
           | Raise e => Done (Raise e)
           end (call_tool_with_config env uid sid req descr w1).2
  = call_tool env uid sid req w.
Proof.
  intros Hg. rewrite call_tool_prefix, Hg, call_tool_with_config_eq.
  destruct (Py.truthy descr); [|done].
  destruct (_user_has_access uid sid w1) as [[[]|e] w2]; try done.
  destruct (Py.getitem descr "url") as [url|e]; [|done].
  destruct (Py.get descr "config" (PDict [])) as [config|e]; [|done].
  destruct (get_connection env sid url config w2) as [[c|e] w3]; [|done].
  cbn [fst snd]. rewrite invoke_and_wrap_eq.
  destruct (env_is_connected env (ticks w3) c).
  - rewrite call_tool_invoking_complete. unfold after.
    by destruct (execute_and_wrap env sid descr c req (tick w3)) as [[resp|e] w4].
  - rewrite <- complete_resume, call_tool_connecting_resume.
    change (ticks (tick w3)) with (S (ticks w3)).
    destruct (env_aenter env (S (ticks w3)) c) as [[]|e]; cbn [fst snd]; [|done].
    rewrite call_tool_invoking_complete. unfold after.
    by destruct (execute_and_wrap env sid descr c req (tick (tick w3))) as [[resp|e] w4].
Qed.

Lemma call_tool_fetching_complete env uid sid req w w0 :
  _get_server_config env sid w = fetch_server_config env sid w0 →
  complete (call_tool_fetching env uid sid req) w0 = call_tool env uid sid req w.
Proof.
  intros Hg. rewrite <- complete_resume, call_tool_fetching_resume. cbn [fst snd].
  rewrite <- complete_resume, call_tool_fetched_resume. unfold after.
  destruct (fetch_server_config env sid w0) as [[descr|e] w1]; cbn [fst snd].
  - by apply call_tool_with_config_complete.
  - by rewrite call_tool_prefix, Hg.
Qed.

Lemma call_tool_task_complete env uid sid req w :
  complete (call_tool_task env uid sid req) w = call_tool env uid sid req w.
Proof.
  rewrite <- complete_resume, call_tool_task_resume.
  destruct (_server_cache (manager w) !! sid) as [cached|] eqn:Hc.
  - destruct (_ <? _) eqn:Hfresh; cbn [fst snd].
    + apply call_tool_with_config_complete.
      unfold _get_server_config, utcnow, tick. unfold_M. cbn. by rewrite Hc, Hfresh.
    + apply call_tool_fetching_complete.
      unfold _get_server_config, utcnow, tick. unfold_M. cbn. by rewrite Hc, Hfresh.
  - apply call_tool_fetching_complete. by apply get_server_config_miss.
Qed.

(** One task alone is resumed until it ends, whatever the event loop does. *)
Lemma gather_single {A} env (t : Task A) w :
  gather_return_exceptions env [t] w = (Ok [(complete t w).1], (complete t w).2).
Proof.
  unfold gather_return_exceptions.
  assert (H : ∀ schedule (t : Task A) w,
            ∃ t' w', run_schedule schedule [t] w = ([t'], w')
                     ∧ complete t' w' = complete t w).
  { clear. induction schedule as [|i rest IH]; intros t w; [by exists t, w|].
    cbn. destruct i as [|i]; cbn.
    - destruct (resume t w) as [t1 w1] eqn:Hr.
      destruct (IH t1 w1) as (t' & w' & -> & Hc). exists t', w'. split; [done|].
      rewrite Hc. pose proof (complete_resume t w) as H. by rewrite Hr in H.
    - apply IH. }
  destruct (H (env_schedule env (ticks w)) t w) as (t' & w' & -> & Hc).
  cbn. rewrite Hc. by destruct (complete t w).
Qed.

(** X18. For a user whose list is loaded, the route of a single call sends
    no list request and answers with the response of [call_tool] when it is
    a success and with an HTTPException 400 carrying its error text when it
    is a failure; the batch route returns that same failure response in its
    list instead. *)
Theorem call_route_reports_failure env uid call w :
  is_Some (_user_servers (manager w) !! uid) →
  let sid := tc_server_id call in
  ∃ resp,
    call_tool env uid sid (to_mcp_request call) w
    = (Ok resp, after (call_tool env uid sid (to_mcp_request call)) w)
    ∧ Routes.call_mcp_tool env uid call w
      = (Ok (if success resp then Returned resp else HTTPException 400 (error resp)),
         after (call_tool env uid sid (to_mcp_request call)) w)
    ∧ Routes.batch_call_tools env uid [call] w
      = (Ok (Returned [resp]), after (call_tool env uid sid (to_mcp_request call)) w).
Proof.
  intros Hl sid. subst sid. unfold after.
  destruct (call_tool_returns env uid (tc_server_id call) (to_mcp_request call) w)
    as [resp Hr].
  rewrite call_mcp_tool_eq, batch_route_eq, (ensure_loaded env uid w Hl).
  unfold batch_call_tools, batch_of_tasks. cbn [map fst snd].
  unfold mbind, M_bind. rewrite gather_single, call_tool_task_complete.
  destruct (call_tool env uid (tc_server_id call) (to_mcp_request call) w) as [r w'] eqn:Hc.
  cbn in Hr. subst r. exists resp. done.
Qed.

Lemma call_route_reports_failure_witness :
  (Routes.call_mcp_tool env_uuid "test-user-123" sample_call world_uuid).1
  = Ok (HTTPException 400 (Some "Tool execution failed: Unknown tool")).
Proof.
  assert (Hl : is_Some (_user_servers (manager world_uuid) !! "test-user-123"))
    by (vm_compute; eexists; reflexivity).
  destruct (call_route_reports_failure env_uuid "test-user-123" sample_call
              world_uuid Hl) as (resp & Hc & Hr & _).
  rewrite Hr. vm_compute in Hc. injection Hc as <-. reflexivity.
Defined.

Lemma call_tool_refuses env uid sid req w :
  not_enabled (manager w) uid sid →
  let w' := after (call_tool env uid sid req) w in
  (∃ resp detail, (call_tool env uid sid req w).1 = Ok resp
                  ∧ success resp = false ∧ error resp = Some detail)
  ∧ quiet w w'
  ∧ _user_servers (manager w') = _user_servers (manager w).
Proof.
  intros Hno w'. subst w'. unfold after. rewrite call_tool_prefix.
  pose proof (get_server_config_quiet env sid w) as Hq.
  pose proof (get_server_config_user_servers env sid w) as Hu.
  unfold after in Hq, Hu.
  destruct (_get_server_config env sid w) as [[descr|e] w1]; cbn [snd] in *.
  2:{ split_and!; try done. by do 2 eexists. }
  destruct (Py.truthy descr).
  2:{ split_and!; try done. by do 2 eexists. }
  rewrite user_has_access_denied by (unfold not_enabled; by rewrite Hu).
  split_and!; try done. by do 2 eexists.
Qed.

(** X19. When no list is loaded for the user and the list request is
    answered with another status than 200, the route of a single call
    answers with an HTTPException 400, the user still has no list (so the
    next call asks again), and the pool is not touched. *)
Theorem call_route_without_list env uid call w response :
  _user_servers (manager w) !! uid = None →
  env_http_get env (ticks w) (GetUserServers (registry_url (manager w)) uid true)
  = Ok response →
  status_code response ≠ 200 →
  let w' := after (Routes.call_mcp_tool env uid call) w in
  (∃ detail, (Routes.call_mcp_tool env uid call w).1
             = Ok (HTTPException 400 (Some detail)))
  ∧ _user_servers (manager w') !! uid = None
  ∧ quiet w w'.
Proof.
  intros Hnone Hget Hst w'. subst w'. unfold after. rewrite call_mcp_tool_eq.
  unfold Routes.ensure_user_servers. unfold mbind, M_bind, get_manager. rewrite Hnone.
  rewrite initialize_user_servers_eq. cbn zeta. rewrite Hget.
  apply Z.eqb_neq in Hst. rewrite Hst. cbn [mret M_ret].
  assert (Hno : not_enabled (manager (tick w)) uid (tc_server_id call)).
  { unfold not_enabled. cbn. by rewrite Hnone. }
  destruct (call_tool_refuses env uid (tc_server_id call) (to_mcp_request call) (tick w) Hno)
    as ((resp & detail & Hr & Hs & He) & Hq & Hu).
  unfold after in *.
  destruct (call_tool env uid (tc_server_id call) (to_mcp_request call) (tick w))
    as [r w2]. cbn [fst snd] in *. subst r. rewrite Hs, He. cbn [negb fst snd].
  split_and!; [by eexists|by rewrite Hu|].
  destruct Hq as (Hp & Hh & Hhist). done.
Qed.

Lemma call_route_without_list_witness :
  ∃ detail, (Routes.call_mcp_tool env_outage "test-user-123" sample_call
               (tick world_new)).1 = Ok (HTTPException 400 (Some detail)).
Proof.
  assert (Hst : status_code (mkResponse 503 (Raise (Exn "JSONDecodeError" "Expecting value"))
                               1500) ≠ 200) by discriminate.
  destruct (call_route_without_list env_outage "test-user-123" sample_call
              (tick world_new) _ eq_refl eq_refl Hst) as (H & _).
  exact H.
Defined.

Lemma health_check_no_last_check env sid w hs :
  (health_check env sid w).1 = Ok hs → Py.assoc "last_check" hs = None.
Proof.
  unfold health_check, last_health_check_setitem, http_get, utcnow. unfold_M. cbn.
  repeat case_match; cbn; intros; simplify_eq; done.
Qed.

(** X20. The health route answers a user without an enabling entry for
    the provider (also one whose list was never loaded: this route does not
    load it) with an HTTPException 403 and does nothing else: no probe, no
    request. *)
Theorem health_route_denies_unlisted env uid sid w :
  not_enabled (manager w) uid sid →
  Routes.check_server_health env uid sid w
  = (Ok (HTTPException 403 (Some "User does not have access to this server")), w).
Proof.
  intros Hno. unfold Routes.check_server_health. unfold mbind, M_bind.
  by rewrite user_has_access_denied.
Qed.

Lemma health_route_denies_unlisted_witness :
  Routes.check_server_health env_uuid "test-user-123" weather_id world_new
  = (Ok (HTTPException 403 (Some "User does not have access to this server")), world_new).
Proof.
  apply health_route_denies_unlisted. vm_compute. exact I.
Defined.

(** X21. Whenever the health route returns a body, its "timestamp" is
    [None]: it is read from the key "last_check", which no result of
    [health_check] has. The body holds the server id and the result of
    [health_check], and the user had access. *)
Theorem health_route_timestamp_is_null env uid sid w body w' :
  Routes.check_server_health env uid sid w = (Ok (Returned body), w') →
  Py.assoc "timestamp" body = Some PNone
  ∧ Py.assoc "server_id" body = Some (PStr sid)
  ∧ (∃ hs, Py.assoc "health_status" body = Some (PDict hs)
           ∧ (health_check env sid w).1 = Ok hs)
  ∧ _user_has_access uid sid w = (Ok true, w).
Proof.
  unfold Routes.check_server_health. unfold mbind, M_bind.
  pose proof (user_has_access_pure uid sid w) as Hp.
  destruct (_user_has_access uid sid w) as [[[]|e] w1]; cbn in Hp; subst w1;
    cbn [negb]; try done.
  pose proof (health_check_no_last_check env sid w) as Hn.
  destruct (health_check env sid w) as [[hs|e] w2]; [|done].
  intros [= <- <-]. cbn. rewrite (Hn hs eq_refl). cbn. split_and!; eauto.
Qed.

Lemma health_route_timestamp_is_null_witness :
  Py.assoc "timestamp"
    [("server_id", PStr weather_id);
     ("health_status", PDict [("status", PStr "error");
                              ("message", PStr "Server not configured")]);
     ("timestamp", PNone)] = Some PNone.
Proof.
  assert (H : Routes.check_server_health env_uuid "test-user-123" weather_id world_uuid
              = (Ok (Returned
                       [("server_id", PStr weather_id);
                        ("health_status", PDict [("status", PStr "error");
                                                 ("message", PStr "Server not configured")]);
                        ("timestamp", PNone)]), world_uuid))
    by (vm_compute; reflexivity).
  destruct (health_route_timestamp_is_null env_uuid "test-user-123" weather_id
              world_uuid _ _ H) as (Ht & _).
  exact Ht.
Defined.

(** ** Tool discovery *)

Lemma list_and_record_quiet env lt details c t w :
  quiet w (after (list_and_record env lt details c t) w).
Proof.
  unfold after, list_and_record, list_tools, is_connected, aenter, quiet. unfold_M. cbn.
  repeat case_match; simplify_eq; done.
Qed.

Lemma restored_quiet N w w1 w2 : restored N w w1 → quiet w1 w2 → restored N w w2.
Proof.
  intros [Hwf Ha] Hq. split; [by eapply quiet_wf|].
  intros s. destruct (quiet_views _ _ Hq s) as [_ ->]. apply Ha.
Qed.

Lemma discover_from_restores env lt N sid details t w :
  pool_wf N w → restored N w (after (discover_from env lt sid details t) w).
Proof.
  intros Hwf. unfold after, discover_from.
  unfold mbind at 1. unfold M_bind at 1. unfold lift at 1.
  destruct (Py.getitem details "url") as [url|e]; [|done].
  unfold mbind at 1. unfold M_bind at 1. unfold lift at 1.
  destruct (Py.get details "config" (PDict [])) as [config|e]; [|done].
  unfold mbind at 1. unfold M_bind at 1.
  destruct (get_connection env sid url config w) as [[c|e] w1] eqn:Hg.
  - destruct (get_connection_Ok _ _ _ _ _ _ _ _ Hwf Hg) as (_ & Hnew & Ha1 & _ & _ & Ho1).
    pose proof (get_connection_wf env N sid url config w Hwf) as Hwf1.
    unfold after in Hwf1. rewrite Hg in Hwf1. cbn [snd] in Hwf1.
    unfold try_finally.
    pose proof (list_and_record_quiet env lt details c t w1) as Hq. unfold after in Hq.
    destruct (list_and_record env lt details c t w1) as [r w2]. cbn [snd] in Hq.
    pose proof (quiet_wf N _ _ Hq Hwf1) as Hwf2.
    pose proof (quiet_views _ _ Hq) as Hv2.
    assert (Hin : c ∈ active_of w2 sid).
    { destruct (Hv2 sid) as [_ ->]. rewrite Ha1. set_solver. }
    pose proof (release_connection_wf N sid c w2 Hwf2) as Hwf3.
    rewrite release_connection_run.
    destruct (release_connection_active sid c w2 _ Hin (release_connection_run _ _ _))
      as (_ & _ & Ha3 & Ho3).
    assert (Hres : restored N w (after (release_connection sid c) w2)).
    { split; [done|]. intros s. destruct (decide (s = sid)) as [->|Hne].
      - rewrite Ha3. destruct (Hv2 sid) as [_ ->]. rewrite Ha1. set_solver.
      - destruct (Ho3 s Hne) as [_ ->]. destruct (Hv2 s) as [_ ->].
        by destruct (Ho1 s Hne) as [_ ->]. }
    by destruct r.
  - cbn [snd]. pose proof (get_connection_wf env N sid url config w Hwf) as Hwf1.
    unfold after in Hwf1. rewrite Hg in Hwf1. cbn [snd] in Hwf1.
    split; [done|]. intros s. by destruct (get_connection_Raise _ _ _ _ _ _ _ Hg) as (_ & Hv);
      destruct (Hv s).
Qed.

Lemma discover_server_disabled env lt other t entry w :
  disabled entry = true → discover_server env lt other t entry w = (Ok t, w).
Proof.
  unfold disabled, discover_server. unfold_M.
  destruct (Py.get entry "enabled" (PBool false)) as [en|e]; [|done].
  by intros ->.
Qed.

Lemma discover_loop_skip env lt other skipped l t w :
  Forall (λ s, disabled s = true) skipped →
  discover_loop env lt other (skipped ++ l) t w = discover_loop env lt other l t w.
Proof.
  induction 1 as [|s skipped Hs _ IH]; [done|].
  cbn. unfold mbind at 1. unfold M_bind at 1. by rewrite discover_server_disabled.
Qed.

Lemma discover_tools_list env lt other uid w l :
  _user_servers (manager w) !! uid = Some (PList l) →
  discover_tools env lt other uid w = discover_loop env lt other l [] w.
Proof. intros Hu. unfold discover_tools. unfold_M. cbn. by rewrite Hu. Qed.

Lemma discover_server_enabled env lt other sid entry t w :
  enabled_entry sid entry →
  discover_server env lt other t entry w =
  match _get_server_config env sid w with
  | (Raise e, w1) => (Raise e, w1)
  | (Ok details, w1) =>
      if Py.truthy details
      then match discover_from env lt sid details t w1 with
           | (Ok t', w2) => (Ok t', w2)
           | (Raise _, w2) =>
               match Py.getitem details "name" with
               | Ok name =>
                   match hash_key name with
                   | Ok _ => (Ok (dict_store name [] t), w2)
                   | Raise e => (Raise e, w2)
                   end
               | Raise e => (Raise e, w2)
               end
           end
      else (Ok t, w1)
  end.
Proof.
  intros (d & en & -> & Hen & Ht & Hsid). unfold discover_server.
  unfold mbind at 1. unfold M_bind at 1. unfold lift at 1. cbn. rewrite Hen. cbn.
  rewrite Ht. cbn. unfold mbind at 1. unfold M_bind at 1. unfold lift at 1.
  rewrite Hsid. unfold mbind at 1. unfold M_bind at 1.
  destruct (_get_server_config env sid w) as [[details|e] w1]; [|done].
  destruct (Py.truthy details); [|done].
  unfold try_except. destruct (discover_from env lt sid details t w1) as [[t'|e] w2]; [done|].
  unfold dict_setitem. unfold_M.
  destruct (Py.getitem details "name") as [name|e']; [|done].
  by destruct (hash_key name).
Qed.

(** What a block that ended well has stored. *)
Lemma discover_from_Ok env lt sid details t w t' w' :
  discover_from env lt sid details t w = (Ok t', w') →
  ∃ name raw ds tk c,
    Py.getitem details "name" = Ok name ∧ hash_key name = Ok tt
    ∧ lt tk c = Ok raw ∧ tool_dicts raw = Ok ds
    ∧ t' = dict_store name ds t.
Proof.
  unfold discover_from.
  unfold mbind at 1. unfold M_bind at 1. unfold lift at 1.
  destruct (Py.getitem details "url") as [url|e]; [|done].
  unfold mbind at 1. unfold M_bind at 1. unfold lift at 1.
  destruct (Py.get details "config" (PDict [])) as [config|e]; [|done].
  unfold mbind at 1. unfold M_bind at 1.
  destruct (get_connection env sid url config w) as [[c|e] w1]; [|done].
  unfold try_finally.
  destruct (list_and_record env lt details c t w1) as [[r|e] w2] eqn:Hl;
    rewrite release_connection_run; [|done].
  intros [= -> <-]. revert Hl.
  unfold list_and_record, list_tools, is_connected, aenter, dict_setitem. unfold_M. cbn.
  destruct (env_is_connected env (ticks w1) c); cbn.
  - destruct (lt (S (ticks w1)) c) as [raw|e] eqn:Hlt; cbn; [|done].
    destruct (tool_dicts raw) as [ds|e] eqn:Hds; cbn; [|done].
    destruct (Py.getitem details "name") as [name|e]; cbn; [|done].
    destruct (hash_key name) as [[]|e] eqn:Hh; cbn; [|done].
    intros [= <- _]. by exists name, raw, ds, (S (ticks w1)), c.
  - destruct (env_aenter env (S (ticks w1)) c) as [[]|e]; cbn; [|done].
    destruct (lt (S (S (ticks w1))) c) as [raw|e] eqn:Hlt; cbn; [|done].
    destruct (tool_dicts raw) as [ds|e] eqn:Hds; cbn; [|done].
    destruct (Py.getitem details "name") as [name|e]; cbn; [|done].
    destruct (hash_key name) as [[]|e] eqn:Hh; cbn; [|done].
    intros [= <- _]. by exists name, raw, ds, (S (S (ticks w1))), c.
Qed.

Lemma discover_server_restores env lt other N t entry w :
  untyped_id entry = false → pool_wf N w →
  restored N w (after (discover_server env lt other t entry) w).
Proof.
  intros Hty Hwf. unfold after, discover_server.
  unfold mbind at 1. unfold M_bind at 1. unfold lift at 1.
  destruct (Py.get entry "enabled" (PBool false)) as [en|e]; [|by split].
  destruct (Py.truthy en); cbn [negb]; [|by split].
  unfold mbind at 1. unfold M_bind at 1. unfold lift at 1.
  unfold untyped_id in Hty.
  destruct (Py.getitem entry "server_id") as [[| | | |sid| |]|e]; try done; try by split.
  unfold mbind at 1. unfold M_bind at 1.
  pose proof (get_server_config_quiet env sid w) as Hq. unfold after in Hq.
  destruct (_get_server_config env sid w) as [[details|e] w1]; cbn [snd] in Hq.
  2:{ cbn [snd]. apply (restored_quiet N w w); [by split|done]. }
  assert (Hr1 : restored N w w1) by (apply (restored_quiet N w w); [by split|done]).
  destruct (Py.truthy details); [|done].
  unfold try_except.
  pose proof (discover_from_restores env lt N sid details t w1 (proj1 Hr1)) as [Hwf2 Ha2].
  unfold after in Hwf2, Ha2.
  destruct (discover_from env lt sid details t w1) as [[t'|e] w2]; cbn [snd] in *.
  - split; [done|]. intros s. rewrite Ha2. apply Hr1.
  - unfold dict_setitem. unfold_M.
    assert (Hr2 : restored N w w2).
    { split; [done|]. intros s. rewrite Ha2. apply Hr1. }
    destruct (Py.getitem details "name") as [name|e']; [|done].
    by destruct (hash_key name).
Qed.

Lemma discover_loop_restores env lt other N l t w :
  Forall (λ s, untyped_id s = false) l → pool_wf N w →
  restored N w (after (discover_loop env lt other l t) w).
Proof.
  intros Hl. revert t w. induction Hl as [|s l Hs _ IH]; intros t w Hwf; [by split|].
  unfold after. cbn. unfold mbind at 1. unfold M_bind at 1.
  pose proof (discover_server_restores env lt other N t s w Hs Hwf) as [Hwf1 Ha1].
  unfold after in Hwf1, Ha1.
  destruct (discover_server env lt other t s w) as [[t1|e] w1]; cbn [snd] in *;
    [|by split].
  destruct (IH t1 w1 Hwf1) as [Hwf2 Ha2]. split; [done|].
  intros x. rewrite Ha2. apply Ha1.
Qed.

(** X22. In a pool that is in order, after [discover_tools] the pool is in
    order again and the active set of every provider is what it was before:
    every connection taken for listing tools is given back, whether the
    discovery returns or raises. The entries of the user's list may be
    anything but entries whose "server_id" is [None] or a number. *)
Theorem discover_tools_restores env lt other N uid w :
  pool_wf N w →
  match _user_servers (manager w) !! uid with
  | Some (PList l) => Forall (λ s, untyped_id s = false) l
  | _ => True
  end →
  let w' := after (discover_tools env lt other uid) w in
  pool_wf N w' ∧ ∀ s, active_of w' s = active_of w s.
Proof.
  intros Hwf Hl w'. subst w'.
  destruct (_user_servers (manager w) !! uid) as [v|] eqn:Hu.
  - destruct v as [| | | | |l|d].
    6:{ unfold after. rewrite (discover_tools_list _ _ _ _ _ _ Hu).
        by apply discover_loop_restores. }
    all: unfold after, discover_tools; unfold_M; cbn; rewrite Hu; cbn; try done.
    + destruct s as [|a s]; cbn; [done|]. unfold discover_server. unfold_M. cbn.
      done.
    + destruct d as [|[k v] d]; cbn; [done|]. unfold discover_server. unfold_M. cbn.
      done.
  - unfold after, discover_tools. unfold_M. cbn. rewrite Hu. done.
Qed.

Lemma discover_tools_restores_witness :
  pool_wf 5 world_ready
  ∧ active_of (after (discover_tools env_refused sample_tools no_other_id "test-user-123")
                 world_ready) "weather-1"
    = active_of world_ready "weather-1".
Proof.
  assert (H : pool_wf 5 world_ready).
  { apply reachable_wf. unfold world_ready. apply reach_op. by eapply reach_new. }
  split; [exact H|].
  assert (Hl : match _user_servers (manager world_ready) !! "test-user-123" with
               | Some (PList l) => Forall (λ s, untyped_id s = false) l
               | _ => True
               end).
  { vm_compute. constructor; [reflexivity|constructor]. }
  destruct (discover_tools_restores env_refused sample_tools no_other_id 5 "test-user-123"
              world_ready H Hl) as (_ & Ha).
  apply Ha.
Defined.

(** X23. For a user without a loaded list, and for a list in which no
    entry has a truthy "enabled" (a missing "enabled" counts as off),
    [discover_tools] returns the empty dict and does nothing: no request to
    the registry, no connection, no change of any state. *)
Theorem discover_nothing_enabled env lt other uid w :
  match _user_servers (manager w) !! uid with
  | None => True
  | Some (PList l) => Forall (λ s, disabled s = true) l
  | Some _ => False
  end →
  discover_tools env lt other uid w = (Ok [], w).
Proof.
  destruct (_user_servers (manager w) !! uid) as [v|] eqn:Hu.
  - destruct v as [| | | | |l|d]; try done. intros Hl.
    rewrite (discover_tools_list _ _ _ _ _ _ Hu).
    rewrite <- (app_nil_r l). by rewrite discover_loop_skip.
  - intros _. unfold discover_tools. unfold_M. cbn. by rewrite Hu.
Qed.

Lemma discover_nothing_enabled_witness :
  discover_tools env_fine sample_tools no_other_id "test-user-123" world_disabled
  = (Ok [], world_disabled).
Proof.
  apply discover_nothing_enabled. vm_compute.
  constructor; [reflexivity|]. constructor; [reflexivity|constructor].
Defined.

(** X24. When the first enabled entry of the list names a provider that is
    not cached: a registry request that raises ends the whole discovery
    with that exception (nothing is returned for any provider); a registry
    answer with another status than 200 leaves the provider out of the
    result without a trace, and the discovery goes on with the entries
    after it. *)
Theorem discover_registry_answers env lt other uid sid w skipped entry rest :
  _user_servers (manager w) !! uid = Some (PList (skipped ++ entry :: rest)) →
  Forall (λ s, disabled s = true) skipped → enabled_entry sid entry →
  _server_cache (manager w) !! sid = None →
  match env_http_get env (ticks w) (GetServer (registry_url (manager w)) sid) with
  | Raise e => discover_tools env lt other uid w = (Raise e, tick w)
  | Ok response =>
      status_code response ≠ 200 →
      discover_tools env lt other uid w = discover_loop env lt other rest [] (tick w)
  end.
Proof.
  intros Hu Hsk Hen Hmiss. rewrite (discover_tools_list _ _ _ _ _ _ Hu).
  rewrite discover_loop_skip by done.
  assert (Hg : _get_server_config env sid w =
               match env_http_get env (ticks w) (GetServer (registry_url (manager w)) sid) with
               | Raise e => (Raise e, tick w)
               | Ok response =>
                   if status_code response =? 200
                   then _get_server_config env sid w
                   else (Ok PNone, tick w)
               end).
  { unfold _get_server_config, fetch_server_config, http_get, tick. unfold_M. cbn.
    rewrite Hmiss. cbn.
    destruct (env_http_get env (ticks w) _) as [response|e]; [|done].
    by destruct (status_code response =? 200). }
  cbn [discover_loop]. unfold mbind, M_bind.
  rewrite (discover_server_enabled _ _ _ _ _ _ _ Hen), Hg.
  destruct (env_http_get env (ticks w) _) as [response|e]; [|done].
  intros Hne. apply Z.eqb_neq in Hne. by rewrite Hne.
Qed.

Lemma discover_registry_answers_witness :
  discover_tools env_outage sample_tools no_other_id "test-user-123" world_ready
  = (Ok [], tick world_ready).
Proof.
  assert (Hu : _user_servers (manager world_ready) !! "test-user-123"
               = Some (PList ([] ++ PDict [("server_id", PStr "weather-1");
                                           ("enabled", PBool true)] :: [])))
    by (vm_compute; reflexivity).
  assert (Hs : Forall (λ s, disabled s = true) []) by constructor.
  assert (He : enabled_entry "weather-1"
                 (PDict [("server_id", PStr "weather-1"); ("enabled", PBool true)])).
  { eexists _, _. split_and!; reflexivity. }
  assert (Hm : _server_cache (manager world_ready) !! "weather-1" = None)
    by (vm_compute; reflexivity).
  pose proof (discover_registry_answers env_outage sample_tools no_other_id
                "test-user-123" "weather-1" world_ready [] _ [] Hu Hs He Hm) as H.
  apply H. vm_compute. discriminate.
Defined.

(** X25. When the descriptor of the first enabled provider is a dict
    without "name", [discover_tools] raises KeyError('name'), whatever the
    provider answers and although failures of a provider are meant to be
    skipped: the name is needed to record the failure too. The connection
    it took is given back. *)
Theorem discover_unnamed_raises env lt other N uid sid w skipped entry rest d w1 :
  pool_wf N w →
  _user_servers (manager w) !! uid = Some (PList (skipped ++ entry :: rest)) →
  Forall (λ s, disabled s = true) skipped → enabled_entry sid entry →
  _get_server_config env sid w = (Ok (PDict d), w1) →
  d ≠ [] → Py.assoc "name" d = None →
  let w' := after (discover_tools env lt other uid) w in
  (discover_tools env lt other uid w).1 = Raise (Exn "KeyError" "'name'")
  ∧ pool_wf N w' ∧ ∀ s, active_of w' s = active_of w s.
Proof.
  intros Hwf Hu Hsk Hen Hg Hd Hn w'. subst w'. unfold after.
  rewrite (discover_tools_list _ _ _ _ _ _ Hu).
  rewrite discover_loop_skip by done. cbn [discover_loop]. unfold mbind, M_bind.
  rewrite (discover_server_enabled _ _ _ _ _ _ _ Hen), Hg.
  destruct d as [|kv d]; [done|]. cbn [Py.truthy].
  pose proof (get_server_config_quiet env sid w) as Hq. unfold after in Hq.
  rewrite Hg in Hq. cbn [snd] in Hq.
  pose proof (quiet_wf N _ _ Hq Hwf) as Hwf1.
  pose proof (discover_from_restores env lt N sid (PDict (kv :: d)) [] w1 Hwf1) as [Hwf2 Ha2].
  unfold after in Hwf2, Ha2.
  destruct (discover_from env lt sid (PDict (kv :: d)) [] w1) as [[t'|e] w2] eqn:Hf;
    cbn [snd] in *.
  - apply discover_from_Ok in Hf as (name & _ & _ & _ & _ & Hname & _).
    unfold Py.getitem in Hname. by rewrite Hn in Hname.
  - unfold Py.getitem. rewrite Hn. cbn [fst snd]. split_and!; [done|done|].
    intros s. rewrite Ha2. by destruct (quiet_views _ _ Hq s) as [_ ->].
Qed.

Lemma discover_unnamed_raises_witness :
  (discover_tools env_no_name sample_tools no_other_id "test-user-123" world_ready).1
  = Raise (Exn "KeyError" "'name'").
Proof.
  assert (Hwf : pool_wf 5 world_ready).
  { apply reachable_wf. unfold world_ready. apply reach_op. by eapply reach_new. }
  assert (Hu : _user_servers (manager world_ready) !! "test-user-123"
               = Some (PList ([] ++ PDict [("server_id", PStr "weather-1");
                                           ("enabled", PBool true)] :: [])))
    by (vm_compute; reflexivity).
  assert (Hs : Forall (λ s, disabled s = true) []) by constructor.
  assert (He : enabled_entry "weather-1"
                 (PDict [("server_id", PStr "weather-1"); ("enabled", PBool true)])).
  { eexists _, _. split_and!; reflexivity. }
  assert (Hg : _get_server_config env_no_name "weather-1" world_ready
               = (Ok (PDict [("url", PStr "http://localhost:8001/sse"); ("config", PDict [])]),
                  after (_get_server_config env_no_name "weather-1") world_ready))
    by (vm_compute; reflexivity).
  assert (Hd : [("url", PStr "http://localhost:8001/sse"); ("config", PDict [])] ≠ [])
    by discriminate.
  destruct (discover_unnamed_raises env_no_name sample_tools no_other_id 5 "test-user-123"
              "weather-1" world_ready [] _ [] _ _ Hwf Hu Hs He Hg Hd eq_refl) as (H & _).
  exact H.
Defined.

(** X26. When the descriptor of the first enabled provider is found and
    has a hashable "name", the provider is recorded under that name and the
    discovery goes on with the entries after it: nothing that goes wrong
    between taking the connection and listing the tools raises. What is
    recorded is the empty list, or the dicts made of a list of tools that
    [list_tools] returned. *)
Theorem discover_records_named env lt other N uid sid w skipped entry rest details w1 name :
  pool_wf N w →
  _user_servers (manager w) !! uid = Some (PList (skipped ++ entry :: rest)) →
  Forall (λ s, disabled s = true) skipped → enabled_entry sid entry →
  _get_server_config env sid w = (Ok details, w1) → Py.truthy details = true →
  Py.getitem details "name" = Ok name → hash_key name = Ok tt →
  ∃ tools w2,
    discover_tools env lt other uid w = discover_loop env lt other rest [(name, tools)] w2
    ∧ (tools = [] ∨ ∃ tk c raw, lt tk c = Ok raw ∧ tool_dicts raw = Ok tools)
    ∧ pool_wf N w2 ∧ ∀ s, active_of w2 s = active_of w s.
Proof.
  intros Hwf Hu Hsk Hen Hg Ht Hname Hh.
  rewrite (discover_tools_list _ _ _ _ _ _ Hu).
  rewrite discover_loop_skip by done. cbn [discover_loop]. unfold mbind, M_bind.
  rewrite (discover_server_enabled _ _ _ _ _ _ _ Hen), Hg, Ht.
  pose proof (get_server_config_quiet env sid w) as Hq. unfold after in Hq.
  rewrite Hg in Hq. cbn [snd] in Hq.
  pose proof (quiet_wf N _ _ Hq Hwf) as Hwf1.
  pose proof (discover_from_restores env lt N sid details [] w1 Hwf1) as [Hwf2 Ha2].
  unfold after in Hwf2, Ha2.
  assert (Ha : ∀ w2, (∀ s, active_of w2 s = active_of w1 s) →
                     ∀ s, active_of w2 s = active_of w s).
  { intros w2 H s. rewrite H. by destruct (quiet_views _ _ Hq s) as [_ ->]. }
  destruct (discover_from env lt sid details [] w1) as [[t'|e] w2] eqn:Hf; cbn [snd] in *.
  - apply discover_from_Ok in Hf as (name' & raw & ds & tk & c & Hname' & _ & Hlt & Hds & ->).
    rewrite Hname in Hname'. injection Hname' as <-.
    exists ds, w2. split_and!; eauto 10.
  - rewrite Hname, Hh. exists [], w2. split_and!; eauto.
Qed.

Lemma discover_records_named_witness :
  ∃ tools w2,
    discover_tools env_refused sample_tools no_other_id "test-user-123" world_ready
    = discover_loop env_refused sample_tools no_other_id []
        [(PStr "Weather MCP Server", tools)] w2.
Proof.
  assert (Hwf : pool_wf 5 world_ready).
  { apply reachable_wf. unfold world_ready. apply reach_op. by eapply reach_new. }
  assert (Hu : _user_servers (manager world_ready) !! "test-user-123"
               = Some (PList ([] ++ PDict [("server_id", PStr "weather-1");
                                           ("enabled", PBool true)] :: [])))
    by (vm_compute; reflexivity).
  assert (Hs : Forall (λ s, disabled s = true) []) by constructor.
  assert (He : enabled_entry "weather-1"
                 (PDict [("server_id", PStr "weather-1"); ("enabled", PBool true)])).
  { eexists _, _. split_and!; reflexivity. }
  assert (Hg : _get_server_config env_refused "weather-1" world_ready
               = (Ok weather, after (_get_server_config env_refused "weather-1") world_ready))
    by (vm_compute; reflexivity).
  destruct (discover_records_named env_refused sample_tools no_other_id 5 "test-user-123"
              "weather-1" world_ready [] _ [] weather _ (PStr "Weather MCP Server")
              Hwf Hu Hs He Hg eq_refl eq_refl eq_refl) as (tools & w2 & H & _).
  exists tools, w2. exact H.
Defined.

Lemma tool_dicts_named raw :
  Forall (λ tool, is_Some (tl_name tool)) raw →
  ∃ ds, tool_dicts raw = Ok ds ∧ Forall2 describes raw ds.
Proof.
  induction 1 as [|tool raw [name Hname] _ (ds & Hds & Hall)]; [by exists []|].
  cbn. unfold tool_dict, describes. rewrite Hname, Hds. unfold_M.
  eexists. split; [done|]. constructor; [|done].
  eexists. split; [done|]. rewrite Hname.
  by destruct (tl_parameters tool).
Qed.

(** X27. When the descriptor of the first enabled provider has a str
    "name" and a "url", the pool gives a connection, the client is
    connected or connects, and [list_tools] returns tools that all have a
    name, the provider is recorded under its name with one dict per tool, in
    the order of the tools: each with the tool's name, its description (the
    empty string if the tool has none) and its parameters only if the tool
    has them. The connection ends as the last of the idle list and the
    active sets are as before. *)
Theorem discover_lists_tools env lt other N uid sid w skipped entry rest d w1
    name url config c w2 raw :
  pool_wf N w →
  _user_servers (manager w) !! uid = Some (PList (skipped ++ entry :: rest)) →
  Forall (λ s, disabled s = true) skipped → enabled_entry sid entry →
  _get_server_config env sid w = (Ok (PDict d), w1) →
  Py.assoc "name" d = Some (PStr name) → Py.assoc "url" d = Some url →
  Py.get (PDict d) "config" (PDict []) = Ok config →
  get_connection env sid url config w1 = (Ok c, w2) →
  (env_is_connected env (ticks w1) c = true ∧ lt (S (ticks w1)) c = Ok raw
   ∨ env_is_connected env (ticks w1) c = false ∧ env_aenter env (S (ticks w1)) c = Ok tt
     ∧ lt (S (S (ticks w1))) c = Ok raw) →
  Forall (λ tool, is_Some (tl_name tool)) raw →
  ∃ ds w3,
    discover_tools env lt other uid w
    = discover_loop env lt other rest [(PStr name, ds)] w3
    ∧ Forall2 describes raw ds
    ∧ (∃ idle, idle_of w3 sid = idle ++ [c])
    ∧ ∀ s, active_of w3 s = active_of w s.
Proof.
  intros Hwf Hu Hsk Hen Hg Hname Hurl Hcfg Hget Hlt Hraw.
  destruct (tool_dicts_named raw Hraw) as (ds & Hds & Hall).
  rewrite (discover_tools_list _ _ _ _ _ _ Hu).
  rewrite discover_loop_skip by done. cbn [discover_loop]. unfold mbind, M_bind.
  rewrite (discover_server_enabled _ _ _ _ _ _ _ Hen), Hg.
  assert (Hd : Py.truthy (PDict d) = true) by (by destruct d).
  rewrite Hd.
  pose proof (get_server_config_quiet env sid w) as Hq. unfold after in Hq.
  rewrite Hg in Hq. cbn [snd] in Hq.
  pose proof (quiet_wf N _ _ Hq Hwf) as Hwf1.
  destruct (get_connection_Ok _ _ _ _ _ _ _ _ Hwf1 Hget) as (_ & _ & Ha2 & _ & _ & Ho2).
  assert (Hticks : ticks w2 = ticks w1).
  { pose proof (get_connection_ticks env sid url config w1) as H. unfold after in H.
    by rewrite Hget in H. }
  assert (Hl : ∃ w', list_and_record env lt (PDict d) c [] w2 = (Ok [(PStr name, ds)], w')
                     ∧ quiet w2 w').
  { pose proof (list_and_record_quiet env lt (PDict d) c [] w2) as Hq2.
    unfold after in Hq2. revert Hq2.
    unfold list_and_record, list_tools, is_connected, aenter, dict_setitem. unfold_M.
    cbn. rewrite Hticks, Hname.
    destruct Hlt as [[-> Hlt]|(-> & Hc & Hlt)]; cbn; rewrite ?Hc; cbn; rewrite Hlt; cbn;
      rewrite Hds; cbn; eauto. }
  destruct Hl as (w' & Hl & Hq2).
  assert (Hf : discover_from env lt sid (PDict d) [] w1
               = (Ok [(PStr name, ds)], after (release_connection sid c) w')).
  { unfold discover_from. unfold mbind, M_bind, lift. cbn [Py.getitem].
    rewrite Hurl, Hcfg, Hget. unfold try_finally. rewrite Hl.
    by rewrite release_connection_run. }
  rewrite Hf. exists ds, (after (release_connection sid c) w').
  pose proof (quiet_views _ _ Hq2) as Hv'.
  assert (Hin : c ∈ active_of w' sid).
  { destruct (Hv' sid) as [_ ->]. rewrite Ha2. set_solver. }
  destruct (release_connection_active sid c w' _ Hin (release_connection_run _ _ _))
    as (_ & Hi3 & Ha3 & Ho3).
  split_and!; [done|done|eauto|].
  intros s. destruct (decide (s = sid)) as [->|Hne].
  - rewrite Ha3. destruct (Hv' sid) as [_ ->]. rewrite Ha2.
    destruct (get_connection_Ok _ _ _ _ _ _ _ _ Hwf1 Hget) as (_ & Hnew & _).
    destruct (quiet_views _ _ Hq sid) as [_ <-]. set_solver.
  - destruct (Ho3 s Hne) as [_ ->]. destruct (Hv' s) as [_ ->].
    destruct (Ho2 s Hne) as [_ ->]. by destruct (quiet_views _ _ Hq s) as [_ ->].
Qed.

Lemma discover_lists_tools_witness :
  ∃ ds w3,
    discover_tools env_fine sample_tools no_other_id "test-user-123" world_ready
    = (Ok [(PStr "Weather MCP Server", ds)], w3)
    ∧ length ds = 2%nat.
Proof.
  assert (Hwf : pool_wf 5 world_ready).
  { apply reachable_wf. unfold world_ready. apply reach_op. by eapply reach_new. }
  assert (Hu : _user_servers (manager world_ready) !! "test-user-123"
               = Some (PList ([] ++ PDict [("server_id", PStr "weather-1");
                                           ("enabled", PBool true)] :: [])))
    by (vm_compute; reflexivity).
  assert (Hs : Forall (λ s, disabled s = true) []) by constructor.
  assert (He : enabled_entry "weather-1"
                 (PDict [("server_id", PStr "weather-1"); ("enabled", PBool true)])).
  { eexists _, _. split_and!; reflexivity. }
  pose (w1 := after (_get_server_config env_fine "weather-1") world_ready).
  assert (Hg : _get_server_config env_fine "weather-1" world_ready
               = (Ok (PDict [("name", PStr "Weather MCP Server");
                             ("url", PStr "http://localhost:8001/sse");
                             ("config", PDict [])]), w1))
    by (vm_compute; reflexivity).
  assert (Hget : get_connection env_fine "weather-1" (PStr "http://localhost:8001/sse") (PDict []) w1
                 = (Ok 0%nat,
                    after (get_connection env_fine "weather-1" (PStr "http://localhost:8001/sse")
                             (PDict [])) w1))
    by (vm_compute; reflexivity).
  assert (Hlt : env_is_connected env_fine (ticks w1) 0%nat = true
                ∧ sample_tools (S (ticks w1)) 0%nat
                  = Ok [mkTool (Some (PStr "get_current_weather"))
                          (Some (PStr "Weather of a city")) None;
                        mkTool (Some (PStr "get_alerts")) None
                          (Some (PDict [("region", PStr "str")]))]
                ∨ env_is_connected env_fine (ticks w1) 0%nat = false
                  ∧ env_aenter env_fine (S (ticks w1)) 0%nat = Ok tt
                  ∧ sample_tools (S (S (ticks w1))) 0%nat
                    = Ok [mkTool (Some (PStr "get_current_weather"))
                            (Some (PStr "Weather of a city")) None;
                          mkTool (Some (PStr "get_alerts")) None
                            (Some (PDict [("region", PStr "str")]))])
    by (right; split_and!; reflexivity).
  assert (Hraw : Forall (λ tool, is_Some (tl_name tool))
                   [mkTool (Some (PStr "get_current_weather"))
                      (Some (PStr "Weather of a city")) None;
                    mkTool (Some (PStr "get_alerts")) None
                      (Some (PDict [("region", PStr "str")]))]).
  { constructor; [by eexists|]. constructor; [by eexists|constructor]. }
  destruct (discover_lists_tools env_fine sample_tools no_other_id 5 "test-user-123"
              "weather-1" world_ready [] _ [] _ w1 "Weather MCP Server" _ _ 0%nat _ _
              Hwf Hu Hs He Hg eq_refl eq_refl eq_refl Hget Hlt Hraw)
    as (ds & w3 & H & Hall & _).
  exists ds, w3. split; [exact H|].
  apply Forall2_length in Hall. symmetry. exact Hall.
Defined.
